(** * faas-netes: workload synthesis, reconciliation and the scale guard

    A shallow embedding of the StatefulSet control-plane core of
    faas-netes (pkg/controller, pkg/handlers, pkg/k8s) together with
    the properties of its replica policy, secret projection, security
    policy, change detector, corrective scale guard and update
    handler.

    Go maps are [gmap string string]; a nil pointer or nil map is
    [None]; a Go panic is the [Crash] step; the Kubernetes API client
    is a pair of functions over an abstract cluster state, and every
    [Update] call that is issued is recorded in a trace. *)

From Stdlib Require Import ZArith DecimalString.
From stdpp Require Import gmap strings list fin_maps.

Local Open Scope string_scope.
Local Open Scope Z_scope.

(** ** Kubernetes object model (the fields the code reads or writes) *)

Inductive SecretKind := PullSecret | GenericSecret.

(** A resolved secret: its kind and, for a generic one, its data keys. *)
Record Secret := mkSecret { Type_ : SecretKind; DataKeys : list string }.

Record KeyToPath := mkKeyToPath { Key : string; Path : string }.

(** A projected-secret source: the secret's name and its items. *)
Record SecretProjection := mkSecretProjection {
  sp_Name : string;
  Items : list KeyToPath
}.

Inductive VolumeSource :=
| NoSource
| EmptyDir
| Projected (Sources : list SecretProjection).

Record Volume := mkVolume { v_Name : string; v_VolumeSource : VolumeSource }.

Record VolumeMount := mkVolumeMount {
  m_Name : string;
  MountPath : string;
  ReadOnly : bool
}.

Record SecurityContext := mkSecurityContext {
  AllowPrivilegeEscalation : option bool;
  ReadOnlyRootFilesystem : option bool;
  RunAsUser : option Z
}.

Record EnvVar := mkEnvVar { e_Name : string; e_Value : string }.

Inductive PullPolicy := PullDefault | PullAlways.

(** ** Errors and logging *)

Inductive StatusReason := ReasonConflict | ReasonNotFound | ReasonOther.

(** A Go [error]: an API status error, or a message that may wrap
    another error ([fmt.Errorf] with [%w]). *)
Inductive error :=
| StatusError (reason : StatusReason) (message : string)
| ErrorNew (message : string)
| Errorf (message : string) (wrapped : error).

(** [errors.IsConflict] and [k8s.IsNotFound] look through [%w]. *)
Fixpoint reasonForError (err : error) : option StatusReason :=
  match err with
  | StatusError r _ => Some r
  | ErrorNew _ => None
  | Errorf _ e => reasonForError e
  end.

Definition IsConflict (err : error) : bool :=
  match reasonForError err with Some ReasonConflict => true | _ => false end.

Definition IsNotFound (err : error) : bool :=
  match reasonForError err with Some ReasonNotFound => true | _ => false end.

Inductive Level := LInfo | LWarning | LError.

Record LogEntry := mkLog { level : Level; text : string; cause : option error }.

Definition StatusAccepted : Z := 202.
Definition StatusBadRequest : Z := 400.
Definition StatusNotFound : Z := 404.
Definition StatusInternalServerError : Z := 500.

(** [fmt.Sprintf("%d", n)] *)
Definition fmt_d (n : Z) : string := NilZero.string_of_int (Z.to_int n).

(** [int32(n)] for an [int] n: two's complement wrap-around. *)
Definition int32 (n : Z) : Z := (n + 2 ^ 31) mod 2 ^ 32 - 2 ^ 31.

(** [strings.Split(s, sep)] for a one-character separator. *)
Fixpoint Split (s : string) (sep : Ascii.ascii) : list string :=
  match s with
  | EmptyString => [EmptyString]
  | String c s' =>
      if Ascii.eqb c sep then EmptyString :: Split s' sep
      else match Split s' sep with
           | [] => [String c EmptyString]
           | p :: ps => String c p :: ps
           end
  end.

Definition equals_sign : Ascii.ascii := Ascii.ascii_of_nat 61.

(** A slice is nil or holds a list; [range] and [len] treat nil as empty. *)
Definition elems {A} (s : option (list A)) : list A := default [] s.

(** ** The function specification (pkg/apis/openfaas/v1) and the
    deployment request (faas-provider/types) *)

Record FunctionResources := mkFunctionResources { Memory : string; CPU : string }.

Record FunctionSpec := mkFunctionSpec {
  fs_Name : string;
  fs_Image : string;
  Handler : string;
  fs_Annotations : option (gmap string string);
  fs_Labels : option (gmap string string);
  Environment : option (gmap string string);
  Constraints : option (list string);
  Secrets : option (list string);
  Limits : option FunctionResources;
  Requests : option FunctionResources;
  fs_ReadOnlyRootFilesystem : bool
}.

Record Function := mkFunction {
  f_Name : string;
  f_Namespace : string;
  Spec : FunctionSpec
}.

Record FunctionDeployment := mkFunctionDeployment {
  Service : string;
  r_Image : string;
  r_Namespace : string;
  r_EnvProcess : string;
  r_EnvVars : option (gmap string string);
  r_Constraints : option (list string);
  r_Secrets : option (list string);
  r_Labels : option (gmap string string);
  r_Annotations : option (gmap string string);
  r_Limits : option FunctionResources;
  r_Requests : option FunctionResources;
  r_ReadOnlyRootFilesystem : bool
}.

#[global] Instance FunctionResources_eq_dec : EqDecision FunctionResources.
Proof. solve_decision. Defined.

#[global] Instance FunctionSpec_eq_dec : EqDecision FunctionSpec.
Proof. solve_decision. Defined.

(** One step of a Go function body: fall through with a value, leave
    the function through [return r], or panic. *)
Inductive step (R A : Type) :=
| Next (a : A)
| Return (r : R)
| Crash.
Arguments Next {R A} a.
Arguments Return {R A} r.
Arguments Crash {R A}.

(** Opaque payloads of the collaborators that are configured from
    outside: typed resource requirements (with their zero value),
    probe descriptors, and the placement part of a pod spec (affinity
    rules and tolerations) that profiles contribute. *)
Class Payload := {
  ResourceRequirements : Type;
  defaultResources : ResourceRequirements;
  Probe : Type;
  Placement : Type;
  noPlacement : Placement
}.

Section Objects.
Context `{Payload}.

Record FunctionProbes := mkFunctionProbes {
  Liveness : option Probe;
  Readiness : option Probe
}.

Record Container := mkContainer {
  c_Name : string;
  Image : string;
  ContainerPort : option Z;
  ImagePullPolicy : PullPolicy;
  Env : list EnvVar;
  Resources : ResourceRequirements;
  LivenessProbe : option Probe;
  ReadinessProbe : option Probe;
  c_SecurityContext : option SecurityContext;
  VolumeMounts : list VolumeMount
}.

Record PodSpec := mkPodSpec {
  NodeSelector : gmap string string;
  Containers : list Container;
  Volumes : list Volume;
  placement : Placement
}.

Record PodTemplateSpec := mkPodTemplateSpec {
  t_Labels : gmap string string;
  t_Annotations : gmap string string;
  t_Spec : PodSpec
}.

Record StatefulSet := mkStatefulSet {
  Name : string;
  Namespace : string;
  ResourceVersion : Z;
  Annotations : gmap string string;
  OwnerReferences : list string;
  Replicas : option Z;
  MaxUnavailable : option Z;
  Selector : gmap string string;
  RevisionHistoryLimit : option Z;
  Template : PodTemplateSpec
}.

Definition containers (s : StatefulSet) : list Container :=
  Containers (t_Spec (Template s)).

Definition volumes (s : StatefulSet) : list Volume :=
  Volumes (t_Spec (Template s)).

(** Field updates, written as the assignments of the source. *)
Definition set_PodSpec (p : PodSpec) (s : StatefulSet) : StatefulSet :=
  let t := Template s in
  mkStatefulSet (Name s) (Namespace s) (ResourceVersion s) (Annotations s)
    (OwnerReferences s) (Replicas s) (MaxUnavailable s) (Selector s)
    (RevisionHistoryLimit s)
    (mkPodTemplateSpec (t_Labels t) (t_Annotations t) p).

Definition set_Volumes (vs : list Volume) (s : StatefulSet) : StatefulSet :=
  let p := t_Spec (Template s) in
  set_PodSpec (mkPodSpec (NodeSelector p) (Containers p) vs (placement p)) s.

Definition set_Containers (cs : list Container) (s : StatefulSet) : StatefulSet :=
  let p := t_Spec (Template s) in
  set_PodSpec (mkPodSpec (NodeSelector p) cs (Volumes p) (placement p)) s.

Definition set_NodeSelector (sel : gmap string string) (s : StatefulSet) : StatefulSet :=
  let p := t_Spec (Template s) in
  set_PodSpec (mkPodSpec sel (Containers p) (Volumes p) (placement p)) s.

Definition set_Replicas (r : option Z) (s : StatefulSet) : StatefulSet :=
  mkStatefulSet (Name s) (Namespace s) (ResourceVersion s) (Annotations s)
    (OwnerReferences s) r (MaxUnavailable s) (Selector s)
    (RevisionHistoryLimit s) (Template s).

Definition set_Annotations (a : gmap string string) (s : StatefulSet) : StatefulSet :=
  mkStatefulSet (Name s) (Namespace s) (ResourceVersion s) a
    (OwnerReferences s) (Replicas s) (MaxUnavailable s) (Selector s)
    (RevisionHistoryLimit s) (Template s).

Definition set_TemplateLabels (l : gmap string string) (s : StatefulSet) : StatefulSet :=
  let t := Template s in
  mkStatefulSet (Name s) (Namespace s) (ResourceVersion s) (Annotations s)
    (OwnerReferences s) (Replicas s) (MaxUnavailable s) (Selector s)
    (RevisionHistoryLimit s)
    (mkPodTemplateSpec l (t_Annotations t) (t_Spec t)).

Definition set_TemplateAnnotations (a : gmap string string) (s : StatefulSet) : StatefulSet :=
  let t := Template s in
  mkStatefulSet (Name s) (Namespace s) (ResourceVersion s) (Annotations s)
    (OwnerReferences s) (Replicas s) (MaxUnavailable s) (Selector s)
    (RevisionHistoryLimit s)
    (mkPodTemplateSpec (t_Labels t) a (t_Spec t)).

(** A profile merges or removes a pod-spec fragment: placement and
    extra volumes. *)
Definition set_Fragment (f : Placement * list Volume → Placement * list Volume)
    (s : StatefulSet) : StatefulSet :=
  let p := t_Spec (Template s) in
  let '(pl, vs) := f (placement p, Volumes p) in
  set_PodSpec (mkPodSpec (NodeSelector p) (Containers p) vs pl) s.

(** [statefulset.Spec.Template.Spec.Containers[0] = c]; the callers
    below reach it only where [Containers[0]] exists. *)
Definition set_Container0 (c : Container) (s : StatefulSet) : StatefulSet :=
  set_Containers (<[0%nat := c]> (containers s)) s.

Definition set_SecurityContext (sc : option SecurityContext) (c : Container) : Container :=
  mkContainer (c_Name c) (Image c) (ContainerPort c) (ImagePullPolicy c) (Env c)
    (Resources c) (LivenessProbe c) (ReadinessProbe c) sc (VolumeMounts c).

Definition set_VolumeMounts (ms : list VolumeMount) (c : Container) : Container :=
  mkContainer (c_Name c) (Image c) (ContainerPort c) (ImagePullPolicy c) (Env c)
    (Resources c) (LivenessProbe c) (ReadinessProbe c) (c_SecurityContext c) ms.

Definition set_Image (i : string) (c : Container) : Container :=
  mkContainer (c_Name c) i (ContainerPort c) (ImagePullPolicy c) (Env c)
    (Resources c) (LivenessProbe c) (ReadinessProbe c) (c_SecurityContext c)
    (VolumeMounts c).

Definition set_ImagePullPolicy (pp : PullPolicy) (c : Container) : Container :=
  mkContainer (c_Name c) (Image c) (ContainerPort c) pp (Env c)
    (Resources c) (LivenessProbe c) (ReadinessProbe c) (c_SecurityContext c)
    (VolumeMounts c).

Definition set_Env (e : list EnvVar) (c : Container) : Container :=
  mkContainer (c_Name c) (Image c) (ContainerPort c) (ImagePullPolicy c) e
    (Resources c) (LivenessProbe c) (ReadinessProbe c) (c_SecurityContext c)
    (VolumeMounts c).

Definition set_Resources (r : ResourceRequirements) (c : Container) : Container :=
  mkContainer (c_Name c) (Image c) (ContainerPort c) (ImagePullPolicy c) (Env c)
    r (LivenessProbe c) (ReadinessProbe c) (c_SecurityContext c)
    (VolumeMounts c).

Definition set_Probes (p : FunctionProbes) (c : Container) : Container :=
  mkContainer (c_Name c) (Image c) (ContainerPort c) (ImagePullPolicy c) (Env c)
    (Resources c) (Liveness p) (Readiness p) (c_SecurityContext c)
    (VolumeMounts c).

End Objects.

(** ** Collaborators

    What the code reaches through its factory, its API client and the
    helpers of its packages that are not under src. *)
Class Collaborators `{Payload} := {
  (** The cluster: an abstract store reached through [Get] and
      [Update] of the API client. *)
  Cluster : Type;
  Get : string → string → Cluster → error + StatefulSet;
  Update : string → StatefulSet → Cluster → option error * Cluster;
  (** [f.Config.SetNonRootUser], the process-wide policy flag. *)
  SetNonRootUser : bool;
  (** The secrets mount path, "a fixed configured path constant". *)
  secretsMountPath : string;
  (** The resource-quantity parser, "supplied as configuration":
      limits and requests to typed requirements, or a validation
      error. *)
  parseResources :
    option FunctionResources → option FunctionResources → error + ResourceRequirements;
  (** Probe construction; the pointer it returns is taken to be
      non-nil also when it reports an error (newStatefulSet reads
      through it). *)
  MakeProbes : FunctionDeployment → FunctionProbes * option error;
  (** Profiles: resolved by name from the annotations; applying or
      removing one merges or reverses its pod-spec fragment
      (affinities and tolerations, extra volumes). *)
  Profile : Type;
  ProfilesNamespace : string;
  GetProfilesToRemove :
    string → gmap string string → gmap string string → list Profile * option error;
  GetProfiles : string → gmap string string → list Profile * option error;
  ApplyProfile : Profile → Placement * list Volume → Placement * list Volume;
  RemoveProfile : Profile → Placement * list Volume → Placement * list Volume;
  ProfileAnnotationKey : string;
  (** The secrets resolver of the update handler. *)
  GetSecrets : string → option (list string) → error + gmap string Secret;
  (** [encoding/json] on a FunctionSpec. *)
  json_Marshal : FunctionSpec → error + string;
  json_Unmarshal : string → error + FunctionSpec;
  (** The replica computation of the controller, and the label
      parser, environment and selector builders of the handlers. *)
  getReplicas : Function → option StatefulSet → option Z;
  getMinReplicaCount : gmap string string → option Z;
  buildEnvVars : FunctionDeployment → list EnvVar;
  createSelector : option (list string) → gmap string string;
  (** The scale ceiling, [handlers.MaxReplicas], and the container
      port of a function, [functionPort]. *)
  MaxReplicas : Z;
  functionPort : Z
}.

Section Model.
Context `{Collaborators}.

(** ** The effects of the code

    [World] is the cluster together with the trace of the [Update]
    calls issued and the log lines written. *)

Record World := mkWorld {
  cluster : Cluster;
  updates : list (string * StatefulSet);
  logs : list LogEntry
}.

Definition M (R A : Type) : Type := World → step R A * World.

Definition ret {R A} (a : A) : M R A := λ w, (Next a, w).

Definition bind {R A B} (m : M R A) (k : A → M R B) : M R B :=
  λ w, match m w with
       | (Next a, w') => k a w'
       | (Return r, w') => (Return r, w')
       | (Crash, w') => (Crash, w')
       end.

Notation "x <- m ;; k" := (bind m (λ x, k))
  (at level 100, m at next level, right associativity).
Notation "m ;;; k" := (bind m (λ _, k))
  (at level 100, right associativity).

Definition return_ {R A} (r : R) : M R A := λ w, (Return r, w).

Definition panic {R A} : M R A := λ w, (Crash, w).

Definition log {R} (l : Level) (msg : string) (e : option error) : M R unit :=
  λ w, (Next tt, mkWorld (cluster w) (updates w) (logs w ++ [mkLog l msg e])).

Definition when {R} (b : bool) (m : M R unit) : M R unit :=
  if b then m else ret tt.

(** [for _, x := range xs { s = f x s }] *)
Definition range_apply {X S} (f : X → S → S) (xs : list X) (s : S) : S :=
  foldl (λ acc x, f x acc) s xs.

(** The client calls. *)
Definition client_Get {R} (ns name : string) : M R (error + StatefulSet) :=
  λ w, (Next (Get ns name (cluster w)), w).

Definition client_Update {R} (ns : string) (s : StatefulSet) : M R (option error) :=
  λ w, let '(e, c') := Update ns s (cluster w) in
       (Next e, mkWorld c' (updates w ++ [(ns, s)]) (logs w)).

(** [statefulset.Spec.Template.Spec.Containers[0]] *)
Definition Containers0 {R} (s : StatefulSet) : M R Container :=
  match containers s with
  | [] => panic
  | c0 :: _ => ret c0
  end.

(** ** pkg/k8s: volume helpers *)

(** Modelled from the spec: removeVolume is not under src; the spec
    has it remove every volume of the given name ("removes all
    existing volumes/mounts named ..."), keeping the others in
    order. *)
Definition removeVolume (volumeName : string) (vs : list Volume) : list Volume :=
  filter (λ v, v_Name v ≠ volumeName) vs.

(** Modelled from the spec: removeVolumeMount, the same for the mounts
    of a container. *)
Definition removeVolumeMount (volumeName : string) (ms : list VolumeMount) : list VolumeMount :=
  filter (λ m, m_Name m ≠ volumeName) ms.

(** ** pkg/k8s/securityContext.go *)

Definition SecurityContextUserID : Z := 12000.

Definition ConfigureContainerUserID {R} (statefulset : StatefulSet) : M R StatefulSet :=
  let userID := SecurityContextUserID in
  let functionUser := if SetNonRootUser then Some userID else None in
  c0 <- Containers0 statefulset ;;
  let sc :=
    match c_SecurityContext c0 with
    | None => mkSecurityContext None None None
    | Some sc => sc
    end in
  ret (set_Container0
         (set_SecurityContext
            (Some (mkSecurityContext (AllowPrivilegeEscalation sc)
                     (ReadOnlyRootFilesystem sc) functionUser)) c0)
         statefulset).

Definition tempVolume : Volume := mkVolume "temp" EmptyDir.
Definition tempMount : VolumeMount := mkVolumeMount "temp" "/tmp" false.

(** The request contributes only its [ReadOnlyRootFilesystem] flag. *)
Definition ConfigureReadOnlyRootFilesystem {R}
    (request : FunctionDeployment) (statefulset : StatefulSet) : M R StatefulSet :=
  c0 <- Containers0 statefulset ;;
  let flag := r_ReadOnlyRootFilesystem request in
  let sc :=
    match c_SecurityContext c0 with
    | Some sc => mkSecurityContext (AllowPrivilegeEscalation sc)
                   (Some flag) (RunAsUser sc)
    | None => mkSecurityContext None (Some flag) None
    end in
  let c1 := set_SecurityContext (Some sc) c0 in
  let existingVolumes := removeVolume "temp" (volumes statefulset) in
  let existingMounts := removeVolumeMount "temp" (VolumeMounts c1) in
  if flag then
    ret (set_Volumes (existingVolumes ++ [tempVolume])
           (set_Container0 (set_VolumeMounts (existingMounts ++ [tempMount]) c1)
              statefulset))
  else
    ret (set_Volumes existingVolumes
           (set_Container0 (set_VolumeMounts existingMounts c1) statefulset)).

(** ** pkg/k8s: secret projection *)

(** Modelled from the spec: the NotFoundError that a lookup miss for a
    requested secret name signals. *)
Definition NotFoundError (name : string) : error :=
  StatusError ReasonNotFound
    ("required secret '" ++ name ++ "' was not found in the cluster").

(** Modelled from the spec: the lookup pass of the secret projection,
    which is not under src.  Every requested name is resolved, a miss
    signalling a NotFoundError; each requested generic secret gives
    one projected-secret source that lists the secret's keys as
    items. *)
Fixpoint secretProjections (names : list string)
    (existingSecrets : gmap string Secret) : error + list SecretProjection :=
  match names with
  | [] => inr []
  | secretName :: rest =>
      match existingSecrets !! secretName with
      | None => inl (NotFoundError secretName)
      | Some deployedSecret =>
          match secretProjections rest existingSecrets with
          | inl e => inl e
          | inr ps =>
              match Type_ deployedSecret with
              | PullSecret => inr ps
              | GenericSecret =>
                  inr (mkSecretProjection secretName
                         ((λ k, mkKeyToPath k k) <$> DataKeys deployedSecret) :: ps)
              end
          end
      end
  end.

(** Modelled from the spec: the name <service>-projected-secrets. *)
Definition secretsVolumeName (service : string) : string :=
  service ++ "-projected-secrets".

(** Modelled from the spec: the matching mount, at the secrets mount
    path, read-only. *)
Definition secretsMount (service : string) : VolumeMount :=
  mkVolumeMount (secretsVolumeName service) secretsMountPath true.

(** Modelled from the spec: the secret projection shared by
    ConfigureSecrets (pkg/k8s) and UpdateSecrets (pkg/controller),
    neither of which is under src.  A lookup miss aborts before any
    mutation; otherwise every volume and mount named
    <service>-projected-secrets is removed and, if the requested list
    is not empty, exactly one projected volume and, per container, one
    mount are added. *)
Definition projectSecrets (service : string) (secrets : option (list string))
    (statefulset : StatefulSet) (existingSecrets : gmap string Secret)
    : option error * StatefulSet :=
  match secretProjections (elems secrets) existingSecrets with
  | inl e => (Some e, statefulset)
  | inr sources =>
      let volumeName := secretsVolumeName service in
      let requested := negb (bool_decide (elems secrets = [])) in
      let existingVolumes := removeVolume volumeName (volumes statefulset) in
      let mount (c : Container) :=
        let existingMounts := removeVolumeMount volumeName (VolumeMounts c) in
        set_VolumeMounts
          (if requested then existingMounts ++ [secretsMount service]
           else existingMounts) c in
      (None,
       set_Containers (mount <$> containers statefulset)
         (set_Volumes
            (if requested
             then existingVolumes ++ [mkVolume volumeName (Projected sources)]
             else existingVolumes)
            statefulset))
  end.

(** Modelled from the spec: ConfigureSecrets, the projection for a
    deployment request. *)
Definition ConfigureSecrets (request : FunctionDeployment)
    (statefulset : StatefulSet) (existingSecrets : gmap string Secret)
    : option error * StatefulSet :=
  projectSecrets (Service request) (r_Secrets request) statefulset existingSecrets.

(** Modelled from the spec: UpdateSecrets, the projection for a
    Function resource. *)
Definition UpdateSecrets (function : Function)
    (statefulset : StatefulSet) (existingSecrets : gmap string Secret)
    : option error * StatefulSet :=
  projectSecrets (fs_Name (Spec function)) (Secrets (Spec function))
    statefulset existingSecrets.

(** ** Helpers that are not under src *)

(** Modelled from the spec: makeResources (controller) is not under
    src.  It parses the request/limit strings; on a malformed value it
    hands back the error together with requirements left at their
    default (newStatefulSet dereferences the pointer whatever the
    error). *)
Definition makeResources (function : Function) : ResourceRequirements * option error :=
  match parseResources (Limits (Spec function)) (Requests (Spec function)) with
  | inr r => (r, None)
  | inl e => (defaultResources, Some e)
  end.

(** Modelled from the spec: createResources (handlers) is not under
    src.  It parses the request/limit strings of the request and hands
    back the requirements or the validation error. *)
Definition createResources (request : FunctionDeployment) : error + ResourceRequirements :=
  parseResources (r_Limits request) (r_Requests request).

(** Modelled from the spec: functionToFunctionRequest is not under
    src.  The controller's factory wraps the pkg/k8s one behind this
    conversion of the Function into a request, field by field. *)
Definition functionToFunctionRequest (function : Function) : FunctionDeployment :=
  let sp := Spec function in
  mkFunctionDeployment (fs_Name sp) (fs_Image sp) (f_Namespace function)
    (Handler sp) (Environment sp) (Constraints sp) (Secrets sp) (fs_Labels sp)
    (fs_Annotations sp) (Limits sp) (Requests sp) (fs_ReadOnlyRootFilesystem sp).

(** ** pkg/controller/statefulset.go *)

Definition annotationFunctionSpec : string := "com.openfaas.function.spec".

(** Go ranges over a map in an unspecified order; the model takes the
    enumeration [map_to_list]. *)
Definition makeEnvVars (function : Function) : list EnvVar :=
  let envVars :=
    if bool_decide (0 < String.length (Handler (Spec function)))%nat
    then [mkEnvVar "fprocess" (Handler (Spec function))]
    else [] in
  match Environment (Spec function) with
  | Some env => envVars ++ ((λ kv, mkEnvVar kv.1 kv.2) <$> map_to_list env)
  | None => envVars
  end.

(** [for k, v := range m { labels[k] = v }]: the entries of [m] win. *)
Definition copy_into (m : option (gmap string string)) (labels : gmap string string)
    : gmap string string :=
  match m with
  | Some m => m ∪ labels
  | None => labels
  end.

Definition makeLabels (function : Function) : gmap string string :=
  let labels : gmap string string :=
    <["controller" := f_Name function]>
      (<["app" := fs_Name (Spec function)]>
         (<["faas_function" := fs_Name (Spec function)]> ∅)) in
  copy_into (fs_Labels (Spec function)) labels.

Definition makeAnnotations {R} (function : Function) : M R (gmap string string) :=
  let annotations : gmap string string := <["prometheus.io.scrape" := "false"]> ∅ in
  let annotations := copy_into (fs_Annotations (Spec function)) annotations in
  match json_Marshal (Spec function) with
  | inl err =>
      log LError "Failed to marshal function spec" (Some err) ;;;
      ret annotations
  | inr specJSON => ret (<[annotationFunctionSpec := specJSON]> annotations)
  end.

Definition makeNodeSelector (constraints : option (list string)) : gmap string string :=
  foldl (λ (selector : gmap string string) constraint,
           match Split constraint equals_sign with
           | [k; v] => <[k := v]> selector
           | _ => selector
           end) ∅ (elems constraints).

Definition int32p (i : Z) : option Z := Some i.

Definition warn_if {R} (e : option error) (msg : string) : M R unit :=
  match e with
  | Some err => log LWarning msg (Some err)
  | None => ret tt
  end.

(** The log lines keep the fixed part of each message and the error;
    a nil [existingStatefulSet] is [None], a nil map of secrets is the
    empty map. *)
Definition newStatefulSet (function : Function)
    (existingStatefulSet : option StatefulSet)
    (existingSecrets : gmap string Secret) : M StatefulSet StatefulSet :=
  let envVars := makeEnvVars function in
  let labels := makeLabels function in
  let nodeSelector := makeNodeSelector (Constraints (Spec function)) in
  let '(probes, err) := MakeProbes (functionToFunctionRequest function) in
  warn_if err "probes parsing failed" ;;;
  let '(resources, err) := makeResources function in
  warn_if err "resources parsing failed" ;;;
  annotations <- makeAnnotations function ;;
  let allowPrivilegeEscalation := false in
  let statefulsetSpec :=
    mkStatefulSet (fs_Name (Spec function)) (f_Namespace function) 0 annotations
      [f_Name function]
      (getReplicas function existingStatefulSet)
      (Some 0)
      (<["controller" := f_Name function]>
         (<["app" := fs_Name (Spec function)]> ∅))
      (int32p 5)
      (mkPodTemplateSpec labels annotations
         (mkPodSpec nodeSelector
            [mkContainer (fs_Name (Spec function)) (fs_Image (Spec function))
               (Some (int32 functionPort)) PullAlways envVars resources
               (Liveness probes) (Readiness probes)
               (Some (mkSecurityContext (Some allowPrivilegeEscalation) None None))
               []]
            [] noPlacement)) in
  statefulsetSpec <- ConfigureReadOnlyRootFilesystem
                       (functionToFunctionRequest function) statefulsetSpec ;;
  statefulsetSpec <- ConfigureContainerUserID statefulsetSpec ;;
  let currentAnnotations : gmap string string :=
    match existingStatefulSet with
    | Some e => Annotations e
    | None => ∅
    end in
  let profileNamespace := ProfilesNamespace in
  let '(profileList, err) :=
    GetProfilesToRemove profileNamespace annotations currentAnnotations in
  warn_if err "can not retrieve required Profiles" ;;;
  let statefulsetSpec :=
    range_apply (λ profile, set_Fragment (RemoveProfile profile)) profileList
      statefulsetSpec in
  when (negb (bool_decide (is_Some (annotations !! ProfileAnnotationKey))))
    (log LInfo "no profiles specified" None) ;;;
  let '(profileList, err) := GetProfiles profileNamespace annotations in
  warn_if err "can not retrieve required Profiles" ;;;
  log LInfo "Applying profiles" None ;;;
  let statefulsetSpec :=
    range_apply (λ profile, set_Fragment (ApplyProfile profile)) profileList
      statefulsetSpec in
  let '(err, statefulsetSpec) :=
    UpdateSecrets function statefulsetSpec existingSecrets in
  warn_if err "secrets update failed" ;;;
  ret statefulsetSpec.

(** [cmp.Diff(a, b) != ""], that is [!cmp.Equal(a, b)]: structural
    inequality of two specs. *)
Definition statefulsetNeedsUpdate {R} (function : Function) (statefulset : StatefulSet)
    : M R bool :=
  let prevFnSpecJson := default "" (Annotations statefulset !! annotationFunctionSpec) in
  if bool_decide (prevFnSpecJson = "") then ret true
  else
    match json_Unmarshal prevFnSpecJson with
    | inl err =>
        log LError "Failed to parse previous function spec" (Some err) ;;;
        ret true
    | inr prevFnSpec =>
        if bool_decide (prevFnSpec ≠ Spec function) then
          log LInfo "Change detected" None ;;;
          ret true
        else
          log LInfo "No changes detected" None ;;;
          ret false
    end.

(** ** pkg/handlers/update.go *)

(** [statefulset.Spec.Template.Spec.Containers[0].X = v] *)
Definition assign_Container0 {R} (f : Container → Container) (s : StatefulSet)
    : M R StatefulSet :=
  c0 <- Containers0 s ;;
  ret (set_Container0 (f c0) s).

(** [nanosecond] is [time.Now().Nanosecond()] at the time of the call. *)
Definition updateStatefulSetSpec (nanosecond : Z) (functionNamespace : string)
    (request : FunctionDeployment) (annotations : gmap string string)
    : M (option error * Z) (option error * Z) :=
  found <- client_Get functionNamespace (Service request) ;;
  match found with
  | inl findDeployErr => return_ (Some findDeployErr, StatusNotFound)
  | inr statefulset =>
      statefulset <-
        (if bool_decide (0 < length (containers statefulset))%nat then
           statefulset <- assign_Container0 (set_Image (r_Image request)) statefulset ;;
           statefulset <- assign_Container0 (set_ImagePullPolicy PullAlways) statefulset ;;
           statefulset <- assign_Container0 (set_Env (buildEnvVars request)) statefulset ;;
           statefulset <- ConfigureReadOnlyRootFilesystem request statefulset ;;
           statefulset <- ConfigureContainerUserID statefulset ;;
           let statefulset :=
             set_NodeSelector (createSelector (r_Constraints request)) statefulset in
           let labels : gmap string string :=
             <["uid" := fmt_d nanosecond]>
               (<["faas_function" := Service request]> ∅) in
           let statefulset :=
             match r_Labels request with
             | Some requestLabels =>
                 match getMinReplicaCount requestLabels with
                 | Some min => set_Replicas (Some min) statefulset
                 | None => statefulset
                 end
             | None => statefulset
             end in
           let labels := copy_into (r_Labels request) labels in
           let statefulset := set_TemplateLabels labels statefulset in
           let currentAnnotations := Annotations statefulset in
           let statefulset := set_Annotations annotations statefulset in
           let statefulset := set_TemplateAnnotations annotations statefulset in
           match createResources request with
           | inl resourceErr => return_ (Some resourceErr, StatusBadRequest)
           | inr resources =>
               statefulset <- assign_Container0 (set_Resources resources) statefulset ;;
               match GetSecrets functionNamespace (r_Secrets request) with
               | inl err => return_ (Some err, StatusBadRequest)
               | inr existingSecrets =>
                   match ConfigureSecrets request statefulset existingSecrets with
                   | (Some err, _) =>
                       log LInfo "" (Some err) ;;;
                       return_ (Some err, StatusBadRequest)
                   | (None, statefulset) =>
                       match MakeProbes request with
                       | (_, Some err) => return_ (Some err, StatusBadRequest)
                       | (probes, None) =>
                           statefulset <- assign_Container0 (set_Probes probes) statefulset ;;
                           let profileNamespace := ProfilesNamespace in
                           match GetProfilesToRemove profileNamespace annotations
                                   currentAnnotations with
                           | (_, Some err) => return_ (Some err, StatusBadRequest)
                           | (profileList, None) =>
                               let statefulset :=
                                 range_apply
                                   (λ profile, set_Fragment (RemoveProfile profile))
                                   profileList statefulset in
                               match GetProfiles profileNamespace annotations with
                               | (_, Some err) => return_ (Some err, StatusBadRequest)
                               | (profileList, None) =>
                                   ret (range_apply
                                          (λ profile, set_Fragment (ApplyProfile profile))
                                          profileList statefulset)
                               end
                           end
                       end
                   end
               end
           end
         else ret statefulset) ;;
      updateErr <- client_Update functionNamespace statefulset ;;
      match updateErr with
      | Some updateErr => return_ (Some updateErr, StatusInternalServerError)
      | None => return_ (None, StatusAccepted)
      end
  end.

(** ** pkg/controller/informers.go *)

Definition applyValidation (statefulset : StatefulSet)
    : M (option error) (option error) :=
  match Replicas statefulset with
  | None => return_ None
  | Some current =>
      if negb (bool_decide
                 (is_Some (t_Labels (Template statefulset) !! "faas_function")))
      then return_ None
      else
        target <-
          (if bool_decide (current = 0) then ret 1
           else if bool_decide (current > MaxReplicas) then ret MaxReplicas
           else return_ None) ;;
        let clone := statefulset in
        let value := int32 target in
        let clone := set_Replicas (Some value) clone in
        err <- client_Update (Namespace statefulset) clone ;;
        match err with
        | Some err =>
            if IsConflict err then return_ None
            else return_ (Some (Errorf
                                  ("error scaling " ++ Name statefulset ++ " to "
                                   ++ fmt_d value ++ " replicas: ") err))
        | None => return_ None
        end
  end.

(** A call of a function from inside another body: its [return]
    ends the callee, not the caller. *)
Definition call {R R'} (m : M R R) : M R' R :=
  λ w, match m w with
       | (Next r, w') => (Next r, w')
       | (Return r, w') => (Next r, w')
       | (Crash, w') => (Crash, w')
       end.

(** [if err := applyValidation(statefulset, kubeClient); err != nil
    { klog.Info(err) }] *)
Definition validate {R} (statefulset : StatefulSet) : M R unit :=
  err <- call (applyValidation statefulset) ;;
  match err with
  | Some err => log LInfo "" (Some err)
  | None => ret tt
  end.

(** The add and update callbacks; [None] is an object that is not a
    StatefulSet, or a nil one. *)
Definition AddFunc (obj : option StatefulSet) : M unit unit :=
  match obj with
  | None => return_ tt
  | Some statefulset => validate statefulset
  end.

Definition UpdateFunc (oldObj newObj : option StatefulSet) : M unit unit :=
  match newObj with
  | None => return_ tt
  | Some statefulset => validate statefulset
  end.

Fixpoint range_validate {R} (list : list StatefulSet) : M R unit :=
  match list with
  | [] => ret tt
  | statefulset :: rest => validate statefulset ;;; range_validate rest
  end.

(** The start-up pass of RegisterEventHandlers over the lister's
    result. *)
Definition RegisterEventHandlers (listed : error + list StatefulSet) : M unit unit :=
  match listed with
  | inl err => log LInfo "" (Some err) ;;; return_ tt
  | inr list => range_validate list
  end.

(** ** pkg/k8s/securityContext_test.go: the two validators

    A validator collects the failures it reports with [t.Error]; [None]
    is a panic of the validator itself (an index out of range or a nil
    pointer read). *)
Definition check (ok : bool) (msg : string) : list string :=
  if ok then [] else [msg].

Definition readOnlyRootDisabled (statefulset : StatefulSet) : option (list string) :=
  let e1 := check (bool_decide (length (volumes statefulset) = 0%nat))
              "Volumes should be empty if ReadOnlyRootFilesystem is false" in
  functionContatiner ← containers statefulset !! 0%nat;
  let e2 := check (bool_decide (length (VolumeMounts functionContatiner) = 0%nat))
              "VolumeMounts should be empty if ReadOnlyRootFilesystem is false" in
  match c_SecurityContext functionContatiner with
  | Some sc =>
      flag ← ReadOnlyRootFilesystem sc;
      Some (e1 ++ e2
            ++ check (negb flag)
                 "ReadOnlyRootFilesystem should be false on the container SecurityContext")%list
  | None => Some (e1 ++ e2)%list
  end.

Definition readOnlyRootEnabled (statefulset : StatefulSet) : option (list string) :=
  let e1 := check (bool_decide (length (volumes statefulset) = 1%nat))
              "should create a single tmp Volume" in
  c0 ← containers statefulset !! 0%nat;
  let e2 := check (bool_decide (length (VolumeMounts c0) = 1%nat))
              "should create a single tmp VolumeMount" in
  volume ← volumes statefulset !! 0%nat;
  let e3 := check (bool_decide (v_Name volume = "temp")) "volume should be named temp" in
  mount ← VolumeMounts c0 !! 0%nat;
  let e4 := check (bool_decide (m_Name mount = "temp"))
              "volume mount should be named temp" in
  let e5 := check (bool_decide (MountPath mount = "/tmp"))
              "temp volume should be mounted to /tmp" in
  let e6 := check (negb (ReadOnly mount)) "temp mount should not read only" in
  let e7 := check (bool_decide (is_Some (c_SecurityContext c0)))
              "container security context should not be nil" in
  sc ← c_SecurityContext c0;
  flag ← ReadOnlyRootFilesystem sc;
  Some (e1 ++ e2 ++ e3 ++ e4 ++ e5 ++ e6 ++ e7
        ++ check flag
             "should set ReadOnlyRootFilesystem to true on the container SecurityContext")%list.

End Model.

(** ** pkg/handlers/update.go: the Service update and the handler *)

(** A [corev1.Service]: its annotations, and everything else of it. *)
Record ServiceObject (Rest : Type) := mkServiceObject {
  svc_Annotations : gmap string string;
  svc_Rest : Rest
}.
Arguments mkServiceObject {Rest} svc_Annotations svc_Rest.
Arguments svc_Annotations {Rest} s.
Arguments svc_Rest {Rest} s.

(** What the handler reaches besides the factory: the Services API of
    the client, the decoder of the request body, and the request
    validator and annotation builder of its package. *)
Class Frontend := {
  ServiceRest : Type;
  ServiceStore : Type;
  GetService : string → string → ServiceStore → error + ServiceObject ServiceRest;
  UpdateService :
    string → ServiceObject ServiceRest → ServiceStore → option error * ServiceStore;
  (** [json.Unmarshal(body, &request)] on a zero request. *)
  json_Unmarshal_request : string → error + FunctionDeployment;
  ValidateDeployRequest : FunctionDeployment → option error;
  buildAnnotations : FunctionDeployment → error + gmap string string
}.

Definition StatusUnauthorized : Z := 401.

(** [err.Error()]: the message, followed by the text of what it wraps. *)
Fixpoint Error_ (err : error) : string :=
  match err with
  | StatusError _ message => message
  | ErrorNew message => message
  | Errorf message wrapped => message ++ Error_ wrapped
  end.

Definition newline : string := String (Ascii.ascii_of_nat 10) EmptyString.

(** What a handler does to its [http.ResponseWriter]. *)
Inductive Reply :=
| http_Error (text : string) (code : Z)
| WriteHeader (code : Z).

Section Handler.
Context `{Collaborators} `{Frontend}.

(** The state that one request runs in: the world of the StatefulSet
    code, the Services API with the trace of its [Update] calls, and
    what has been written to the response. *)
Record Exchange := mkExchange {
  x_World : World;
  x_Services : ServiceStore;
  x_ServiceUpdates : list (string * ServiceObject ServiceRest);
  x_Response : list Reply
}.

Definition reply (r : Reply) (x : Exchange) : Exchange :=
  mkExchange (x_World x) (x_Services x) (x_ServiceUpdates x) (x_Response x ++ [r]).

Definition with_World (w : World) (x : Exchange) : Exchange :=
  mkExchange w (x_Services x) (x_ServiceUpdates x) (x_Response x).

(** [log.Printf(text, ..., err)] *)
Definition log_Printf (text : string) (err : error) (x : Exchange) : Exchange :=
  let w := x_World x in
  with_World (mkWorld (cluster w) (updates w) (logs w ++ [mkLog LInfo text (Some err)])) x.

Definition updateService (functionNamespace : string) (request : FunctionDeployment)
    (annotations : gmap string string) (x : Exchange)
    : (option error * Z) * Exchange :=
  match GetService functionNamespace (Service request) (x_Services x) with
  | inl findServiceErr => ((Some findServiceErr, StatusNotFound), x)
  | inr service =>
      let service := mkServiceObject annotations (svc_Rest service) in
      let '(updateErr, services) :=
        UpdateService functionNamespace service (x_Services x) in
      let x := mkExchange (x_World x) services
                 (x_ServiceUpdates x ++ [(functionNamespace, service)])
                 (x_Response x) in
      match updateErr with
      | Some updateErr => ((Some updateErr, StatusInternalServerError), x)
      | None => ((None, StatusAccepted), x)
      end
  end.

(** The handler that MakeUpdateHandler returns, run on one request.
    [body] is what [io.ReadAll(r.Body)] yields, its error dropped;
    [None] is a nil [r.Body], on which the read panics.  The result
    [None] is a panic of the handler. *)
Definition MakeUpdateHandler (defaultNamespace : string) (nanosecond : Z)
    (body : option string) (x : Exchange) : option Exchange :=
  body ← body;
  match json_Unmarshal_request body with
  | inl err =>
      Some (reply (http_Error ("unable to unmarshal request: " ++ Error_ err)
                     StatusBadRequest) x)
  | inr request =>
  match ValidateDeployRequest request with
  | Some err =>
      Some (reply (http_Error ("validation failed: " ++ Error_ err)
                     StatusBadRequest) x)
  | None =>
  let lookupNamespace :=
    if bool_decide (0 < String.length (r_Namespace request))%nat
    then r_Namespace request else defaultNamespace in
  if bool_decide (lookupNamespace ≠ defaultNamespace) then
    Some (reply (http_Error ("namespace must be: " ++ defaultNamespace)
                   StatusBadRequest) x)
  else if bool_decide (lookupNamespace = "kube-system") then
    Some (reply (http_Error "unable to list within the kube-system namespace"
                   StatusUnauthorized) x)
  else
  match buildAnnotations request with
  | inl err => Some (reply (http_Error (Error_ err) StatusBadRequest) x)
  | inr annotations =>
  match call (R' := Empty_set)
          (updateStatefulSetSpec nanosecond lookupNamespace request annotations)
          (x_World x) with
  | (Crash, _) => None
  | (Return r, _) => match r with end
  | (Next (Some err, status), w) =>
      let x := with_World w x in
      if negb (IsNotFound err) then
        Some (log_Printf ("error updating StatefulSet: " ++ Service request ++ "."
                          ++ lookupNamespace ++ ", error: " ++ Error_ err ++ newline)
                err x)
      else
        Some (reply (http_Error ("unable update StatefulSet: " ++ Service request
                                 ++ "." ++ lookupNamespace ++ ", error: "
                                 ++ Error_ err) status) x)
  | (Next (None, _), w) =>
      let x := with_World w x in
      match updateService lookupNamespace request annotations x with
      | ((Some err, status), x) =>
          let x :=
            if negb (IsNotFound err) then
              log_Printf ("error updating service: " ++ Service request ++ "."
                          ++ lookupNamespace ++ ", error: " ++ Error_ err ++ newline)
                err x
            else x in
          Some (reply (http_Error ("unable update Service: " ++ Service request
                                   ++ "." ++ r_Namespace request ++ ", error: "
                                   ++ Error_ err) status) x)
      | ((None, _), x) => Some (reply (WriteHeader StatusAccepted) x)
      end
  end
  end
  end
  end.

(** The requests that get past the checks of the handler and reach
    the cluster: decoded, valid, for the handler's namespace, which is
    not kube-system, and with well-formed annotations. *)
Definition accepts (defaultNamespace body : string) (request : FunctionDeployment)
    (annotations : gmap string string) : Prop :=
  json_Unmarshal_request body = inr request
  ∧ ValidateDeployRequest request = None
  ∧ (r_Namespace request = "" ∨ r_Namespace request = defaultNamespace)
  ∧ defaultNamespace ≠ "kube-system"
  ∧ buildAnnotations request = inr annotations.

End Handler.

(** ** The replica policy, in the words of the specification

    "If a minimum is declared and an existing value is present, result
    is the maximum of the two; if only a minimum is declared, result
    is the minimum; if only an existing value is present, result is
    that value unchanged; if neither is present, result is unset." *)
Definition Resolve (min existing : option Z) : option Z :=
  match min, existing with
  | Some m, Some e => Some (Z.max m e)
  | Some m, None => Some m
  | None, Some e => Some e
  | None, None => None
  end.

(** ** A reference instance of the collaborators

    An in-memory API server with optimistic concurrency on
    [ResourceVersion], a secrets resolver over the two secrets of the
    test suites (it answers with the secrets of the namespace), and
    simple stand-ins for the parsers. *)
Module Reference.

#[export] Instance payload : Payload := {|
  ResourceRequirements := option FunctionResources * option FunctionResources;
  defaultResources := (None, None);
  Probe := unit;
  Placement := list string;
  noPlacement := []
|}.

Definition LabelMinReplicas : string := "com.openfaas.scale.min-replicas".

(** Modelled from the spec: getMinReplicaCount is not under src.  The
    declared minimum is "parsed from a label value", and "malformed
    minimum-label values are treated as absent". *)
Definition minReplicaCount (labels : gmap string string) : option Z :=
  match labels !! LabelMinReplicas with
  | Some value =>
      match NilEmpty.uint_of_string value with
      | Some u => Some (Z.of_N (N.of_uint u))
      | None => None
      end
  | None => None
  end.

(** Modelled from the spec: getReplicas is not under src; this is the
    replica policy rule of the spec, over the minimum label and the
    replica count of the existing workload. *)
Definition resolveReplicas (function : Function) (existing : option StatefulSet) : option Z :=
  Resolve (fs_Labels (Spec function) ≫= minReplicaCount) (existing ≫= Replicas).

Definition existingSecrets : gmap string Secret :=
  <["pullsecret" := mkSecret PullSecret []]>
    (<["testsecret" := mkSecret GenericSecret ["filename"]]> ∅).

Definition emptySpec : FunctionSpec :=
  mkFunctionSpec "" "" "" None None None None None None None false.

(** A stand-in decoder that knows two spellings of the empty object. *)
Definition Unmarshal (s : string) : error + FunctionSpec :=
  if bool_decide (s = "{}") then inr emptySpec
  else if bool_decide (s = "{ }") then inr emptySpec
  else inl (ErrorNew "invalid character").

(** A stand-in quantity parser that rejects one memory limit. *)
Definition parse (limits requests : option FunctionResources)
    : error + (option FunctionResources * option FunctionResources) :=
  if bool_decide (limits = Some (mkFunctionResources "1Zi" ""))
  then inl (ErrorNew "quantities must match the regular expression")
  else inr (limits, requests).

Definition key (ns name : string) : string := ns ++ "/" ++ name.

Definition bump (s : StatefulSet) : StatefulSet :=
  mkStatefulSet (Name s) (Namespace s) (ResourceVersion s + 1) (Annotations s)
    (OwnerReferences s) (Replicas s) (MaxUnavailable s) (Selector s)
    (RevisionHistoryLimit s) (Template s).

(** The write of the API server: refused with a conflict unless the
    object carries the stored resource version. *)
Definition apiUpdate (ns : string) (s : StatefulSet) (c : gmap string StatefulSet)
    : option error * gmap string StatefulSet :=
  match c !! key ns (Name s) with
  | None => (Some (StatusError ReasonNotFound (Name s)), c)
  | Some stored =>
      if bool_decide (ResourceVersion stored = ResourceVersion s)
      then (None, <[key ns (Name s) := bump s]> c)
      else (Some (StatusError ReasonConflict (Name s)), c)
  end.

Definition apiGet (ns name : string) (c : gmap string StatefulSet)
    : error + StatefulSet :=
  match c !! key ns name with
  | Some s => inr s
  | None => inl (StatusError ReasonNotFound name)
  end.

#[export] Instance collaborators : Collaborators := {|
  Cluster := gmap string StatefulSet;
  Get := apiGet;
  Update := apiUpdate;
  SetNonRootUser := true;
  secretsMountPath := "/var/openfaas/secrets";
  parseResources := parse;
  MakeProbes := λ _, (mkFunctionProbes None None, None);
  Profile := string;
  ProfilesNamespace := "openfaas";
  GetProfilesToRemove := λ _ _ _, ([], None);
  GetProfiles := λ _ _, ([], None);
  ApplyProfile := λ profile f, (profile :: f.1, f.2);
  RemoveProfile := λ profile f, (filter (λ x, x ≠ profile) f.1, f.2);
  ProfileAnnotationKey := "com.openfaas.profile";
  GetSecrets := λ _ _, inr existingSecrets;
  json_Marshal := λ _, inr "{}";
  json_Unmarshal := Unmarshal;
  getReplicas := resolveReplicas;
  getMinReplicaCount := minReplicaCount;
  buildEnvVars := λ _, [];
  createSelector := λ _, ∅;
  MaxReplicas := 5;
  functionPort := 8080
|}.

(** The workload of the test suites: one container, nothing else. *)
Definition basicContainer : Container :=
  mkContainer "testfunc" "alpine:latest" None PullDefault [] (None, None)
    None None None [].

Definition workload (replicas : option Z) (labels : gmap string string)
    (cs : list Container) (vs : list Volume) : StatefulSet :=
  mkStatefulSet "testfunc" "openfaas-fn" 1 ∅ [] replicas None ∅ None
    (mkPodTemplateSpec labels ∅ (mkPodSpec ∅ cs vs [])).

Definition basicStatefulset : StatefulSet := workload None ∅ [basicContainer] [].

Definition world (c : gmap string StatefulSet) : World := mkWorld c [] [].

(** Inputs for the instances of the properties. *)

Definition markerLabels : gmap string string := {["faas_function" := "testfunc"]}.

Definition clusterWith (s : StatefulSet) : gmap string StatefulSet :=
  {[key "openfaas-fn" "testfunc" := s]}.

Definition testRequest (labels : option (gmap string string))
    (secrets : option (list string)) (limits : option FunctionResources)
    (readOnly : bool) : FunctionDeployment :=
  mkFunctionDeployment "testfunc" "alpine:latest" "openfaas-fn" "" None None
    secrets labels None limits None readOnly.

Definition testFunction (labels : option (gmap string string))
    (secrets : option (list string)) (limits : option FunctionResources) : Function :=
  mkFunction "testfunc" "openfaas-fn"
    (mkFunctionSpec "testfunc" "alpine:latest" "" None labels None None secrets
       limits None false).

(** A workload that already holds duplicated temp and secret volumes
    and mounts. *)
Definition corruptedStatefulset : StatefulSet :=
  workload None ∅
    [mkContainer "testfunc" "alpine:latest" None PullDefault [] (None, None)
       None None None
       [mkVolumeMount "temp" "/tmp" false; mkVolumeMount "temp" "/tmp" false;
        mkVolumeMount "testfunc-projected-secrets" "" false;
        mkVolumeMount "testfunc-projected-secrets" "" false]]
    [mkVolume "temp" EmptyDir; mkVolume "temp" EmptyDir;
     mkVolume "testfunc-projected-secrets" NoSource;
     mkVolume "testfunc-projected-secrets" NoSource].

Definition minTwo : gmap string string := {[LabelMinReplicas := "2"]}.

Definition badLimits : option FunctionResources := Some (mkFunctionResources "1Zi" "").

Definition parseError : error :=
  ErrorNew "quantities must match the regular expression".

Definition signed (json : string) : StatefulSet :=
  mkStatefulSet "testfunc" "openfaas-fn" 1 {[annotationFunctionSpec := json]} []
    None None ∅ None (mkPodTemplateSpec ∅ ∅ (mkPodSpec ∅ [basicContainer] [] [])).

(** An in-memory Services API, and stand-ins for the decoder, the
    validator and the annotation builder of the handler: a body reads
    "service", "service@namespace" or "service@namespace@memory-limit". *)
Definition at_sign : Ascii.ascii := Ascii.ascii_of_nat 64.

Definition decode (body : string) : error + FunctionDeployment :=
  match Split body at_sign with
  | [service] =>
      if bool_decide (service = "")
      then inl (ErrorNew "unexpected end of JSON input")
      else inr (mkFunctionDeployment service "alpine:latest" "" "" None None None
                  None None None None false)
  | [service; ns] =>
      inr (mkFunctionDeployment service "alpine:latest" ns "" None None None None
             None None None false)
  | [service; ns; memory] =>
      inr (mkFunctionDeployment service "alpine:latest" ns "" None None None None
             None (Some (mkFunctionResources memory "")) None false)
  | _ => inl (ErrorNew "invalid character")
  end.

Definition serviceGet (ns name : string) (c : gmap string (ServiceObject string))
    : error + ServiceObject string :=
  match c !! key ns name with
  | Some s => inr s
  | None => inl (StatusError ReasonNotFound name)
  end.

Definition serviceUpdate (ns : string) (s : ServiceObject string)
    (c : gmap string (ServiceObject string))
    : option error * gmap string (ServiceObject string) :=
  match c !! key ns (svc_Rest s) with
  | Some _ => (None, <[key ns (svc_Rest s) := s]> c)
  | None => (Some (StatusError ReasonNotFound (svc_Rest s)), c)
  end.

#[export] Instance frontend : Frontend := {|
  ServiceRest := string;
  ServiceStore := gmap string (ServiceObject string);
  GetService := serviceGet;
  UpdateService := serviceUpdate;
  json_Unmarshal_request := decode;
  ValidateDeployRequest := λ request,
    if bool_decide (Service request = "")
    then Some (ErrorNew "service: is required") else None;
  buildAnnotations := λ request, inr (default ∅ (r_Annotations request))
|}.

Definition servicesWith (name : string) : gmap string (ServiceObject string) :=
  {[key "openfaas-fn" name := mkServiceObject ∅ name]}.

Definition exchange (c : gmap string StatefulSet)
    (services : gmap string (ServiceObject string)) : Exchange :=
  mkExchange (world c) services [] [].

End Reference.

(** * Notions used in the statements *)

Section Notions.
Context `{Collaborators}.

Definition volumesNamed (name : string) (vs : list Volume) : list Volume :=
  filter (λ v, v_Name v = name) vs.

Definition mountsNamed (name : string) (ms : list VolumeMount) : list VolumeMount :=
  filter (λ m, m_Name m = name) ms.

(** An assignment to a field of the first container leaves the
    replica count, the labels, the annotations and the number of
    containers alone. *)
Definition meta (s s' : StatefulSet) : Prop :=
  Replicas s' = Replicas s
  ∧ t_Labels (Template s') = t_Labels (Template s)
  ∧ Annotations s' = Annotations s
  ∧ length (containers s') = length (containers s).

(** Worlds only grow: the cluster and the trace of writes are as they
    were, and log lines are only added. *)
Definition extends (w w' : World) : Prop :=
  cluster w' = cluster w ∧ updates w' = updates w ∧ logs w `prefix_of` logs w'.

(** What holds of a workload once the read-only root filesystem
    setting [flag] has been applied to it. *)
Definition temp_invariant (flag : bool) (s : StatefulSet) : Prop :=
  ∃ c0, containers s !! 0%nat = Some c0
    ∧ volumesNamed "temp" (volumes s) = (if flag then [tempVolume] else [])
    ∧ mountsNamed "temp" (VolumeMounts c0) = (if flag then [tempMount] else [])
    ∧ c_SecurityContext c0 ≫= ReadOnlyRootFilesystem = Some flag.

(** The update was written: one [Update] call with [s'], whose
    answer decides the result. *)
Definition written (ns : string) (s' : StatefulSet) (w w' : World)
    (r : option error * Z) : Prop :=
  updates w' = (updates w ++ [(ns, s')])%list
  ∧ cluster w' = (Update ns s' (cluster w)).2
  ∧ logs w' = logs w
  ∧ r = match (Update ns s' (cluster w)).1 with
        | Some e => (Some e, StatusInternalServerError)
        | None => (None, StatusAccepted)
        end.

(** The update was given up with [e]: no [Update] call, the cluster
    as it was. *)
Definition aborted (e : error) (status : Z) (w w' : World)
    (r : option error * Z) : Prop :=
  r = (Some e, status) ∧ extends w w'.

Definition updateLabels (nanosecond : Z) (request : FunctionDeployment)
    : gmap string string :=
  copy_into (r_Labels request)
    (<["uid" := fmt_d nanosecond]> (<["faas_function" := Service request]> ∅)).

(** The outcome of updateStatefulSetSpec, case by case in the order
    of its checks. *)
Definition update_post (nanosecond : Z) (ns : string) (request : FunctionDeployment)
    (annotations : gmap string string) (w : World)
    (r : option error * Z) (w' : World) : Prop :=
  match Get ns (Service request) (cluster w) with
  | inl e => aborted e StatusNotFound w w' r ∧ w' = w
  | inr s =>
      match containers s with
      | [] => written ns s w w' r
      | _ :: _ =>
          match createResources request with
          | inl e => aborted e StatusBadRequest w w' r ∧ w' = w
          | inr _ =>
              match GetSecrets ns (r_Secrets request) with
              | inl e => aborted e StatusBadRequest w w' r
              | inr existingSecrets =>
                  match secretProjections (elems (r_Secrets request)) existingSecrets with
                  | inl e => aborted e StatusBadRequest w w' r
                  | inr _ =>
                      match (MakeProbes request).2,
                            (GetProfilesToRemove ProfilesNamespace annotations
                               (Annotations s)).2,
                            (GetProfiles ProfilesNamespace annotations).2 with
                      | Some e, _, _ => aborted e StatusBadRequest w w' r
                      | None, Some e, _ => aborted e StatusBadRequest w w' r
                      | None, None, Some e => aborted e StatusBadRequest w w' r
                      | None, None, None =>
                          ∃ s', written ns s' w w' r
                            ∧ Replicas s'
                              = match r_Labels request ≫= getMinReplicaCount with
                                | Some min => Some min
                                | None => Replicas s
                                end
                            ∧ t_Labels (Template s') = updateLabels nanosecond request
                            ∧ Annotations s' = annotations
                      end
                  end
              end
          end
      end
  end.

(** What holds of a workload once the secrets [secrets] of [service]
    have been projected onto it. *)
Definition secrets_invariant (service : string) (secrets : option (list string))
    (s : StatefulSet) : Prop :=
  (elems secrets = [] →
     volumesNamed (secretsVolumeName service) (volumes s) = []
     ∧ ∀ c, c ∈ containers s →
            mountsNamed (secretsVolumeName service) (VolumeMounts c) = [])
  ∧ (elems secrets ≠ [] →
     (∃ sources, volumesNamed (secretsVolumeName service) (volumes s)
                 = [mkVolume (secretsVolumeName service) (Projected sources)])
     ∧ ∀ c, c ∈ containers s →
            mountsNamed (secretsVolumeName service) (VolumeMounts c)
            = [mkVolumeMount (secretsVolumeName service) secretsMountPath true]).

Definition marked (statefulset : StatefulSet) : Prop :=
  is_Some (t_Labels (Template statefulset) !! "faas_function").

(** The operations on volumes, mounts, security context and profiles
    leave the replica count, the pod labels, the annotations and
    every container's resources alone. *)
Definition frame (s s' : StatefulSet) : Prop :=
  Replicas s' = Replicas s
  ∧ t_Labels (Template s') = t_Labels (Template s)
  ∧ Annotations s' = Annotations s
  ∧ Resources <$> containers s' = Resources <$> containers s.

(** [wp m w Qn Qr]: run from [w], the body [m] does not panic; if it
    falls through with [a] in world [w'] then [Qn a w'], if it leaves
    through [return r] then [Qr r w']. *)
Definition wp {R A} (m : M R A) (w : World)
    (Qn : A → World → Prop) (Qr : R → World → Prop) : Prop :=
  match m w with
  | (Next a, w') => Qn a w'
  | (Return r, w') => Qr r w'
  | (Crash, _) => False
  end.

(** The corrective write that the scale guard owes a workload it
    observes, if any: the namespace it writes to and the clone it
    writes. *)
Definition correction (s : StatefulSet) : option (string * StatefulSet) :=
  match Replicas s with
  | Some current =>
      if bool_decide (is_Some (t_Labels (Template s) !! "faas_function")
                      ∧ (current = 0 ∨ current > MaxReplicas))
      then Some (Namespace s,
                 set_Replicas
                   (Some (int32 (if bool_decide (current = 0) then 1 else MaxReplicas)))
                   s)
      else None
  | None => None
  end.

(** The log line that a notification leaves: the error of the write,
    unless the write went through or was answered with a conflict. *)
Definition complaint (s : StatefulSet) (c : Cluster) : list LogEntry :=
  match correction s with
  | Some (ns, clone) =>
      match (Update ns clone c).1 with
      | Some err =>
          if IsConflict err then []
          else [mkLog LInfo ""
                  (Some (Errorf
                           ("error scaling " ++ Name s ++ " to "
                            ++ fmt_d (default 0 (Replicas clone)) ++ " replicas: ")
                           err))]
      | None => []
      end
  | None => []
  end.

(** The number of occurrences of a character in a string, and
    [strings.Join] for a one-character separator. *)
Fixpoint occurrences (sep : Ascii.ascii) (s : string) : nat :=
  match s with
  | EmptyString => 0
  | String c s' => (if Ascii.eqb c sep then 1 else 0) + occurrences sep s'
  end.

Fixpoint Join (parts : list string) (sep : Ascii.ascii) : string :=
  match parts with
  | [] => EmptyString
  | [p] => p
  | p :: rest => p ++ String sep (Join rest sep)
  end.

(** The annotations that makeAnnotations computes, as a value. *)
Definition annotationsOf (function : Function) : gmap string string :=
  let annotations :=
    copy_into (fs_Annotations (Spec function))
      (<["prometheus.io.scrape" := "false"]> ∅) in
  match json_Marshal (Spec function) with
  | inl _ => annotations
  | inr specJSON => <[annotationFunctionSpec := specJSON]> annotations
  end.

(** A workload without what profiles and the secret projection add:
    no volumes, no placement, no mounts. *)
Definition bare (c : Container) : Container := set_VolumeMounts [] c.

Definition skeleton (s : StatefulSet) : StatefulSet :=
  let p := t_Spec (Template s) in
  set_PodSpec (mkPodSpec (NodeSelector p) (bare <$> Containers p) [] noPlacement) s.

(** The security context that the two security operations leave on
    the container that newStatefulSet builds. *)
Definition synthesizedContext (function : Function) : SecurityContext :=
  mkSecurityContext (Some false)
    (Some (fs_ReadOnlyRootFilesystem (Spec function)))
    (if SetNonRootUser then Some SecurityContextUserID else None).

(** The skeleton of the workload that newStatefulSet builds. *)
Definition synthesized (function : Function) (existingStatefulSet : option StatefulSet)
    : StatefulSet :=
  let probes := (MakeProbes (functionToFunctionRequest function)).1 in
  mkStatefulSet (fs_Name (Spec function)) (f_Namespace function) 0
    (annotationsOf function) [f_Name function]
    (getReplicas function existingStatefulSet) (Some 0)
    (<["controller" := f_Name function]>
       (<["app" := fs_Name (Spec function)]> ∅))
    (Some 5)
    (mkPodTemplateSpec (makeLabels function) (annotationsOf function)
       (mkPodSpec (makeNodeSelector (Constraints (Spec function)))
          [mkContainer (fs_Name (Spec function)) (fs_Image (Spec function))
             (Some (int32 functionPort)) PullAlways (makeEnvVars function)
             (makeResources function).1 (Liveness probes) (Readiness probes)
             (Some (synthesizedContext function)) []]
          [] noPlacement)).

(** What the profiles of a function make of a pod-spec fragment:
    the ones to remove are removed, then the configured ones applied,
    as newStatefulSet does between the security operations and the
    secret projection. *)
Definition profiled (function : Function) (existingStatefulSet : option StatefulSet)
    (fragment : Placement * list Volume) : Placement * list Volume :=
  let annotations := annotationsOf function in
  let currentAnnotations : gmap string string :=
    match existingStatefulSet with
    | Some e => Annotations e
    | None => ∅
    end in
  range_apply ApplyProfile (GetProfiles ProfilesNamespace annotations).1
    (range_apply RemoveProfile
       (GetProfilesToRemove ProfilesNamespace annotations currentAnnotations).1
       fragment).

(** An assignment to the first container, where there is one. *)
Definition assign0 (f : Container → Container) (s : StatefulSet) : StatefulSet :=
  match containers s with
  | c0 :: _ => set_Container0 (f c0) s
  | [] => s
  end.

(** What the two security operations do to the security context of a
    container. *)
Definition readOnlyContext (flag : bool) (c : Container) : Container :=
  set_SecurityContext
    (Some match c_SecurityContext c with
          | Some sc => mkSecurityContext (AllowPrivilegeEscalation sc)
                         (Some flag) (RunAsUser sc)
          | None => mkSecurityContext None (Some flag) None
          end) c.

Definition userContext (c : Container) : Container :=
  let sc := default (mkSecurityContext None None None) (c_SecurityContext c) in
  set_SecurityContext
    (Some (mkSecurityContext (AllowPrivilegeEscalation sc) (ReadOnlyRootFilesystem sc)
             (if SetNonRootUser then Some SecurityContextUserID else None))) c.

(** The skeleton of the workload that updateStatefulSetSpec writes
    for a fetched workload [s], once [resources] and [probes] are
    there. *)
Definition updated (nanosecond : Z) (request : FunctionDeployment)
    (annotations : gmap string string) (resources : ResourceRequirements)
    (probes : FunctionProbes) (s : StatefulSet) : StatefulSet :=
  let s := assign0 (set_Image (r_Image request)) (skeleton s) in
  let s := assign0 (set_ImagePullPolicy PullAlways) s in
  let s := assign0 (set_Env (buildEnvVars request)) s in
  let s := assign0 (readOnlyContext (r_ReadOnlyRootFilesystem request)) s in
  let s := assign0 userContext s in
  let s := set_NodeSelector (createSelector (r_Constraints request)) s in
  let s := match r_Labels request ≫= getMinReplicaCount with
           | Some min => set_Replicas (Some min) s
           | None => s
           end in
  let s := set_TemplateLabels
             (copy_into (r_Labels request)
                (<["uid" := fmt_d nanosecond]>
                   (<["faas_function" := Service request]> ∅))) s in
  let s := set_TemplateAnnotations annotations (set_Annotations annotations s) in
  let s := assign0 (set_Resources resources) s in
  assign0 (set_Probes probes) s.

End Notions.

(** * Properties *)

Section Properties.
Context `{Collaborators}.

(** ** Volume helpers *)

Lemma volumesNamed_removeVolume name vs :
  volumesNamed name (removeVolume name vs) = [].
Proof.
  unfold volumesNamed, removeVolume.
  induction vs as [|v vs IH]; [done|].
  rewrite filter_cons. case_decide; [|done].
  rewrite filter_cons. case_decide; [congruence|done].
Qed.

Lemma mountsNamed_removeVolumeMount name ms :
  mountsNamed name (removeVolumeMount name ms) = [].
Proof.
  unfold mountsNamed, removeVolumeMount.
  induction ms as [|m ms IH]; [done|].
  rewrite filter_cons. case_decide; [|done].
  rewrite filter_cons. case_decide; [congruence|done].
Qed.

Lemma volumesNamed_app name vs ws :
  volumesNamed name (vs ++ ws) = (volumesNamed name vs ++ volumesNamed name ws)%list.
Proof. apply filter_app. Qed.

Lemma mountsNamed_app name ms ns :
  mountsNamed name (ms ++ ns) = (mountsNamed name ms ++ mountsNamed name ns)%list.
Proof. apply filter_app. Qed.

Lemma removeVolume_other name other vs :
  name ≠ other →
  volumesNamed other (removeVolume name vs) = volumesNamed other vs.
Proof.
  intros Hne. unfold volumesNamed, removeVolume.
  induction vs as [|v vs IH]; [done|].
  rewrite !filter_cons. repeat case_decide; try congruence.
  - rewrite filter_cons. case_decide; [|done]. by rewrite IH.
  - rewrite filter_cons. case_decide; [done|]. by rewrite IH.
Qed.

Lemma nonempty_length {A} (l l' : list A) :
  length l' = length l → l ≠ [] → l' ≠ [].
Proof. by destruct l, l'. Qed.

(** ** Frames *)

Lemma frame_refl s : frame s s.
Proof. done. Qed.

Lemma frame_trans s1 s2 s3 : frame s1 s2 → frame s2 s3 → frame s1 s3.
Proof. unfold frame. intros (?&?&?&?) (?&?&?&?). split_and!; congruence. Qed.

Lemma frame_length s s' : frame s s' → length (containers s') = length (containers s).
Proof.
  intros (_ & _ & _ & Hres).
  by rewrite <-(length_fmap Resources (containers s')), Hres, length_fmap.
Qed.

Lemma meta_trans s1 s2 s3 : meta s1 s2 → meta s2 s3 → meta s1 s3.
Proof. unfold meta. intros (?&?&?&?) (?&?&?&?). split_and!; congruence. Qed.

Lemma frame_meta s s' : frame s s' → meta s s'.
Proof. intros Hf. pose proof (frame_length _ _ Hf). by destruct Hf as (?&?&?&?). Qed.

Lemma meta_nonempty s s' : meta s s' → containers s ≠ [] → containers s' ≠ [].
Proof.
  intros (_&_&_&Hlen) Hne. destruct (containers s), (containers s'); done.
Qed.

Lemma frame_nonempty s s' : frame s s' → containers s ≠ [] → containers s' ≠ [].
Proof.
  intros Hf%frame_length Hne. destruct (containers s), (containers s'); done.
Qed.

Lemma extends_refl w : extends w w.
Proof. done. Qed.

Lemma extends_trans w1 w2 w3 : extends w1 w2 → extends w2 w3 → extends w1 w3.
Proof.
  unfold extends. intros (?&?&?) (?&?&?).
  split_and!; [congruence|congruence|by etrans].
Qed.

Lemma extends_log w l msg e :
  extends w (mkWorld (cluster w) (updates w) (logs w ++ [mkLog l msg e])).
Proof. split_and!; [done|done|]. by apply prefix_app_r. Qed.

Lemma extends_logged w w' x : extends w w' → x ∈ logs w → x ∈ logs w'.
Proof. intros (_ & _ & [k ->]) Hx. apply elem_of_app. by left. Qed.

(** ** The security policy *)

Lemma ConfigureReadOnlyRootFilesystem_invariant {R}
    (request : FunctionDeployment) (statefulset : StatefulSet) (w : World) :
  containers statefulset ≠ [] →
  ∃ s', ConfigureReadOnlyRootFilesystem (R:=R) request statefulset w = (Next s', w)
      ∧ length (containers s') = length (containers statefulset)
      ∧ temp_invariant (r_ReadOnlyRootFilesystem request) s'
      ∧ frame statefulset s'.
Proof.
  intros Hne.
  unfold ConfigureReadOnlyRootFilesystem, Containers0, bind.
  destruct (containers statefulset) as [|c0 cs] eqn:Hcs; [done|].
  simpl.
  destruct (r_ReadOnlyRootFilesystem request) eqn:Hflag; simpl;
    eexists; (split; [reflexivity|]);
    unfold temp_invariant, set_Container0, containers, volumes in *; simpl;
    rewrite Hcs; simpl; (split; [done|]);
    (split; [|unfold frame, containers; simpl; by rewrite Hcs]);
    eexists; (split; [reflexivity|]); simpl.
  - rewrite volumesNamed_app, mountsNamed_app,
      volumesNamed_removeVolume, mountsNamed_removeVolumeMount.
    split_and!; [done|done|]. by destruct (c_SecurityContext c0).
  - rewrite volumesNamed_removeVolume, mountsNamed_removeVolumeMount.
    split_and!; [done|done|]. by destruct (c_SecurityContext c0).
Qed.

Lemma ConfigureContainerUserID_defined {R} (statefulset : StatefulSet) (w : World) :
  containers statefulset ≠ [] →
  ∃ s', ConfigureContainerUserID (R:=R) statefulset w = (Next s', w)
      ∧ frame statefulset s'
      ∧ ∃ c0 c0', containers statefulset !! 0%nat = Some c0
          ∧ containers s' !! 0%nat = Some c0'
          ∧ (c_SecurityContext c0' ≫= RunAsUser)
            = (if SetNonRootUser then Some SecurityContextUserID else None).
Proof.
  intros Hne.
  unfold ConfigureContainerUserID, Containers0, bind.
  destruct (containers statefulset) as [|c0 cs] eqn:Hcs; [done|].
  simpl. eexists; split; [reflexivity|].
  unfold frame, set_Container0, containers in *; simpl. rewrite Hcs. simpl.
  split; [done|]. by exists c0; eexists.
Qed.

Lemma Containers0_empty {R} (statefulset : StatefulSet) (w : World) :
  containers statefulset = [] →
  Containers0 (R:=R) statefulset w = (Crash, w).
Proof. intros Hcs. unfold Containers0. by rewrite Hcs. Qed.

(** ** Reasoning about bodies in [M] *)

Lemma wp_bind {R A B} (m : M R A) (k : A → M R B) w Qn Qr :
  wp m w (λ a w', wp (k a) w' Qn Qr) Qr → wp (bind m k) w Qn Qr.
Proof. unfold wp, bind. by destruct (m w) as [[a|r|] w']. Qed.

Lemma wp_ret {R A} (a : A) w (Qn : A → World → Prop) (Qr : R → World → Prop) :
  Qn a w → wp (ret a) w Qn Qr.
Proof. done. Qed.

Lemma wp_return {R A} (r : R) w (Qn : A → World → Prop) (Qr : R → World → Prop) :
  Qr r w → wp (return_ r) w Qn Qr.
Proof. done. Qed.

Lemma wp_log {R} l msg e w (Qn : unit → World → Prop) (Qr : R → World → Prop) :
  Qn tt (mkWorld (cluster w) (updates w) (logs w ++ [mkLog l msg e])) →
  wp (log l msg e) w Qn Qr.
Proof. done. Qed.


Lemma wp_mono {R A} (m : M R A) w (Qn Qn' : A → World → Prop)
    (Qr Qr' : R → World → Prop) :
  wp m w Qn Qr →
  (∀ a w', Qn a w' → Qn' a w') → (∀ r w', Qr r w' → Qr' r w') →
  wp m w Qn' Qr'.
Proof. unfold wp. destruct (m w) as [[a|r|] w']; eauto. Qed.

Lemma wp_falls_through {R A} (m : M R A) w (Qn : A → World → Prop) :
  wp m w Qn (λ _ _, False) → ∃ a w', m w = (Next a, w') ∧ Qn a w'.
Proof. unfold wp. destruct (m w) as [[a|r|] w']; [by exists a, w'|done|done]. Qed.

Lemma wp_returns {R A} (m : M R A) w (Qr : R → World → Prop) :
  wp m w (λ _ _, False) Qr → ∃ r w', m w = (Return r, w') ∧ Qr r w'.
Proof. unfold wp. destruct (m w) as [[a|r|] w']; [done|by exists r, w'|done]. Qed.

Lemma wp_Containers0 {R} (s : StatefulSet) w
    (Qn : Container → World → Prop) (Qr : R → World → Prop) c0 cs :
  containers s = c0 :: cs → Qn c0 w → wp (Containers0 s) w Qn Qr.
Proof. intros Hcs HQ. unfold wp, Containers0. by rewrite Hcs. Qed.

Lemma wp_warn_if {R} e msg w (Qn : unit → World → Prop) (Qr : R → World → Prop) :
  (∀ w', extends w w' →
         (∀ err, e = Some err → mkLog LWarning msg (Some err) ∈ logs w') →
         Qn tt w') →
  wp (warn_if e msg) w Qn Qr.
Proof.
  intros HQ. destruct e as [err|]; [apply wp_log|apply wp_ret]; apply HQ.
  - apply extends_log.
  - intros ? [= <-]. simpl. apply elem_of_app. right. by apply list_elem_of_singleton.
  - done.
  - done.
Qed.

Lemma wp_ConfigureReadOnlyRootFilesystem {R} request (s : StatefulSet) w
    (Qn : StatefulSet → World → Prop) (Qr : R → World → Prop) :
  containers s ≠ [] →
  (∀ s', frame s s' →
         temp_invariant (r_ReadOnlyRootFilesystem request) s' → Qn s' w) →
  wp (ConfigureReadOnlyRootFilesystem request s) w Qn Qr.
Proof.
  intros Hne HQ.
  destruct (ConfigureReadOnlyRootFilesystem_invariant (R:=R) request s w Hne)
    as (s' & Heq & Hlen & Hinv & Hrep).
  unfold wp. rewrite Heq. by apply HQ.
Qed.

Lemma wp_ConfigureContainerUserID {R} (s : StatefulSet) w
    (Qn : StatefulSet → World → Prop) (Qr : R → World → Prop) :
  containers s ≠ [] →
  (∀ s', frame s s' → Qn s' w) →
  wp (ConfigureContainerUserID s) w Qn Qr.
Proof.
  intros Hne HQ.
  destruct (ConfigureContainerUserID_defined (R:=R) s w Hne)
    as (s' & Heq & Hframe & _).
  unfold wp. rewrite Heq. by apply HQ.
Qed.

Lemma wp_makeAnnotations {R} function w
    (Qn : gmap string string → World → Prop) (Qr : R → World → Prop) :
  (∀ annotations w', extends w w' → Qn annotations w') →
  wp (makeAnnotations function) w Qn Qr.
Proof.
  intros HQ. unfold makeAnnotations. destruct (json_Marshal _).
  - apply wp_bind, wp_log, wp_ret, HQ, extends_log.
  - by apply wp_ret, HQ.
Qed.

(** Profiles touch the placement and the volumes only. *)
Lemma frame_fragments (f : Profile → Placement * list Volume → Placement * list Volume)
    (profiles : list Profile) (s : StatefulSet) :
  frame s (range_apply (λ profile, set_Fragment (f profile)) profiles s)
  ∧ containers (range_apply (λ profile, set_Fragment (f profile)) profiles s)
    = containers s.
Proof.
  revert s. induction profiles as [|p ps IH]; intros s; [done|].
  unfold range_apply in *. simpl.
  destruct (IH (set_Fragment (f p) s)) as [Hf Hc].
  assert (frame s (set_Fragment (f p) s)
          ∧ containers (set_Fragment (f p) s) = containers s) as [Hf1 Hc1].
  { unfold set_Fragment. by destruct (f p _). }
  split; [by eapply frame_trans|congruence].
Qed.

(** The secret projection, spelled out in its two outcomes. *)
Lemma projectSecrets_miss service secrets (s : StatefulSet) existingSecrets e :
  secretProjections (elems secrets) existingSecrets = inl e →
  projectSecrets service secrets s existingSecrets = (Some e, s).
Proof. intros He. unfold projectSecrets. by rewrite He. Qed.

Lemma projectSecrets_frame service secrets (s : StatefulSet) existingSecrets :
  frame s (projectSecrets service secrets s existingSecrets).2.
Proof.
  unfold projectSecrets. destruct (secretProjections _ _); [done|].
  unfold frame, containers. simpl. split_and!; [done|done|done|].
  rewrite <-list_fmap_compose. by apply list_fmap_ext.
Qed.

Lemma projectSecrets_error service secrets (s : StatefulSet) existingSecrets :
  (projectSecrets service secrets s existingSecrets).1
  = match secretProjections (elems secrets) existingSecrets with
    | inl e => Some e
    | inr _ => None
    end.
Proof. unfold projectSecrets. by destruct (secretProjections _ _). Qed.

(** What synthesis establishes, whatever the collaborators report. *)
Lemma newStatefulSet_spec (function : Function)
    (existingStatefulSet : option StatefulSet)
    (existingSecrets : gmap string Secret) (w : World) :
  wp (newStatefulSet function existingStatefulSet existingSecrets) w
    (λ s w',
       extends w w'
       ∧ Replicas s = getReplicas function existingStatefulSet
       ∧ t_Labels (Template s) = makeLabels function
       ∧ Resources <$> containers s = [(makeResources function).1]
       ∧ (∀ e, (makeResources function).2 = Some e →
               mkLog LWarning "resources parsing failed" (Some e) ∈ logs w')
       ∧ (∀ e, secretProjections (elems (Secrets (Spec function))) existingSecrets
               = inl e →
               mkLog LWarning "secrets update failed" (Some e) ∈ logs w'))
    (λ _ _, False).
Proof.
  unfold newStatefulSet.
  destruct (MakeProbes _) as [probes e1].
  apply wp_bind, wp_warn_if; intros w1 Hw1 _.
  destruct (makeResources _) as [resources e2].
  apply wp_bind, wp_warn_if; intros w2 Hw2 Hlog2.
  apply wp_bind, wp_makeAnnotations; intros annotations w3 Hw3.
  match goal with
  | |- wp (bind (ConfigureReadOnlyRootFilesystem _ ?s) _) _ _ _ => set (s0 := s)
  end.
  apply wp_bind, wp_ConfigureReadOnlyRootFilesystem; [done|].
  intros s1 Hf1 _.
  apply wp_bind, wp_ConfigureContainerUserID; [by eapply frame_nonempty|].
  intros s2 Hf2.
  destruct (GetProfilesToRemove _ _ _) as [toRemove e3].
  apply wp_bind, wp_warn_if; intros w4 Hw4 _.
  apply wp_bind.
  eapply wp_mono with
    (Qn := λ _ w5, extends w4 w5) (Qr := λ _ _, False); [| |done].
  { unfold when. destruct (negb _); [apply wp_log, extends_log|by apply wp_ret]. }
  intros [] w5 Hw5.
  destruct (GetProfiles _ _) as [profiles e4].
  apply wp_bind, wp_warn_if; intros w6 Hw6 _.
  apply wp_bind, wp_log.
  match goal with
  | |- context [UpdateSecrets function ?s existingSecrets] => set (s3 := s)
  end.
  assert (frame s0 s3) as Hf3.
  { subst s3. eapply frame_trans; [|apply frame_fragments].
    eapply frame_trans; [|apply frame_fragments].
    by eapply frame_trans. }
  pose proof (projectSecrets_frame (fs_Name (Spec function))
                (Secrets (Spec function)) s3 existingSecrets) as Hf4.
  pose proof (projectSecrets_error (fs_Name (Spec function))
                (Secrets (Spec function)) s3 existingSecrets) as He5.
  fold (UpdateSecrets function s3 existingSecrets) in Hf4, He5.
  destruct (UpdateSecrets _ _ _) as [e5 s4]. simpl in Hf4, He5.
  apply wp_bind, wp_warn_if; intros w7 Hw7 Hlog7.
  apply wp_ret.
  assert (frame s0 s4) as (Hrep & Hlab & _ & Hres) by by eapply frame_trans.
  assert (extends w2 w7) as Hw27.
  { repeat (eapply extends_trans; [eassumption|]).
    eapply extends_trans; [apply extends_log|]. done. }
  split_and!; [| done | done | done | |].
  - eapply extends_trans; [exact Hw1|]. by eapply extends_trans.
  - intros e He. simpl in He. eapply extends_logged; [exact Hw27|]. by apply Hlog2.
  - intros e He. apply Hlog7. by rewrite He5, He.
Qed.

(** ** The update handler *)

Lemma wp_assign_Container0 {R} (f : Container → Container) (s : StatefulSet) w
    (Qn : StatefulSet → World → Prop) (Qr : R → World → Prop) :
  containers s ≠ [] →
  (∀ s', meta s s' → Qn s' w) →
  wp (assign_Container0 f s) w Qn Qr.
Proof.
  intros Hne HQ. unfold assign_Container0.
  destruct (containers s) as [|c0 cs] eqn:Hcs; [done|].
  apply wp_bind. eapply wp_Containers0; [exact Hcs|].
  apply wp_ret, HQ.
  unfold meta, set_Container0, containers in *. simpl. by rewrite Hcs.
Qed.

Lemma wp_written ns s' w Qn (r0 : option error * Z → World → Prop) :
  (∀ r w', written ns s' w w' r → r0 r w') →
  wp (R:=option error * Z) (A:=option error * Z)
    (bind (client_Update ns s')
       (λ updateErr,
          match updateErr with
          | Some updateErr => return_ (Some updateErr, StatusInternalServerError)
          | None => return_ (None, StatusAccepted)
          end)) w Qn r0.
Proof.
  intros HQ. unfold wp, bind, client_Update, return_.
  destruct (Update ns s' (cluster w)) as [[e|] c'] eqn:HU; simpl;
    apply HQ; unfold written; rewrite HU; done.
Qed.

Lemma updateStatefulSetSpec_spec (nanosecond : Z) (ns : string)
    (request : FunctionDeployment) (annotations : gmap string string) (w : World) :
  wp (updateStatefulSetSpec nanosecond ns request annotations) w
    (λ _ _, False) (update_post nanosecond ns request annotations w).
Proof.
  unfold updateStatefulSetSpec, update_post.
  apply wp_bind. unfold client_Get, wp at 1.
  destruct (Get ns (Service request) (cluster w)) as [e|s]; simpl.
  { by apply wp_return. }
  apply wp_bind. case_bool_decide as Hlen.
  2:{ apply wp_ret.
      destruct (containers s) as [|c0 cs] eqn:Hcs; [|simpl in Hlen; lia].
      apply wp_written. by intros. }
  assert (containers s ≠ []) as Hne.
  { intros Hcs. rewrite Hcs in Hlen. simpl in Hlen. lia. }
  destruct (containers s) as [|c0 cs] eqn:Hcs; [done|]. rewrite <-Hcs in Hne.
  apply wp_bind, wp_assign_Container0; [done|]. intros s1 Hm1.
  apply wp_bind, wp_assign_Container0; [by eapply meta_nonempty|]. intros s2 Hm2.
  assert (meta s s2) as Hm02 by by eapply meta_trans.
  apply wp_bind, wp_assign_Container0; [by eapply meta_nonempty|]. intros s3 Hm3.
  assert (meta s s3) as Hm03 by by eapply meta_trans.
  apply wp_bind, wp_ConfigureReadOnlyRootFilesystem; [by eapply meta_nonempty|].
  intros s4 Hm4%frame_meta _.
  assert (meta s s4) as Hm04 by by eapply meta_trans.
  apply wp_bind, wp_ConfigureContainerUserID; [by eapply meta_nonempty|].
  intros s5 Hm5%frame_meta.
  assert (meta s s5) as (Hrep5 & _ & Hann5 & Hlen5) by by eapply meta_trans.
  cbv zeta.
  set (s7 := match r_Labels request with
             | Some requestLabels =>
                 match getMinReplicaCount requestLabels with
                 | Some min => set_Replicas (Some min) (set_NodeSelector _ s5)
                 | None => set_NodeSelector _ s5
                 end
             | None => set_NodeSelector _ s5
             end).
  assert (Replicas s7 = match r_Labels request ≫= getMinReplicaCount with
                        | Some min => Some min
                        | None => Replicas s
                        end
          ∧ Annotations s7 = Annotations s
          ∧ length (containers s7) = length (containers s)) as (Hrep7 & Hann7 & Hlen7).
  { subst s7. destruct (r_Labels request) as [l|]; simpl;
      [destruct (getMinReplicaCount l)|]; simpl; done. }
  set (s10 := set_TemplateAnnotations annotations
                (set_Annotations annotations (set_TemplateLabels _ s7))).
  assert (Replicas s10 = Replicas s7
          ∧ t_Labels (Template s10) = updateLabels nanosecond request
          ∧ Annotations s10 = annotations
          ∧ length (containers s10) = length (containers s7))
    as (Hrep10 & Hlab10 & Hann10 & Hlen10) by done.
  rewrite Hann7.
  destruct (createResources request) as [e|resources].
  { by apply wp_return. }
  assert (containers s10 ≠ []) as Hne10.
  { intros Hcs10. rewrite Hcs10, Hlen7, Hcs in Hlen10. done. }
  apply wp_bind, wp_assign_Container0; [done|]. intros s11 Hm11.
  destruct (GetSecrets ns (r_Secrets request)) as [e|existingSecrets].
  { by apply wp_return. }
  pose proof (projectSecrets_frame (Service request) (r_Secrets request) s11
                existingSecrets) as Hf12%frame_meta.
  pose proof (projectSecrets_error (Service request) (r_Secrets request) s11
                existingSecrets) as He12.
  fold (ConfigureSecrets request s11 existingSecrets) in Hf12, He12.
  destruct (ConfigureSecrets request s11 existingSecrets) as [e12 s12].
  simpl in Hf12, He12.
  destruct (secretProjections _ _) as [e|sources]; subst e12.
  { apply wp_bind, wp_log, wp_return. split; [done|]. apply extends_log. }
  assert (meta s10 s12) as Hm12 by by eapply meta_trans.
  destruct (MakeProbes request) as [probes [e|]]; simpl.
  { by apply wp_return. }
  apply wp_bind, wp_assign_Container0; [by eapply meta_nonempty|]. intros s13 Hm13.
  destruct (GetProfilesToRemove _ _ _) as [toRemove [e|]]; simpl.
  { by apply wp_return. }
  destruct (GetProfiles _ _) as [profiles [e|]]; simpl.
  { by apply wp_return. }
  apply wp_ret, wp_written. intros r w' Hwritten.
  eexists. split; [exact Hwritten|].
  assert (meta s10 s13) as Hm1013 by by eapply meta_trans.
  match goal with
  | |- Replicas ?s = _ ∧ _ => assert (meta s10 s) as (Hr & Hl & Ha & _)
  end.
  { eapply meta_trans; [exact Hm1013|].
    eapply meta_trans; apply frame_meta, frame_fragments. }
  split_and!; congruence.
Qed.

(** ** The secret projection *)

Lemma secretProjections_covered (names : list string)
    (existingSecrets : gmap string Secret) :
  (∀ n, n ∈ names → is_Some (existingSecrets !! n)) →
  ∃ sources, secretProjections names existingSecrets = inr sources.
Proof.
  induction names as [|n names IH]; intros Hcov; simpl; [by eexists|].
  destruct (Hcov n) as [sec ->]; [by left|].
  destruct IH as [sources ->]; [intros; apply Hcov; by right|].
  destruct (Type_ sec); by eexists.
Qed.

Lemma secretProjections_miss (names : list string)
    (existingSecrets : gmap string Secret) n :
  n ∈ names → existingSecrets !! n = None →
  ∃ n', n' ∈ names ∧ existingSecrets !! n' = None
      ∧ secretProjections names existingSecrets = inl (NotFoundError n').
Proof.
  induction names as [|m names IH]; intros Hin Hnone; [by apply elem_of_nil in Hin|].
  simpl. destruct (existingSecrets !! m) as [sec|] eqn:Hm.
  - assert (n ∈ names) as Hin'.
    { apply elem_of_cons in Hin as [->|]; [congruence|done]. }
    destruct (IH Hin' Hnone) as (n' & Hn' & Hnone' & ->).
    exists n'. split_and!; [by right|done|done].
  - exists m. split_and!; [by left|done|done].
Qed.

Lemma projectSecrets_invariant service secrets (s : StatefulSet) existingSecrets :
  (∀ n, n ∈ elems secrets → is_Some (existingSecrets !! n)) →
  ∃ s', projectSecrets service secrets s existingSecrets = (None, s')
      ∧ secrets_invariant service secrets s'.
Proof.
  intros Hcov. unfold projectSecrets.
  destruct (secretProjections_covered _ _ Hcov) as [sources ->].
  eexists; split; [reflexivity|].
  unfold secrets_invariant, containers, volumes. simpl.
  case_bool_decide as Hempty; simpl.
  - split; [intros _|done]. split; [apply volumesNamed_removeVolume|].
    intros c (c' & -> & _)%list_elem_of_fmap. simpl.
    apply mountsNamed_removeVolumeMount.
  - split; [done|intros _]. split.
    + exists sources.
      rewrite volumesNamed_app, volumesNamed_removeVolume. simpl.
      unfold volumesNamed. rewrite filter_cons. simpl. by case_decide.
    + intros c (c' & -> & _)%list_elem_of_fmap. simpl.
      rewrite mountsNamed_app, mountsNamed_removeVolumeMount. simpl.
      unfold mountsNamed, secretsMount. rewrite filter_cons. simpl.
      by case_decide.
Qed.

(** C2.  For every service, requested secret list and resolved-secret
    mapping that covers the list, and whatever the workload held
    before (duplicated volumes and mounts of that name included),
    projecting the secrets succeeds and leaves exactly one volume named
    <service>-projected-secrets and, in every container, exactly one
    read-only mount of it at the secrets mount path when the list is
    not empty, and none of either when the list is empty or nil;
    projecting a second time with the same inputs leaves the same
    count. *)
Theorem projectSecrets_exactly_one service secrets (s : StatefulSet) existingSecrets :
  (∀ n, n ∈ elems secrets → is_Some (existingSecrets !! n)) →
  ∃ s1 s2,
    projectSecrets service secrets s existingSecrets = (None, s1)
    ∧ secrets_invariant service secrets s1
    ∧ projectSecrets service secrets s1 existingSecrets = (None, s2)
    ∧ secrets_invariant service secrets s2.
Proof.
  intros Hcov.
  destruct (projectSecrets_invariant service secrets s existingSecrets Hcov)
    as (s1 & Hs1 & Hinv1).
  destruct (projectSecrets_invariant service secrets s1 existingSecrets Hcov)
    as (s2 & Hs2 & Hinv2).
  by exists s1, s2.
Qed.

(** C4.  After ConfigureReadOnlyRootFilesystem, on a workload with at
    least one container and whatever it held before, the pod has
    exactly one volume named temp, backed by an EmptyDir, and the
    function container exactly one mount of it, at /tmp and
    read-write, when the request's flag is true, and neither when it
    is false; the container's ReadOnlyRootFilesystem equals the flag.
    This holds after each step of the sequence true, false, true. *)
Theorem ConfigureReadOnlyRootFilesystem_temp {R}
    (request : FunctionDeployment) (statefulset : StatefulSet) (w : World) :
  containers statefulset ≠ [] →
  (∃ s', ConfigureReadOnlyRootFilesystem (R:=R) request statefulset w = (Next s', w)
       ∧ temp_invariant (r_ReadOnlyRootFilesystem request) s')
  ∧ (∀ r1 r2 r3,
       r_ReadOnlyRootFilesystem r1 = true →
       r_ReadOnlyRootFilesystem r2 = false →
       r_ReadOnlyRootFilesystem r3 = true →
       ∃ s1 s2 s3,
         ConfigureReadOnlyRootFilesystem (R:=R) r1 statefulset w = (Next s1, w)
         ∧ temp_invariant true s1
         ∧ ConfigureReadOnlyRootFilesystem (R:=R) r2 s1 w = (Next s2, w)
         ∧ temp_invariant false s2
         ∧ ConfigureReadOnlyRootFilesystem (R:=R) r3 s2 w = (Next s3, w)
         ∧ temp_invariant true s3).
Proof.
  intros Hne. split.
  - destruct (ConfigureReadOnlyRootFilesystem_invariant (R:=R) request statefulset w Hne)
      as (s' & Heq & _ & Hinv & _). by exists s'.
  - intros r1 r2 r3 H1 H2 H3.
    destruct (ConfigureReadOnlyRootFilesystem_invariant (R:=R) r1 statefulset w Hne)
      as (s1 & Heq1 & Hlen1 & Hinv1 & _).
    assert (containers s1 ≠ []) as Hne1 by by eapply nonempty_length.
    destruct (ConfigureReadOnlyRootFilesystem_invariant (R:=R) r2 s1 w Hne1)
      as (s2 & Heq2 & Hlen2 & Hinv2 & _).
    assert (containers s2 ≠ []) as Hne2 by by eapply nonempty_length.
    destruct (ConfigureReadOnlyRootFilesystem_invariant (R:=R) r3 s2 w Hne2)
      as (s3 & Heq3 & _ & Hinv3 & _).
    rewrite H1 in Hinv1. rewrite H2 in Hinv2. rewrite H3 in Hinv3.
    by exists s1, s2, s3.
Qed.

(** C10.  ConfigureContainerUserID and ConfigureReadOnlyRootFilesystem
    read the first container without a check: on a workload with no
    container they panic, on one with at least one container they
    return.  The panic is not reachable from the two callers:
    newStatefulSet always returns, with exactly one container, and
    updateStatefulSetSpec, which calls them behind its guard on the
    number of containers, always returns. *)
Theorem Containers0_precondition :
  (∀ R request (s : StatefulSet) w,
     containers s = [] →
     ConfigureReadOnlyRootFilesystem (R:=R) request s w = (Crash, w)
     ∧ ConfigureContainerUserID (R:=R) s w = (Crash, w))
  ∧ (∀ R request (s : StatefulSet) w,
       containers s ≠ [] →
       ∃ s1 s2,
         ConfigureReadOnlyRootFilesystem (R:=R) request s w = (Next s1, w)
         ∧ ConfigureContainerUserID (R:=R) s w = (Next s2, w))
  ∧ (∀ function existingStatefulSet existingSecrets w,
       ∃ s w',
         newStatefulSet function existingStatefulSet existingSecrets w = (Next s, w')
         ∧ length (containers s) = 1%nat)
  ∧ (∀ nanosecond ns request annotations w,
       ∃ r w',
         updateStatefulSetSpec nanosecond ns request annotations w = (Return r, w')).
Proof.
  split_and!.
  - intros R request s w Hcs.
    unfold ConfigureReadOnlyRootFilesystem, ConfigureContainerUserID, bind.
    by rewrite !Containers0_empty.
  - intros R request s w Hne.
    destruct (ConfigureReadOnlyRootFilesystem_invariant (R:=R) request s w Hne)
      as (s1 & Heq1 & _).
    destruct (ConfigureContainerUserID_defined (R:=R) s w Hne) as (s2 & Heq2 & _).
    by exists s1, s2.
  - intros function existingStatefulSet existingSecrets w.
    destruct (wp_falls_through _ _ _
                (newStatefulSet_spec function existingStatefulSet existingSecrets w))
      as (s & w' & Heq & _ & _ & _ & Hres & _).
    exists s, w'. split; [done|].
    by rewrite <-(length_fmap Resources), Hres.
  - intros nanosecond ns request annotations w.
    destruct (wp_returns _ _ _
                (updateStatefulSetSpec_spec nanosecond ns request annotations w))
      as (r & w' & Heq & _).
    by exists r, w'.
Qed.

(** C7.  statefulsetNeedsUpdate answers true when the annotation
    com.openfaas.function.spec is absent or empty, true when it does
    not decode, and otherwise true exactly when the decoded spec
    differs structurally from the incoming one; two workloads whose
    stored signatures are spelled differently but decode to the
    incoming spec both answer false. *)
Theorem statefulsetNeedsUpdate_law {R} (function : Function) :
  (∀ (statefulset : StatefulSet) w,
     ∃ w', statefulsetNeedsUpdate (R:=R) function statefulset w
           = (Next match Annotations statefulset !! annotationFunctionSpec with
                   | None => true
                   | Some prevFnSpecJson =>
                       if bool_decide (prevFnSpecJson = "") then true
                       else match json_Unmarshal prevFnSpecJson with
                            | inl _ => true
                            | inr prevFnSpec =>
                                bool_decide (prevFnSpec ≠ Spec function)
                            end
                   end, w')
         ∧ extends w w')
  ∧ (∀ (s1 s2 : StatefulSet) j1 j2 w,
       Annotations s1 !! annotationFunctionSpec = Some j1 →
       Annotations s2 !! annotationFunctionSpec = Some j2 →
       j1 ≠ "" → j2 ≠ "" → j1 ≠ j2 →
       json_Unmarshal j1 = inr (Spec function) →
       json_Unmarshal j2 = inr (Spec function) →
       ∃ w1 w2,
         statefulsetNeedsUpdate (R:=R) function s1 w = (Next false, w1)
         ∧ statefulsetNeedsUpdate (R:=R) function s2 w = (Next false, w2)).
Proof.
  assert (∀ (statefulset : StatefulSet) w,
     ∃ w', statefulsetNeedsUpdate (R:=R) function statefulset w
           = (Next match Annotations statefulset !! annotationFunctionSpec with
                   | None => true
                   | Some prevFnSpecJson =>
                       if bool_decide (prevFnSpecJson = "") then true
                       else match json_Unmarshal prevFnSpecJson with
                            | inl _ => true
                            | inr prevFnSpec =>
                                bool_decide (prevFnSpec ≠ Spec function)
                            end
                   end, w')
         ∧ extends w w') as Hlaw.
  { intros statefulset w. unfold statefulsetNeedsUpdate.
    destruct (Annotations statefulset !! annotationFunctionSpec) as [j|]; simpl;
      [|by exists w].
    case_bool_decide; [by exists w|].
    destruct (json_Unmarshal j) as [e|prev].
    - eexists. split; [reflexivity|apply extends_log].
    - case_bool_decide; (eexists; split; [reflexivity|apply extends_log]). }
  split; [exact Hlaw|].
  intros s1 s2 j1 j2 w H1 H2 Hj1 Hj2 _ Hd1 Hd2.
  destruct (Hlaw s1 w) as (w1 & Heq1 & _). destruct (Hlaw s2 w) as (w2 & Heq2 & _).
  rewrite H1, Hd1 in Heq1. rewrite H2, Hd2 in Heq2.
  rewrite (bool_decide_eq_false_2 (j1 = "")) in Heq1 by done.
  rewrite (bool_decide_eq_false_2 (j2 = "")) in Heq2 by done.
  rewrite (bool_decide_eq_false_2 (Spec function ≠ Spec function)) in Heq1, Heq2
    by (intros Hn; by apply Hn).
  by exists w1, w2.
Qed.

(** ** The scale guard *)

(** applyValidation as one expression: its decision, its single
    write, and what it makes of the answer. *)
Lemma applyValidation_unfold (statefulset : StatefulSet) (w : World) :
  applyValidation statefulset w
  = match Replicas statefulset with
    | None => (Return None, w)
    | Some current =>
        if bool_decide (is_Some (t_Labels (Template statefulset) !! "faas_function"))
        then
          if bool_decide (current = 0 ∨ current > MaxReplicas) then
            let value := int32 (if bool_decide (current = 0) then 1 else MaxReplicas) in
            let clone := set_Replicas (Some value) statefulset in
            let answer := Update (Namespace statefulset) clone (cluster w) in
            (Return match answer.1 with
                    | Some err =>
                        if IsConflict err then None
                        else Some (Errorf
                                     ("error scaling " ++ Name statefulset ++ " to "
                                      ++ fmt_d value ++ " replicas: ") err)
                    | None => None
                    end,
             mkWorld answer.2
               (updates w ++ [(Namespace statefulset, clone)]) (logs w))
          else (Return None, w)
        else (Return None, w)
    end.
Proof.
  unfold applyValidation, bind, client_Update, return_, ret.
  destruct (Replicas statefulset) as [current|]; [|done].
  case_bool_decide as Hmarked; simpl; [|done].
  case_bool_decide as Hzero; simpl.
  - rewrite bool_decide_eq_true_2 by by left. simpl.
    destruct (Update _ _ _) as [[err|] c']; simpl; [|done].
    by destruct (IsConflict err).
  - case_bool_decide as Hmax; simpl.
    + rewrite bool_decide_eq_true_2 by by right. simpl.
      destruct (Update _ _ _) as [[err|] c']; simpl; [|done].
      by destruct (IsConflict err).
    + rewrite bool_decide_eq_false_2 by (intros [?|?]; done). done.
Qed.

Lemma int32_id (n : Z) : - 2 ^ 31 ≤ n < 2 ^ 31 → int32 n = n.
Proof. intros Hn. unfold int32. rewrite Z.mod_small; lia. Qed.

Lemma validate_ignored {R} (statefulset : StatefulSet) (w : World) :
  applyValidation statefulset w = (Return None, w) →
  validate (R:=R) statefulset w = (Next tt, w).
Proof. intros Heq. unfold validate, bind, call. by rewrite Heq. Qed.

(** One notification: the correction owed, if any, is written, and a
    failure other than a conflict is logged. *)
Lemma validate_step {R} (s : StatefulSet) (w : World) :
  ∃ w', validate (R:=R) s w = (Next tt, w')
      ∧ updates w' = (updates w ++ option_list (correction s))%list
      ∧ logs w' = (logs w ++ complaint s (cluster w))%list
      ∧ cluster w' = match correction s with
                     | Some (ns, clone) => (Update ns clone (cluster w)).2
                     | None => cluster w
                     end.
Proof.
  unfold validate, bind, call, log, ret. rewrite applyValidation_unfold.
  unfold correction, complaint, correction.
  destruct (Replicas s) as [current|]; simpl.
  2:{ exists w. by rewrite !app_nil_r. }
  case_bool_decide as Hmarked; simpl.
  2:{ rewrite (bool_decide_eq_false_2 (_ ∧ _)) by (by intros [? _]). simpl.
      exists w. by rewrite !app_nil_r. }
  case_bool_decide as Hout; simpl.
  2:{ rewrite (bool_decide_eq_false_2 (_ ∧ _)) by (by intros [_ ?]). simpl.
      exists w. by rewrite !app_nil_r. }
  rewrite (bool_decide_eq_true_2 (_ ∧ _)) by (by split). simpl.
  destruct (Update _ _ _) as [[err|] c'] eqn:HU; simpl.
  - destruct (IsConflict err); simpl; eexists; split_and!; try reflexivity;
      simpl; by rewrite ?app_nil_r.
  - eexists; split_and!; try reflexivity; simpl; by rewrite ?app_nil_r.
Qed.

(** The start-up pass writes the corrections owed to the listed
    workloads, in list order, and nothing else. *)
Lemma range_validate_sweep {R} (list : list StatefulSet) (w : World) :
  ∃ w', range_validate (R:=R) list w = (Next tt, w')
      ∧ updates w' = (updates w ++ omap correction list)%list.
Proof.
  revert w. induction list as [|s list IH]; intros w; simpl.
  - exists w. by rewrite app_nil_r.
  - unfold bind. destruct (validate_step (R:=R) s w) as (w1 & -> & Hup1 & _).
    destruct (IH w1) as (w' & -> & Hup'). exists w'. split; [done|].
    rewrite Hup', Hup1, <-app_assoc. f_equal.
    by destruct (correction s).
Qed.

Lemma correction_ignored (s : StatefulSet) :
  Replicas s = None ∨ ¬ marked s → correction s = None.
Proof.
  intros [Hnil|Hunmarked]; unfold correction.
  - by rewrite Hnil.
  - destruct (Replicas s); [|done].
    by rewrite bool_decide_eq_false_2 by (by intros [? _]).
Qed.

(** C3.  With a ceiling that is a non-negative 32-bit constant: a
    workload that carries the faas_function label and a replica count
    gets one write that sets the count to 1 when it is 0, one write
    that sets it to the ceiling when it is above the ceiling, and no
    write when it is between 1 and the ceiling; a workload without the
    label, or with a nil count, gets no write, whatever its count.
    The start-up pass over any list, function workloads and others
    mixed, writes exactly the corrections owed to the listed
    workloads, in list order; a listed workload without the label or
    with a nil count is owed none, so the pass never writes to it, and
    a pass over a list of such workloads leaves the world as it was. *)
Theorem applyValidation_law (statefulset : StatefulSet) (w : World) :
  0 ≤ MaxReplicas < 2 ^ 31 →
  (∀ current,
     Replicas statefulset = Some current → marked statefulset →
     (current = 0 →
        ∃ r w', applyValidation statefulset w = (Return r, w')
          ∧ updates w' = (updates w
                          ++ [(Namespace statefulset,
                               set_Replicas (Some 1) statefulset)])%list)
     ∧ (current > MaxReplicas →
        ∃ r w', applyValidation statefulset w = (Return r, w')
          ∧ updates w' = (updates w
                          ++ [(Namespace statefulset,
                               set_Replicas (Some MaxReplicas) statefulset)])%list)
     ∧ (1 ≤ current ≤ MaxReplicas →
        applyValidation statefulset w = (Return None, w)))
  ∧ (Replicas statefulset = None ∨ ¬ marked statefulset →
     applyValidation statefulset w = (Return None, w))
  ∧ (∀ list,
       (∀ s, s ∈ list → Replicas s = None ∨ ¬ marked s) →
       RegisterEventHandlers (inr list) w = (Next tt, w))
  ∧ (∀ list : list StatefulSet,
       ∃ w', RegisterEventHandlers (inr list) w = (Next tt, w')
           ∧ updates w' = (updates w ++ omap correction list)%list
           ∧ (∀ s, s ∈ list → Replicas s = None ∨ ¬ marked s →
                   correction s = None)
           ∧ (∀ ns clone, (ns, clone) ∈ omap correction list →
                ∃ s current,
                  s ∈ list ∧ marked s ∧ Replicas s = Some current
                  ∧ (current = 0 ∨ current > MaxReplicas)
                  ∧ ns = Namespace s
                  ∧ clone = set_Replicas
                              (Some (if bool_decide (current = 0) then 1
                                     else MaxReplicas)) s)).
Proof.
  intros Hmax. split_and!.
  - intros current Hrep Hmarked. split_and!.
    + intros ->. rewrite applyValidation_unfold, Hrep.
      rewrite bool_decide_eq_true_2 by done.
      rewrite bool_decide_eq_true_2 by by left.
      rewrite bool_decide_eq_true_2 by done. simpl.
      do 2 eexists. split; [reflexivity|]. done.
    + intros Habove. rewrite applyValidation_unfold, Hrep.
      rewrite bool_decide_eq_true_2 by done.
      rewrite bool_decide_eq_true_2 by by right.
      rewrite bool_decide_eq_false_2 by lia. simpl.
      do 2 eexists. split; [reflexivity|]. simpl.
      rewrite int32_id by lia. done.
    + intros Hin. rewrite applyValidation_unfold, Hrep.
      rewrite bool_decide_eq_true_2 by done.
      by rewrite bool_decide_eq_false_2 by lia.
  - intros [Hnil|Hunmarked]; rewrite applyValidation_unfold.
    + by rewrite Hnil.
    + destruct (Replicas statefulset); [|done].
      by rewrite bool_decide_eq_false_2 by done.
  - intros list Hall. unfold RegisterEventHandlers.
    induction list as [|s list IH]; [done|].
    simpl. unfold bind. rewrite validate_ignored.
    + apply IH. intros s' Hs'. apply Hall. by right.
    + rewrite applyValidation_unfold.
      destruct (Hall s) as [Hnil|Hunmarked]; [by left| |].
      * by rewrite Hnil.
      * destruct (Replicas s); [|done].
        by rewrite bool_decide_eq_false_2 by done.
  - intros list.
    destruct (range_validate_sweep (R:=unit) list w) as (w' & Heq & Hup).
    exists w'. split_and!; [exact Heq|exact Hup| |].
    + intros s _. apply correction_ignored.
    + intros ns clone Hin.
      apply list_elem_of_omap in Hin as (s & Hs & Hc).
      unfold correction in Hc.
      destruct (Replicas s) as [current|] eqn:Hrep; [|done].
      case_bool_decide as Hdue; [|done].
      destruct Hdue as [Hmarked Hout].
      injection Hc as <- <-.
      exists s, current. split_and!; [done|done|done|done|done|].
      f_equal. f_equal. case_bool_decide; rewrite int32_id; lia.
Qed.

(** C8.  When the corrective write of applyValidation is answered
    with an error: a version conflict makes it return no error after
    that one write, with no second attempt; any other error is
    returned, wrapped in the scaling message. *)
Theorem applyValidation_conflict (statefulset : StatefulSet) (w : World)
    (current : Z) (err : error) :
  Replicas statefulset = Some current →
  marked statefulset →
  current = 0 ∨ current > MaxReplicas →
  let value := int32 (if bool_decide (current = 0) then 1 else MaxReplicas) in
  let clone := set_Replicas (Some value) statefulset in
  (Update (Namespace statefulset) clone (cluster w)).1 = Some err →
  ∃ w', updates w' = (updates w ++ [(Namespace statefulset, clone)])%list
      ∧ cluster w' = (Update (Namespace statefulset) clone (cluster w)).2
      ∧ (IsConflict err = true →
         applyValidation statefulset w = (Return None, w'))
      ∧ (IsConflict err = false →
         applyValidation statefulset w
         = (Return (Some (Errorf ("error scaling " ++ Name statefulset ++ " to "
                                  ++ fmt_d value ++ " replicas: ") err)), w')).
Proof.
  intros Hrep Hmarked Hout value clone Herr.
  rewrite applyValidation_unfold, Hrep.
  rewrite bool_decide_eq_true_2 by done.
  rewrite bool_decide_eq_true_2 by done. simpl.
  fold value. fold clone. rewrite Herr.
  eexists. split_and!; [| |intros ->; reflexivity|intros ->; reflexivity]; done.
Qed.

(** ** Consequences for the two reconcile paths *)

Lemma updateStatefulSetSpec_returns (nanosecond : Z) (ns : string)
    (request : FunctionDeployment) (annotations : gmap string string) (w : World) :
  ∃ r w', updateStatefulSetSpec nanosecond ns request annotations w = (Return r, w')
        ∧ update_post nanosecond ns request annotations w r w'.
Proof. apply wp_returns, updateStatefulSetSpec_spec. Qed.

Lemma written_not_aborted ns s' w w' r :
  written ns s' w w' r → updates w' = (updates w ++ [(ns, s')])%list.
Proof. by intros (? & _). Qed.

(** What the update handler persists, when it gets as far as its
    write, on a workload with at least one container. *)
Lemma updateStatefulSetSpec_persists (nanosecond : Z) (ns : string)
    (request : FunctionDeployment) (annotations : gmap string string)
    (w : World) (s : StatefulSet) :
  Get ns (Service request) (cluster w) = inr s →
  containers s ≠ [] →
  ∃ r w',
    updateStatefulSetSpec nanosecond ns request annotations w = (Return r, w')
    ∧ ((∃ e status, r = (Some e, status) ∧ extends w w')
       ∨ ∃ s', updates w' = (updates w ++ [(ns, s')])%list
             ∧ Replicas s'
               = match r_Labels request ≫= getMinReplicaCount with
                 | Some min => Some min
                 | None => Replicas s
                 end
             ∧ t_Labels (Template s') = updateLabels nanosecond request).
Proof.
  intros HGet Hne.
  destruct (updateStatefulSetSpec_returns nanosecond ns request annotations w)
    as (r & w' & Heq & Hpost).
  exists r, w'. split; [done|].
  unfold update_post in Hpost. rewrite HGet in Hpost.
  destruct (containers s) as [|c0 cs]; [done|].
  destruct (createResources request); [left; destruct Hpost as [[-> ?] _]; eauto|].
  destruct (GetSecrets _ _); [left; destruct Hpost as [-> ?]; eauto|].
  destruct (secretProjections _ _); [left; destruct Hpost as [-> ?]; eauto|].
  destruct (MakeProbes request).2; [left; destruct Hpost as [-> ?]; eauto|].
  destruct (GetProfilesToRemove _ _ _).2; [left; destruct Hpost as [-> ?]; eauto|].
  destruct (GetProfiles _ _).2; [left; destruct Hpost as [-> ?]; eauto|].
  destruct Hpost as (s' & Hw & Hrep & Hlab & _).
  right. exists s'. split_and!; [by eapply written_not_aborted|done|done].
Qed.

(** C1, as amended.  On the update path, for an existing workload
    with at least one container, updateStatefulSetSpec either returns
    an error without a write or writes a workload whose replica count
    is the
    declared minimum whenever the request labels declare one, whatever
    the existing count, and the existing count unchanged (nil
    included) otherwise.  On the synthesis path newStatefulSet returns
    a workload whose replica count is what getReplicas computes from
    the function and the existing workload. *)
Theorem replica_policy_by_path :
  (∀ nanosecond ns request annotations w (s : StatefulSet),
     Get ns (Service request) (cluster w) = inr s →
     containers s ≠ [] →
     ∃ r w',
       updateStatefulSetSpec nanosecond ns request annotations w = (Return r, w')
       ∧ ((∃ e status, r = (Some e, status) ∧ extends w w')
          ∨ ∃ s', updates w' = (updates w ++ [(ns, s')])%list
                ∧ Replicas s'
                  = match r_Labels request ≫= getMinReplicaCount with
                    | Some min => Some min
                    | None => Replicas s
                    end))
  ∧ (∀ function existingStatefulSet existingSecrets w,
       ∃ s w',
         newStatefulSet function existingStatefulSet existingSecrets w = (Next s, w')
         ∧ Replicas s = getReplicas function existingStatefulSet).
Proof.
  split.
  - intros nanosecond ns request annotations w s HGet Hne.
    destruct (updateStatefulSetSpec_persists nanosecond ns request annotations w s
                HGet Hne) as (r & w' & Heq & [Hab|(s' & Hup & Hrep & _)]).
    + exists r, w'. split; [done|by left].
    + exists r, w'. split; [done|]. right. by exists s'.
  - intros function existingStatefulSet existingSecrets w.
    destruct (wp_falls_through _ _ _
                (newStatefulSet_spec function existingStatefulSet existingSecrets w))
      as (s & w' & Heq & _ & Hrep & _).
    by exists s, w'.
Qed.

(** C9, as amended.  The workload that newStatefulSet returns carries
    the labels of makeLabels: faas_function, app and controller are
    always present, and a uid label only if the spec's own labels
    supply one; they are a function of the Function alone.  The
    timestamp-derived uid label belongs to the update path: what
    updateStatefulSetSpec writes carries faas_function and a uid that
    is the decimal nanosecond reading unless the request labels
    override it. *)
Theorem labels_by_path :
  (∀ function existingStatefulSet existingSecrets w,
     ∃ s w',
       newStatefulSet function existingStatefulSet existingSecrets w = (Next s, w')
       ∧ t_Labels (Template s) = makeLabels function
       ∧ is_Some (t_Labels (Template s) !! "faas_function")
       ∧ is_Some (t_Labels (Template s) !! "app")
       ∧ is_Some (t_Labels (Template s) !! "controller")
       ∧ t_Labels (Template s) !! "uid" = fs_Labels (Spec function) ≫= (.!! "uid"))
  ∧ (∀ nanosecond request,
       is_Some (updateLabels nanosecond request !! "faas_function")
       ∧ updateLabels nanosecond request !! "uid"
         = Some (default (fmt_d nanosecond) (r_Labels request ≫= (.!! "uid"))))
  ∧ (∀ nanosecond ns request annotations w (s : StatefulSet),
       Get ns (Service request) (cluster w) = inr s →
       containers s ≠ [] →
       ∃ r w',
         updateStatefulSetSpec nanosecond ns request annotations w = (Return r, w')
         ∧ ((∃ e status, r = (Some e, status) ∧ extends w w')
            ∨ ∃ s', updates w' = (updates w ++ [(ns, s')])%list
                  ∧ t_Labels (Template s') = updateLabels nanosecond request)).
Proof.
  split_and!.
  - intros function existingStatefulSet existingSecrets w.
    destruct (wp_falls_through _ _ _
                (newStatefulSet_spec function existingStatefulSet existingSecrets w))
      as (s & w' & Heq & _ & _ & Hlab & _).
    exists s, w'. split; [done|]. split; [done|]. rewrite Hlab.
    unfold makeLabels, copy_into.
    destruct (fs_Labels (Spec function)) as [l|]; simpl.
    + split_and!; try (apply lookup_union_is_Some; right; by simplify_map_eq).
      by apply lookup_union_l.
    + split_and!; by simplify_map_eq.
  - intros nanosecond request. unfold updateLabels, copy_into.
    destruct (r_Labels request) as [l|]; simpl.
    + split; [apply lookup_union_is_Some; right; by simplify_map_eq|].
      rewrite lookup_union. destruct (l !! "uid"); by simplify_map_eq.
    + split; by simplify_map_eq.
  - intros nanosecond ns request annotations w s HGet Hne.
    destruct (updateStatefulSetSpec_persists nanosecond ns request annotations w s
                HGet Hne) as (r & w' & Heq & [Hab|(s' & Hup & _ & Hlab)]).
    + exists r, w'. split; [done|by left].
    + exists r, w'. split; [done|]. right. by exists s'.
Qed.

End Properties.

(** * Further properties of the code *)

Section Coverage.
Context `{Collaborators}.

(** ** pkg/k8s/securityContext.go *)

Lemma removeVolume_idem name (vs extra : list Volume) :
  (∀ v, v ∈ extra → v_Name v = name) →
  removeVolume name (removeVolume name vs ++ extra) = removeVolume name vs.
Proof.
  intros Hextra. unfold removeVolume. rewrite filter_app, list_filter_filter.
  rewrite (list_filter_iff _ (λ v, v_Name v ≠ name)) by (intros ?; tauto).
  replace (filter (λ v, v_Name v ≠ name) extra) with (@nil Volume);
    [by rewrite app_nil_r|].
  symmetry. induction extra as [|v extra IH]; [done|].
  rewrite filter_cons. case_decide as Hv.
  - exfalso. apply Hv, Hextra. by left.
  - apply IH. intros v' Hv'. apply Hextra. by right.
Qed.

Lemma removeVolumeMount_idem name (ms extra : list VolumeMount) :
  (∀ m, m ∈ extra → m_Name m = name) →
  removeVolumeMount name (removeVolumeMount name ms ++ extra)
  = removeVolumeMount name ms.
Proof.
  intros Hextra. unfold removeVolumeMount. rewrite filter_app, list_filter_filter.
  rewrite (list_filter_iff _ (λ m, m_Name m ≠ name)) by (intros ?; tauto).
  replace (filter (λ m, m_Name m ≠ name) extra) with (@nil VolumeMount);
    [by rewrite app_nil_r|].
  symmetry. induction extra as [|m extra IH]; [done|].
  rewrite filter_cons. case_decide as Hm.
  - exfalso. apply Hm, Hextra. by left.
  - apply IH. intros m' Hm'. apply Hextra. by right.
Qed.

Lemma only_tempVolume v : v ∈ [tempVolume] → v_Name v = "temp".
Proof. by intros ->%list_elem_of_singleton. Qed.

Lemma only_tempMount m : m ∈ [tempMount] → m_Name m = "temp".
Proof. by intros ->%list_elem_of_singleton. Qed.

(** X1.  ConfigureReadOnlyRootFilesystem is idempotent on the whole
    workload: applied a second time with the same request it returns
    the workload it was given. *)
Theorem ConfigureReadOnlyRootFilesystem_idempotent {R}
    (request : FunctionDeployment) (s s1 : StatefulSet) (w : World) :
  ConfigureReadOnlyRootFilesystem (R:=R) request s w = (Next s1, w) →
  ConfigureReadOnlyRootFilesystem (R:=R) request s1 w = (Next s1, w).
Proof.
  destruct s as [n ns rv an ow rp mu sel rh [tl ta [nsel cs vols pl]]].
  unfold ConfigureReadOnlyRootFilesystem, Containers0, bind, ret,
    set_Volumes, set_Container0, set_Containers, set_PodSpec, set_VolumeMounts,
    set_SecurityContext, containers, volumes.
  simpl. destruct cs as [|c0 cs]; [done|]. simpl.
  destruct (r_ReadOnlyRootFilesystem request) eqn:Hflag; simpl;
    intros [= <-]; simpl.
  - rewrite (removeVolume_idem "temp" vols [tempVolume] only_tempVolume).
    rewrite (removeVolumeMount_idem "temp" (VolumeMounts c0) [tempMount]
               only_tempMount).
    by destruct (c_SecurityContext c0).
  - rewrite <-(app_nil_r (removeVolume "temp" vols)) at 1.
    rewrite removeVolume_idem by (intros ? []%elem_of_nil).
    rewrite <-(app_nil_r (removeVolumeMount "temp" (VolumeMounts c0))) at 1.
    rewrite removeVolumeMount_idem by (intros ? []%elem_of_nil).
    by destruct (c_SecurityContext c0).
Qed.

Ltac open_workload s :=
  destruct s as [?n ?ns ?rv ?an ?ow ?rp ?mu ?sel ?rh [?tl ?ta [?nsel ?cs ?vols ?pl]]];
  unfold ConfigureReadOnlyRootFilesystem, ConfigureContainerUserID, Containers0,
    bind, ret, set_Volumes, set_Container0, set_Containers, set_PodSpec,
    set_VolumeMounts, set_SecurityContext, containers, volumes in *;
  simpl in *.

(** X2.  ConfigureContainerUserID pins the user id of the first
    container to 12000 when SetNonRootUser is set and clears it
    otherwise, whatever it was; it creates the security context when
    there is none, keeps its other two fields, and changes nothing
    else in the workload. *)
Theorem ConfigureContainerUserID_policy {R} (s : StatefulSet) (w : World)
    (c0 : Container) (cs : list Container) :
  containers s = c0 :: cs →
  ∃ c0',
    ConfigureContainerUserID (R:=R) s w = (Next (set_Containers (c0' :: cs) s), w)
    ∧ is_Some (c_SecurityContext c0')
    ∧ c_SecurityContext c0' ≫= RunAsUser
      = (if SetNonRootUser then Some SecurityContextUserID else None)
    ∧ c_SecurityContext c0' ≫= AllowPrivilegeEscalation
      = c_SecurityContext c0 ≫= AllowPrivilegeEscalation
    ∧ c_SecurityContext c0' ≫= ReadOnlyRootFilesystem
      = c_SecurityContext c0 ≫= ReadOnlyRootFilesystem
    ∧ set_SecurityContext None c0' = set_SecurityContext None c0.
Proof.
  intros Hcs. open_workload s. subst. simpl.
  eexists. split; [reflexivity|]. simpl.
  destruct (c_SecurityContext c0); simpl; split_and!; eauto.
Qed.

(** X3.  The two security operations do not depend on their order:
    on a workload with a container, applying them in either order
    gives the same workload, and that workload is a fixed point of
    both. *)
Theorem security_operations_commute {R} (request : FunctionDeployment)
    (s : StatefulSet) (w : World) :
  containers s ≠ [] →
  ∃ s1 s2 s',
    ConfigureReadOnlyRootFilesystem (R:=R) request s w = (Next s1, w)
    ∧ ConfigureContainerUserID (R:=R) s1 w = (Next s', w)
    ∧ ConfigureContainerUserID (R:=R) s w = (Next s2, w)
    ∧ ConfigureReadOnlyRootFilesystem (R:=R) request s2 w = (Next s', w)
    ∧ ConfigureContainerUserID (R:=R) s' w = (Next s', w)
    ∧ ConfigureReadOnlyRootFilesystem (R:=R) request s' w = (Next s', w).
Proof.
  intros Hne. open_workload s. destruct cs as [|c0 cs]; [done|]. simpl.
  assert (removeVolume "temp" (removeVolume "temp" vols) = removeVolume "temp" vols)
    as Hv0.
  { rewrite <-(app_nil_r (removeVolume "temp" vols)) at 1.
    apply removeVolume_idem. by intros ? ?%elem_of_nil. }
  assert (removeVolumeMount "temp" (removeVolumeMount "temp" (VolumeMounts c0))
          = removeVolumeMount "temp" (VolumeMounts c0)) as Hm0.
  { rewrite <-(app_nil_r (removeVolumeMount "temp" (VolumeMounts c0))) at 1.
    apply removeVolumeMount_idem. by intros ? ?%elem_of_nil. }
  pose proof (removeVolume_idem "temp" vols [tempVolume] only_tempVolume) as Hv1.
  pose proof (removeVolumeMount_idem "temp" (VolumeMounts c0) [tempMount]
                only_tempMount) as Hm1.
  destruct (r_ReadOnlyRootFilesystem request) eqn:Hflag; simpl;
    eexists _, _, _;
    (split; [reflexivity|]); simpl;
    (split; [reflexivity|]); simpl;
    (split; [reflexivity|]); simpl;
    rewrite ?Hv0, ?Hm0, ?Hv1, ?Hm1;
    destruct (c_SecurityContext c0); simpl; done.
Qed.

(** X4.  ConfigureReadOnlyRootFilesystem touches the temp volume and
    the first container only: the volumes and mounts of other names
    stay, in their order; the containers after the first stay as they
    are, a mount named temp of theirs included; of the first
    container's security context the other two fields stay; nothing
    else of the first container changes. *)
Theorem ConfigureReadOnlyRootFilesystem_frame {R} (request : FunctionDeployment)
    (s s' : StatefulSet) (w : World) (c0 : Container) (cs : list Container) :
  containers s = c0 :: cs →
  ConfigureReadOnlyRootFilesystem (R:=R) request s w = (Next s', w) →
  removeVolume "temp" (volumes s') = removeVolume "temp" (volumes s)
  ∧ set_PodSpec (t_Spec (Template s)) s' = s
  ∧ NodeSelector (t_Spec (Template s')) = NodeSelector (t_Spec (Template s))
  ∧ placement (t_Spec (Template s')) = placement (t_Spec (Template s))
  ∧ ∃ c0',
      containers s' = c0' :: cs
      ∧ removeVolumeMount "temp" (VolumeMounts c0')
        = removeVolumeMount "temp" (VolumeMounts c0)
      ∧ c_SecurityContext c0' ≫= AllowPrivilegeEscalation
        = c_SecurityContext c0 ≫= AllowPrivilegeEscalation
      ∧ c_SecurityContext c0' ≫= RunAsUser = c_SecurityContext c0 ≫= RunAsUser
      ∧ set_VolumeMounts [] (set_SecurityContext None c0')
        = set_VolumeMounts [] (set_SecurityContext None c0).
Proof.
  intros Hcs. open_workload s. subst. simpl.
  destruct (r_ReadOnlyRootFilesystem request) eqn:Hflag; simpl;
    intros [= <-]; simpl.
  - rewrite (removeVolume_idem "temp" vols [tempVolume] only_tempVolume).
    split_and!; [done|done|done|done|].
    eexists. split; [reflexivity|]. simpl.
    rewrite (removeVolumeMount_idem "temp" (VolumeMounts c0) [tempMount]
               only_tempMount).
    by destruct (c_SecurityContext c0).
  - rewrite <-(app_nil_r (removeVolume "temp" vols)) at 1.
    rewrite removeVolume_idem by (intros ? []%elem_of_nil).
    split_and!; [done|done|done|done|].
    eexists. split; [reflexivity|]. simpl.
    rewrite <-(app_nil_r (removeVolumeMount "temp" (VolumeMounts c0))) at 1.
    rewrite removeVolumeMount_idem by (intros ? []%elem_of_nil).
    by destruct (c_SecurityContext c0).
Qed.

Lemma removeVolume_all name (vs : list Volume) :
  (∀ v, v ∈ vs → v_Name v = name) → removeVolume name vs = [].
Proof.
  intros Hall. unfold removeVolume. induction vs as [|v vs IH]; [done|].
  rewrite filter_cons. case_decide as Hv.
  - exfalso. apply Hv, Hall. by left.
  - apply IH. intros v' Hv'. apply Hall. by right.
Qed.

Lemma removeVolumeMount_all name (ms : list VolumeMount) :
  (∀ m, m ∈ ms → m_Name m = name) → removeVolumeMount name ms = [].
Proof.
  intros Hall. unfold removeVolumeMount. induction ms as [|m ms IH]; [done|].
  rewrite filter_cons. case_decide as Hm.
  - exfalso. apply Hm, Hall. by left.
  - apply IH. intros m' Hm'. apply Hall. by right.
Qed.

(** X5.  The validators of the transition tests accept the outcome of
    ConfigureReadOnlyRootFilesystem from every starting workload that
    holds, besides its first container, only volumes and mounts named
    temp (none, one or several): readOnlyRootEnabled reports nothing
    after a request with the flag set, readOnlyRootDisabled nothing
    after one with the flag clear, and neither panics. *)
Theorem readOnlyRoot_validators_accept {R} (request : FunctionDeployment)
    (s : StatefulSet) (w : World) (c0 : Container) (cs : list Container) :
  containers s = c0 :: cs →
  (∀ v, v ∈ volumes s → v_Name v = "temp") →
  (∀ m, m ∈ VolumeMounts c0 → m_Name m = "temp") →
  ∃ s', ConfigureReadOnlyRootFilesystem (R:=R) request s w = (Next s', w)
      ∧ (if r_ReadOnlyRootFilesystem request
         then readOnlyRootEnabled s' else readOnlyRootDisabled s') = Some [].
Proof.
  intros Hcs Hvols Hmounts. open_workload s. subst. simpl.
  destruct (r_ReadOnlyRootFilesystem request) eqn:Hflag; simpl;
    (eexists; split; [reflexivity|]);
    unfold readOnlyRootEnabled, readOnlyRootDisabled, containers, volumes; simpl;
    rewrite (removeVolume_all "temp" vols Hvols),
      (removeVolumeMount_all "temp" (VolumeMounts c0) Hmounts); simpl.
  - by destruct (c_SecurityContext c0).
  - by destruct (c_SecurityContext c0).
Qed.

(** ** pkg/controller/informers.go *)

(** X6.  The start-up pass of RegisterEventHandlers visits the whole
    list whatever the API server answers: it never panics and never
    stops at a failed write, and the writes it issues are exactly the
    corrections owed to the listed workloads, one per workload that is
    marked and out of bounds, in list order.  When the lister fails it
    issues no write. *)
Theorem RegisterEventHandlers_sweep (w : World) :
  (∀ list : list StatefulSet,
     ∃ w', RegisterEventHandlers (inr list) w = (Next tt, w')
         ∧ updates w' = (updates w ++ omap correction list)%list)
  ∧ (∀ err,
       ∃ w', RegisterEventHandlers (inl err) w = (Return tt, w')
           ∧ updates w' = updates w ∧ cluster w' = cluster w).
Proof.
  split.
  - intros list. unfold RegisterEventHandlers. revert w.
    induction list as [|s list IH]; intros w; simpl.
    + exists w. by rewrite app_nil_r.
    + unfold bind. destruct (validate_step (R:=unit) s w) as (w1 & -> & Hup1 & _).
      destruct (IH w1) as (w' & -> & Hup'). exists w'. split; [done|].
      rewrite Hup', Hup1, <-app_assoc. f_equal.
      by destruct (correction s).
  - intros err. eexists. split; [reflexivity|done].
Qed.

(** X7.  A notification never panics and never hands an error on:
    AddFunc and UpdateFunc issue the correction owed to the (new)
    object and nothing else, log the error of a write that failed
    other than by a conflict, and ignore an object that is not a
    StatefulSet; UpdateFunc does not look at the old object. *)
Theorem notification_handlers (oldObj newObj : option StatefulSet) (w : World) :
  UpdateFunc oldObj newObj w = AddFunc newObj w
  ∧ ∃ st w',
      AddFunc newObj w = (st, w')
      ∧ st ≠ Crash
      ∧ updates w' = (updates w ++ option_list (newObj ≫= correction))%list
      ∧ logs w'
        = (logs w ++ from_option (λ s, complaint s (cluster w)) [] newObj)%list.
Proof.
  split; [done|]. destruct newObj as [s|]; simpl.
  - destruct (validate_step (R:=unit) s w) as (w' & Heq & Hup & Hlog & _).
    exists (Next tt), w'. by split_and!.
  - exists (Return tt), w. rewrite !app_nil_r. by split_and!.
Qed.

(** X8.  With a ceiling of at least 1 the guard converges in one
    step: the clone it writes carries a count of 1 or the ceiling and
    is itself in bounds, so that observing it again leads to no
    write. *)
Theorem correction_in_bounds (s clone : StatefulSet) (ns : string) :
  1 ≤ MaxReplicas < 2 ^ 31 →
  correction s = Some (ns, clone) →
  (Replicas clone = Some 1 ∨ Replicas clone = Some MaxReplicas)
  ∧ set_Replicas (Replicas s) clone = s
  ∧ correction clone = None
  ∧ ∀ w, applyValidation clone w = (Return None, w).
Proof.
  intros Hmax Hcorr. unfold correction in Hcorr.
  destruct (Replicas s) as [current|] eqn:Hrep; [|done].
  case_bool_decide as Hout; [|done]. destruct Hout as [Hmarked Hout].
  injection Hcorr as <- <-.
  assert (int32 (if bool_decide (current = 0) then 1 else MaxReplicas)
          = (if bool_decide (current = 0) then 1 else MaxReplicas)) as Hval.
  { case_bool_decide; [done|]. apply int32_id. lia. }
  rewrite Hval.
  assert (correction
            (set_Replicas (Some (if bool_decide (current = 0) then 1 else MaxReplicas)) s)
          = None) as Hnone.
  { unfold correction. simpl. rewrite bool_decide_eq_false_2; [done|].
    intros [_ Hbad]. case_bool_decide; lia. }
  split_and!.
  - simpl. case_bool_decide; eauto.
  - destruct s. simpl in *. by rewrite Hrep.
  - done.
  - intros w. rewrite applyValidation_unfold. simpl.
    rewrite bool_decide_eq_true_2 by done.
    rewrite bool_decide_eq_false_2; [done|]. case_bool_decide; lia.
Qed.

(** ** pkg/controller/statefulset.go: the builders *)

Lemma Split_length (s : string) (sep : Ascii.ascii) :
  length (Split s sep) = S (occurrences sep s).
Proof.
  induction s as [|c s IH]; [done|]. simpl.
  destruct (Ascii.eqb c sep); simpl; [by rewrite IH|].
  destruct (Split s sep) as [|p ps]; simpl in *; [done|lia].
Qed.

Lemma Split_Join (s : string) (sep : Ascii.ascii) : Join (Split s sep) sep = s.
Proof.
  induction s as [|c s IH]; [done|]. simpl.
  destruct (Ascii.eqb c sep) eqn:Hc.
  - apply Ascii.eqb_eq in Hc as ->.
    pose proof (Split_length s sep) as Hlen.
    destruct (Split s sep) as [|p ps]; [done|]. simpl in *. by rewrite IH.
  - pose proof (Split_length s sep) as Hlen.
    destruct (Split s sep) as [|p ps]; [done|].
    destruct ps as [|q ps]; simpl in *; by rewrite <-IH.
Qed.

Lemma Split_none (s : string) (sep : Ascii.ascii) :
  occurrences sep s = 0%nat → Split s sep = [s].
Proof.
  induction s as [|c s IH]; [done|]. simpl.
  destruct (Ascii.eqb c sep); [done|]. simpl. intros Hs. by rewrite IH.
Qed.

Lemma Split_pair (k v : string) (sep : Ascii.ascii) :
  occurrences sep k = 0%nat → occurrences sep v = 0%nat →
  Split (k ++ String sep v) sep = [k; v].
Proof.
  intros Hk Hv. induction k as [|c k IH]; simpl in *.
  - by rewrite Ascii.eqb_refl, Split_none.
  - destruct (Ascii.eqb c sep); [done|]. by rewrite IH.
Qed.

(** X9.  makeNodeSelector reads the constraints in order.  A
    constraint key=value whose key and value hold no further equals
    sign sets that key, overriding an earlier constraint for it (an
    empty key or value is taken as it is); a constraint with no equals
    sign, or more than one, is skipped; a nil or empty list gives the
    empty selector. *)
Theorem makeNodeSelector_constraints :
  (∀ (cs : list string) (k v : string),
     occurrences equals_sign k = 0%nat → occurrences equals_sign v = 0%nat →
     makeNodeSelector (Some (cs ++ [(k ++ "=" ++ v)%string])%list)
     = <[k := v]> (makeNodeSelector (Some cs)))
  ∧ (∀ (cs : list string) (c : string),
       occurrences equals_sign c ≠ 1%nat →
       makeNodeSelector (Some (cs ++ [c])%list) = makeNodeSelector (Some cs))
  ∧ makeNodeSelector None = ∅
  ∧ makeNodeSelector (Some []) = ∅.
Proof.
  split_and!; [| |done|done].
  - intros cs k v Hk Hv. unfold makeNodeSelector. simpl.
    rewrite foldl_app. simpl.
    change (k ++ "=" ++ v)%string with (k ++ String equals_sign v)%string.
    by rewrite Split_pair.
  - intros cs c Hc. unfold makeNodeSelector. simpl.
    rewrite foldl_app. simpl.
    pose proof (Split_length c equals_sign) as Hlen.
    destruct (Split c equals_sign) as [|a [|b [|d l]]]; simpl in *; try done.
    lia.
Qed.

Lemma makeLabels_at (function : Function) (k : string) :
  makeLabels function !! k
  = match fs_Labels (Spec function) ≫= (.!! k) with
    | Some v => Some v
    | None =>
        if bool_decide (k = "faas_function" ∨ k = "app")
        then Some (fs_Name (Spec function))
        else if bool_decide (k = "controller") then Some (f_Name function)
        else None
    end.
Proof.
  unfold makeLabels, copy_into.
  assert ((<["controller" := f_Name function]>
             (<["app" := fs_Name (Spec function)]>
                (<["faas_function" := fs_Name (Spec function)]>
                   (∅ : gmap string string)))) !! k
          = if bool_decide (k = "faas_function" ∨ k = "app")
            then Some (fs_Name (Spec function))
            else if bool_decide (k = "controller") then Some (f_Name function)
            else None) as Hbase.
  { case_bool_decide as Hk.
    - destruct Hk as [->| ->]; by simplify_map_eq.
    - case_bool_decide as Hc; [subst; by simplify_map_eq|].
      rewrite !lookup_insert_ne by naive_solver. done. }
  destruct (fs_Labels (Spec function)) as [l|]; simpl; [|exact Hbase].
  rewrite lookup_union. destruct (l !! k); simpl.
  - by destruct (_ !! k).
  - rewrite Hbase. by repeat case_bool_decide.
Qed.

(** X10.  makeLabels lets the labels of the spec win: a key of the
    spec's labels carries the spec's value, the marker faas_function
    and the keys app and controller included; any other key is
    faas_function or app with the spec's name, controller with the
    name of the Function, or absent. *)
Theorem makeLabels_lookup (function : Function) (k : string) :
  makeLabels function !! k
  = match fs_Labels (Spec function) ≫= (.!! k) with
    | Some v => Some v
    | None =>
        if bool_decide (k = "faas_function" ∨ k = "app")
        then Some (fs_Name (Spec function))
        else if bool_decide (k = "controller") then Some (f_Name function)
        else None
    end.
Proof. apply makeLabels_at. Qed.

Lemma makeAnnotations_value {R} (function : Function) (w : World) :
  ∃ w', makeAnnotations (R:=R) function w = (Next (annotationsOf function), w')
      ∧ extends w w'
      ∧ (∀ j, json_Marshal (Spec function) = inr j → w' = w)
      ∧ (∀ e, json_Marshal (Spec function) = inl e →
              mkLog LError "Failed to marshal function spec" (Some e) ∈ logs w').
Proof.
  unfold makeAnnotations, annotationsOf, bind, log, ret.
  destruct (json_Marshal (Spec function)) as [e|j]; simpl.
  - eexists. split_and!; [reflexivity|apply extends_log|done|].
    intros ? [= <-]. simpl. apply elem_of_app. right. by apply list_elem_of_singleton.
  - exists w. by split_and!.
Qed.

(** X11.  makeAnnotations always returns.  When the spec marshals,
    the annotation com.openfaas.function.spec is the marshalled spec,
    whatever the spec's own annotations say under that key; when it
    does not marshal, the error is logged and that annotation is what
    the spec's own annotations hold there, if anything.  Every other
    key carries the spec's annotation; prometheus.io.scrape is "false"
    unless the spec sets it. *)
Theorem makeAnnotations_lookup {R} (function : Function) (w : World) :
  ∃ annotations w',
    makeAnnotations (R:=R) function w = (Next annotations, w')
    ∧ extends w w'
    ∧ annotations !! annotationFunctionSpec
      = match json_Marshal (Spec function) with
        | inr specJSON => Some specJSON
        | inl _ => fs_Annotations (Spec function) ≫= (.!! annotationFunctionSpec)
        end
    ∧ (∀ e, json_Marshal (Spec function) = inl e →
            mkLog LError "Failed to marshal function spec" (Some e) ∈ logs w')
    ∧ (∀ k, k ≠ annotationFunctionSpec →
            annotations !! k
            = match fs_Annotations (Spec function) ≫= (.!! k) with
              | Some v => Some v
              | None => if bool_decide (k = "prometheus.io.scrape")
                        then Some "false" else None
              end).
Proof.
  destruct (makeAnnotations_value (R:=R) function w) as (w' & Heq & Hext & _ & Hlog).
  exists (annotationsOf function), w'. split_and!; [done|done| |done|].
  - unfold annotationsOf, copy_into.
    destruct (json_Marshal (Spec function)); [|by simplify_map_eq].
    destruct (fs_Annotations (Spec function)) as [a|]; simpl; [|done].
    by rewrite lookup_union_l.
  - intros k Hk. unfold annotationsOf, copy_into.
    assert (∀ m : gmap string string,
              match json_Marshal (Spec function) with
              | inl _ => m
              | inr specJSON => <[annotationFunctionSpec:=specJSON]> m
              end !! k = m !! k) as ->.
    { intros m. destruct (json_Marshal _); [done|]. by rewrite lookup_insert_ne. }
    destruct (fs_Annotations (Spec function)) as [a|]; simpl.
    + rewrite lookup_union. destruct (a !! k); simpl.
      * by destruct (_ !! k).
      * case_bool_decide; subst; by simplify_map_eq.
    + case_bool_decide; subst; by simplify_map_eq.
Qed.

(** X12.  makeEnvVars puts the handler first, as fprocess, exactly
    when it is not empty, and after it one variable for every entry
    of the environment and no other.  The names are therefore
    distinct unless the handler is set and the environment has an
    fprocess of its own, in which case both are emitted. *)
Theorem makeEnvVars_entries (function : Function) :
  let handler := Handler (Spec function) in
  let env := default ∅ (Environment (Spec function)) in
  ∃ rest,
    makeEnvVars function
    = ((if bool_decide (handler = "") then [] else [mkEnvVar "fprocess" handler])
       ++ rest)%list
    ∧ (λ e, (e_Name e, e_Value e)) <$> rest ≡ₚ map_to_list env
    ∧ (NoDup (e_Name <$> makeEnvVars function)
       ↔ ¬ (handler ≠ "" ∧ is_Some (env !! "fprocess"))).
Proof.
  intros handler env.
  exists ((λ kv, mkEnvVar kv.1 kv.2) <$> map_to_list env).
  assert ((λ e, (e_Name e, e_Value e)) <$> ((λ kv, mkEnvVar kv.1 kv.2) <$> map_to_list env)
          = map_to_list env) as Hpairs.
  { rewrite <-list_fmap_compose. rewrite <-(list_fmap_id (map_to_list env)) at 2.
    apply list_fmap_ext. by intros ? []. }
  assert (e_Name <$> ((λ kv, mkEnvVar kv.1 kv.2) <$> map_to_list env)
          = (map_to_list env).*1) as Hnames.
  { rewrite <-list_fmap_compose. by apply list_fmap_ext. }
  assert (makeEnvVars function
          = ((if bool_decide (handler = "") then [] else [mkEnvVar "fprocess" handler])
             ++ ((λ kv, mkEnvVar kv.1 kv.2) <$> map_to_list env))%list) as Heq.
  { unfold makeEnvVars. fold handler. subst env.
    assert (bool_decide (0 < String.length handler)%nat
            = negb (bool_decide (handler = ""))) as ->.
    { destruct handler; [done|].
      repeat case_bool_decide; simpl in *; try done; lia. }
    destruct (Environment (Spec function)) as [e|]; simpl.
    - by case_bool_decide.
    - rewrite map_to_list_empty. simpl. case_bool_decide; by rewrite ?app_nil_r. }
  split_and!; [done|by rewrite Hpairs|].
  rewrite Heq, fmap_app, Hnames.
  pose proof (NoDup_fst_map_to_list env) as Hnd.
  case_bool_decide as Hh; simpl.
  - split; [intros _ [? _]; done|done].
  - rewrite NoDup_cons. split.
    + intros [Hnin _] [_ [v Hv]]. apply Hnin.
      apply list_elem_of_fmap. exists ("fprocess", v). split; [done|].
      by apply elem_of_map_to_list.
    + intros Hno. split; [|done].
      intros ([k v] & Hk & Hin)%list_elem_of_fmap. simpl in Hk. subst k.
      apply elem_of_map_to_list in Hin. apply Hno. split; [done|by exists v].
Qed.

(** ** pkg/controller/statefulset.go: newStatefulSet *)

Lemma skeleton_set_Fragment f (s : StatefulSet) :
  skeleton (set_Fragment f s) = skeleton s.
Proof. unfold set_Fragment. by destruct (f _). Qed.

Lemma skeleton_fragments (f : Profile → Placement * list Volume → Placement * list Volume)
    (profiles : list Profile) (s : StatefulSet) :
  skeleton (range_apply (λ profile, set_Fragment (f profile)) profiles s) = skeleton s.
Proof.
  revert s. induction profiles as [|p ps IH]; intros s; [done|].
  unfold range_apply in *. simpl. by rewrite IH, skeleton_set_Fragment.
Qed.

Lemma skeleton_projectSecrets service secrets (s : StatefulSet) existingSecrets :
  skeleton (projectSecrets service secrets s existingSecrets).2 = skeleton s.
Proof.
  unfold projectSecrets. destruct (secretProjections _ _); [done|].
  unfold skeleton, set_PodSpec, containers. simpl. do 3 f_equal.
  rewrite <-list_fmap_compose. by apply list_fmap_ext.
Qed.

Lemma wp_makeAnnotations_value {R} function w
    (Qn : gmap string string → World → Prop) (Qr : R → World → Prop) :
  (∀ w', extends w w' → Qn (annotationsOf function) w') →
  wp (makeAnnotations function) w Qn Qr.
Proof.
  intros HQ.
  destruct (makeAnnotations_value (R:=R) function w) as (w' & Heq & Hext & _).
  unfold wp. rewrite Heq. by apply HQ.
Qed.

(** The two security operations on a workload with one container
    that has a security context and no volumes or mounts yet. *)
Lemma wp_security_fresh {R A} (request : FunctionDeployment) (s : StatefulSet)
    (c0 : Container) (sc : SecurityContext) (k : StatefulSet → M R A) w Qn Qr :
  containers s = [c0] → volumes s = [] → VolumeMounts c0 = [] →
  c_SecurityContext c0 = Some sc →
  (∀ s', skeleton s'
         = skeleton
             (set_Containers
                [set_SecurityContext
                   (Some (mkSecurityContext (AllowPrivilegeEscalation sc)
                            (Some (r_ReadOnlyRootFilesystem request))
                            (if SetNonRootUser then Some SecurityContextUserID
                             else None))) c0] s) →
         wp (k s') w Qn Qr) →
  wp (bind (ConfigureReadOnlyRootFilesystem request s)
        (λ s1, bind (ConfigureContainerUserID s1) k)) w Qn Qr.
Proof.
  intros Hcs Hvs Hms Hsc Hk.
  destruct s as [n ns rv an ow rp mu sel rh [tl ta [nsel cs vols pl]]].
  unfold containers, volumes in *. simpl in *. subst cs vols.
  unfold wp at 1, bind, ConfigureReadOnlyRootFilesystem, ConfigureContainerUserID,
    Containers0, bind, ret, containers, volumes. simpl.
  rewrite Hsc, Hms. simpl.
  destruct (r_ReadOnlyRootFilesystem request); simpl; apply Hk; reflexivity.
Qed.

(** The workload that newStatefulSet returns, up to what profiles
    and the secret projection add to it. *)
Lemma newStatefulSet_skeleton (function : Function)
    (existingStatefulSet : option StatefulSet)
    (existingSecrets : gmap string Secret) (w : World) :
  ∃ s w',
    newStatefulSet function existingStatefulSet existingSecrets w = (Next s, w')
    ∧ extends w w'
    ∧ skeleton s = synthesized function existingStatefulSet.
Proof.
  apply wp_falls_through. unfold newStatefulSet, synthesized.
  destruct (MakeProbes _) as [probes e1].
  apply wp_bind, wp_warn_if; intros w1 Hw1 _.
  destruct (makeResources function) as [resources e2].
  apply wp_bind, wp_warn_if; intros w2 Hw2 _.
  apply wp_bind, wp_makeAnnotations_value; intros w3 Hw3.
  eapply wp_security_fresh; [reflexivity|reflexivity|reflexivity|reflexivity|].
  intros s2 Hs2.
  destruct (GetProfilesToRemove _ _ _) as [toRemove e3].
  apply wp_bind, wp_warn_if; intros w4 Hw4 _.
  apply wp_bind.
  eapply wp_mono with
    (Qn := λ _ w5, extends w4 w5) (Qr := λ _ _, False); [| |done].
  { unfold when. destruct (negb _); [apply wp_log, extends_log|by apply wp_ret]. }
  intros [] w5 Hw5.
  destruct (GetProfiles _ _) as [profiles e4].
  apply wp_bind, wp_warn_if; intros w6 Hw6 _.
  apply wp_bind, wp_log.
  match goal with
  | |- context [UpdateSecrets function ?s existingSecrets] => set (s3 := s)
  end.
  pose proof (skeleton_projectSecrets (fs_Name (Spec function))
                (Secrets (Spec function)) s3 existingSecrets) as Hsk.
  fold (UpdateSecrets function s3 existingSecrets) in Hsk.
  destruct (UpdateSecrets _ _ _) as [e5 s4]; simpl in Hsk.
  apply wp_bind, wp_warn_if; intros w7 Hw7 _.
  apply wp_ret.
  split.
  - repeat (eapply extends_trans; [eassumption|]).
    eapply extends_trans; [apply extends_log|done].
  - rewrite Hsk. subst s3. rewrite !skeleton_fragments, Hs2. reflexivity.
Qed.

(** A profile rewrites the placement and the volumes, and nothing
    else. *)
Lemma fragment_set_Fragment f (s : StatefulSet) :
  (placement (t_Spec (Template (set_Fragment f s))), volumes (set_Fragment f s))
  = f (placement (t_Spec (Template s)), volumes s)
  ∧ containers (set_Fragment f s) = containers s.
Proof. unfold set_Fragment, volumes, containers. by destruct (f _). Qed.

Lemma fragment_range_apply
    (f : Profile → Placement * list Volume → Placement * list Volume)
    (profiles : list Profile) (s : StatefulSet) :
  let s' := range_apply (λ profile, set_Fragment (f profile)) profiles s in
  (placement (t_Spec (Template s')), volumes s')
  = range_apply f profiles (placement (t_Spec (Template s)), volumes s)
  ∧ containers s' = containers s.
Proof.
  revert s. induction profiles as [|p ps IH]; intros s; [done|].
  unfold range_apply in *. simpl in *.
  destruct (IH (set_Fragment (f p) s)) as [-> ->].
  by destruct (fragment_set_Fragment (f p) s) as [-> ->].
Qed.

(** The two security operations on a fresh workload, with what they
    leave as volumes and mounts. *)
Lemma wp_security_fresh_volumes {R A} (request : FunctionDeployment) (s : StatefulSet)
    (c0 : Container) (sc : SecurityContext) (k : StatefulSet → M R A) w Qn Qr :
  containers s = [c0] → volumes s = [] → VolumeMounts c0 = [] →
  c_SecurityContext c0 = Some sc →
  (∀ s', skeleton s'
         = skeleton
             (set_Containers
                [set_SecurityContext
                   (Some (mkSecurityContext (AllowPrivilegeEscalation sc)
                            (Some (r_ReadOnlyRootFilesystem request))
                            (if SetNonRootUser then Some SecurityContextUserID
                             else None))) c0] s) →
         VolumeMounts <$> containers s'
         = [if r_ReadOnlyRootFilesystem request then [tempMount] else []] →
         volumes s' = (if r_ReadOnlyRootFilesystem request then [tempVolume] else []) →
         placement (t_Spec (Template s')) = placement (t_Spec (Template s)) →
         wp (k s') w Qn Qr) →
  wp (bind (ConfigureReadOnlyRootFilesystem request s)
        (λ s1, bind (ConfigureContainerUserID s1) k)) w Qn Qr.
Proof.
  intros Hcs Hvs Hms Hsc Hk.
  destruct s as [n ns rv an ow rp mu sel rh [tl ta [nsel cs vols pl]]].
  unfold containers, volumes in *. simpl in *. subst cs vols.
  unfold wp at 1, bind, ConfigureReadOnlyRootFilesystem, ConfigureContainerUserID,
    Containers0, bind, ret, containers, volumes. simpl.
  rewrite Hsc, Hms. simpl.
  destruct (r_ReadOnlyRootFilesystem request); simpl; apply Hk; reflexivity.
Qed.

(** The workload that newStatefulSet returns is the secret projection
    of a workload [s0] that is all but the projection: the synthesized
    skeleton, the temp mount and volume of the read-only setting, and
    what the profiles make of the volumes and the placement. *)
Lemma newStatefulSet_unprojected (function : Function)
    (existingStatefulSet : option StatefulSet)
    (existingSecrets : gmap string Secret) (w : World) :
  ∃ s w',
    newStatefulSet function existingStatefulSet existingSecrets w = (Next s, w')
    ∧ extends w w'
    ∧ ∃ s0,
        s = (UpdateSecrets function s0 existingSecrets).2
        ∧ skeleton s0 = synthesized function existingStatefulSet
        ∧ VolumeMounts <$> containers s0
          = [if fs_ReadOnlyRootFilesystem (Spec function) then [tempMount] else []]
        ∧ (placement (t_Spec (Template s0)), volumes s0)
          = profiled function existingStatefulSet
              (noPlacement,
               if fs_ReadOnlyRootFilesystem (Spec function)
               then [tempVolume] else []).
Proof.
  apply wp_falls_through. unfold newStatefulSet, synthesized, profiled.
  destruct (MakeProbes _) as [probes e1].
  apply wp_bind, wp_warn_if; intros w1 Hw1 _.
  destruct (makeResources function) as [resources e2].
  apply wp_bind, wp_warn_if; intros w2 Hw2 _.
  apply wp_bind, wp_makeAnnotations_value; intros w3 Hw3.
  eapply wp_security_fresh_volumes; [reflexivity|reflexivity|reflexivity|reflexivity|].
  intros s2 Hs2 Hms2 Hvs2 Hpl2.
  destruct (GetProfilesToRemove _ _ _) as [toRemove e3].
  apply wp_bind, wp_warn_if; intros w4 Hw4 _.
  apply wp_bind.
  eapply wp_mono with
    (Qn := λ _ w5, extends w4 w5) (Qr := λ _ _, False); [| |done].
  { unfold when. destruct (negb _); [apply wp_log, extends_log|by apply wp_ret]. }
  intros [] w5 Hw5.
  destruct (GetProfiles _ _) as [profiles e4].
  apply wp_bind, wp_warn_if; intros w6 Hw6 _.
  apply wp_bind, wp_log.
  match goal with
  | |- context [UpdateSecrets function ?s existingSecrets] => set (s3 := s)
  end.
  destruct (UpdateSecrets function s3 existingSecrets) as [e5 s4] eqn:Hs4.
  apply wp_bind, wp_warn_if; intros w7 Hw7 _.
  apply wp_ret.
  split.
  { repeat (eapply extends_trans; [eassumption|]).
    eapply extends_trans; [apply extends_log|done]. }
  exists s3. split; [by rewrite Hs4|]. clear Hs4.
  subst s3. split_and!.
  - rewrite !skeleton_fragments, Hs2. reflexivity.
  - destruct (fragment_range_apply ApplyProfile profiles
                (range_apply (λ profile, set_Fragment (RemoveProfile profile))
                   toRemove s2)) as [_ ->].
    destruct (fragment_range_apply RemoveProfile toRemove s2) as [_ ->].
    exact Hms2.
  - destruct (fragment_range_apply ApplyProfile profiles
                (range_apply (λ profile, set_Fragment (RemoveProfile profile))
                   toRemove s2)) as [-> _].
    destruct (fragment_range_apply RemoveProfile toRemove s2) as [-> _].
    rewrite Hvs2, Hpl2. reflexivity.
Qed.

Lemma String_length_append (s1 s2 : string) :
  String.length (s1 ++ s2) = (String.length s1 + String.length s2)%nat.
Proof. induction s1 as [|c s1 IH]; simpl; [done|]. by rewrite IH. Qed.

(** The volume of the projection is never the temp volume. *)
Lemma secretsVolumeName_not_temp (service : string) :
  secretsVolumeName service ≠ "temp".
Proof.
  intros Heq. apply (f_equal String.length) in Heq.
  unfold secretsVolumeName in Heq. rewrite String_length_append in Heq.
  simpl in Heq. lia.
Qed.

(** C6, as amended.  When a requested secret name is missing from the
    resolved secrets, the projection reports a NotFoundError for a
    missing requested name and hands the workload back as it was.  On
    the update path, once the workload is found with a container, its
    resources parse and the resolver answers, updateStatefulSetSpec
    returns that error with status 400 and issues no write.  On the
    synthesis path newStatefulSet logs the error as a warning and
    returns the workload without the projection: the synthesized
    skeleton, with no mount but the temp mount of the read-only
    setting, and with the volumes and placement that the profiles make
    of the temp volume alone; so with no profile configured its only
    volume is the temp volume, if any, and no volume or mount carries
    the name of the projection. *)
Theorem secret_miss (n : string) (secrets : option (list string))
    (existingSecrets : gmap string Secret) :
  n ∈ elems secrets →
  existingSecrets !! n = None →
  ∃ n', n' ∈ elems secrets ∧ existingSecrets !! n' = None
    ∧ (∀ service (s : StatefulSet),
         projectSecrets service secrets s existingSecrets = (Some (NotFoundError n'), s))
    ∧ (∀ nanosecond ns request annotations w (s : StatefulSet) resources,
         r_Secrets request = secrets →
         Get ns (Service request) (cluster w) = inr s →
         containers s ≠ [] →
         createResources request = inr resources →
         GetSecrets ns secrets = inr existingSecrets →
         ∃ w',
           updateStatefulSetSpec nanosecond ns request annotations w
           = (Return (Some (NotFoundError n'), StatusBadRequest), w')
           ∧ extends w w')
    ∧ (∀ function existingStatefulSet w,
         Secrets (Spec function) = secrets →
         let readOnly := fs_ReadOnlyRootFilesystem (Spec function) in
         let name := secretsVolumeName (fs_Name (Spec function)) in
         ∃ s w',
           newStatefulSet function existingStatefulSet existingSecrets w = (Next s, w')
           ∧ extends w w'
           ∧ mkLog LWarning "secrets update failed" (Some (NotFoundError n'))
             ∈ logs w'
           ∧ skeleton s = synthesized function existingStatefulSet
           ∧ VolumeMounts <$> containers s = [if readOnly then [tempMount] else []]
           ∧ (placement (t_Spec (Template s)), volumes s)
             = profiled function existingStatefulSet
                 (noPlacement, if readOnly then [tempVolume] else [])
           ∧ (∀ c, c ∈ containers s → mountsNamed name (VolumeMounts c) = [])
           ∧ ((GetProfilesToRemove ProfilesNamespace (annotationsOf function)
                 (from_option Annotations ∅ existingStatefulSet)).1 = [] →
              (GetProfiles ProfilesNamespace (annotationsOf function)).1 = [] →
              volumes s = (if readOnly then [tempVolume] else [])
              ∧ volumesNamed name (volumes s) = [])).
Proof.
  intros Hin Hnone.
  destruct (secretProjections_miss _ _ _ Hin Hnone) as (n' & Hin' & Hnone' & Hmiss).
  exists n'. split_and!; [done|done| | |].
  - intros service s. by apply projectSecrets_miss.
  - intros nanosecond ns request annotations w s resources <- HGet Hne Hres HSec.
    destruct (updateStatefulSetSpec_returns nanosecond ns request annotations w)
      as (r & w' & Heq & Hpost).
    unfold update_post in Hpost. rewrite HGet, Hres, HSec, Hmiss in Hpost.
    destruct (containers s); [done|].
    destruct Hpost as [-> Hext]. by exists w'.
  - intros function existingStatefulSet w <-. cbv zeta.
    destruct (wp_falls_through _ _ _
                (newStatefulSet_spec function existingStatefulSet existingSecrets w))
      as (s & w' & Heq & Hext & _ & _ & _ & _ & Hlog).
    destruct (newStatefulSet_unprojected function existingStatefulSet
                existingSecrets w)
      as (s1 & w1 & Heq1 & _ & s0 & Hs0 & Hsk & Hms & Hfr).
    rewrite Heq in Heq1. injection Heq1 as <- <-.
    unfold UpdateSecrets in Hs0.
    rewrite (projectSecrets_miss _ _ _ _ _ Hmiss) in Hs0. simpl in Hs0. subst s0.
    pose proof (secretsVolumeName_not_temp (fs_Name (Spec function))) as Hname.
    exists s, w'. split_and!; [done|done|by apply Hlog|done|done|done| |].
    + intros c Hc.
      assert (VolumeMounts c ∈ VolumeMounts <$> containers s) as Hin1
        by (by apply list_elem_of_fmap_2).
      rewrite Hms in Hin1. apply list_elem_of_singleton in Hin1. rewrite Hin1.
      destruct (fs_ReadOnlyRootFilesystem (Spec function)); [|done].
      unfold mountsNamed. rewrite filter_cons.
      rewrite decide_False by (simpl; by intros Hn; apply Hname). done.
    + intros Hrem Happ.
      assert (volumes s = (if fs_ReadOnlyRootFilesystem (Spec function)
                           then [tempVolume] else [])) as Hvs.
      { unfold profiled in Hfr.
        replace (match existingStatefulSet with
                 | Some e => Annotations e
                 | None => ∅
                 end) with (from_option Annotations ∅ existingStatefulSet) in Hfr
          by (by destruct existingStatefulSet).
        rewrite Hrem, Happ in Hfr. by injection Hfr. }
      split; [exact Hvs|]. rewrite Hvs.
      destruct (fs_ReadOnlyRootFilesystem (Spec function)); [|done].
      unfold volumesNamed. rewrite filter_cons.
      rewrite decide_False by (simpl; by intros Hn; apply Hname). done.
Qed.

Lemma skeleton_fields (s : StatefulSet) :
  Name (skeleton s) = Name s
  ∧ Namespace (skeleton s) = Namespace s
  ∧ ResourceVersion (skeleton s) = ResourceVersion s
  ∧ Annotations (skeleton s) = Annotations s
  ∧ OwnerReferences (skeleton s) = OwnerReferences s
  ∧ Replicas (skeleton s) = Replicas s
  ∧ MaxUnavailable (skeleton s) = MaxUnavailable s
  ∧ Selector (skeleton s) = Selector s
  ∧ RevisionHistoryLimit (skeleton s) = RevisionHistoryLimit s
  ∧ t_Labels (Template (skeleton s)) = t_Labels (Template s)
  ∧ t_Annotations (Template (skeleton s)) = t_Annotations (Template s)
  ∧ NodeSelector (t_Spec (Template (skeleton s))) = NodeSelector (t_Spec (Template s))
  ∧ containers (skeleton s) = bare <$> containers s.
Proof. by split_and!. Qed.

Lemma bare_fields (c : Container) :
  c_Name (bare c) = c_Name c ∧ Image (bare c) = Image c
  ∧ ContainerPort (bare c) = ContainerPort c
  ∧ ImagePullPolicy (bare c) = ImagePullPolicy c ∧ Env (bare c) = Env c
  ∧ Resources (bare c) = Resources c
  ∧ LivenessProbe (bare c) = LivenessProbe c
  ∧ ReadinessProbe (bare c) = ReadinessProbe c
  ∧ c_SecurityContext (bare c) = c_SecurityContext c.
Proof. by split_and!. Qed.

(** X13.  Whatever profiles and the secret projection add,
    newStatefulSet returns a workload with exactly one container, named
    after the function and running its image, pulled always, with the
    variables of makeEnvVars; its security context forbids privilege
    escalation, carries the spec's read-only flag, and pins the user
    id to 12000 exactly when SetNonRootUser is set. *)
Theorem newStatefulSet_container (function : Function)
    (existingStatefulSet : option StatefulSet)
    (existingSecrets : gmap string Secret) (w : World) :
  ∃ s w' c,
    newStatefulSet function existingStatefulSet existingSecrets w = (Next s, w')
    ∧ containers s = [c]
    ∧ c_Name c = fs_Name (Spec function)
    ∧ Image c = fs_Image (Spec function)
    ∧ ImagePullPolicy c = PullAlways
    ∧ Env c = makeEnvVars function
    ∧ c_SecurityContext c
      = Some (mkSecurityContext (Some false)
                (Some (fs_ReadOnlyRootFilesystem (Spec function)))
                (if SetNonRootUser then Some SecurityContextUserID else None)).
Proof.
  destruct (newStatefulSet_skeleton function existingStatefulSet existingSecrets w)
    as (s & w' & Heq & _ & Hsk).
  pose proof (skeleton_fields s) as Hf. rewrite Hsk in Hf.
  destruct Hf as (_&_&_&_&_&_&_&_&_&_&_&_&Hcs).
  destruct (containers s) as [|c [|c' cs]] eqn:Hc;
    unfold synthesized, containers in Hcs; simpl in Hcs; try done.
  injection Hcs as Hc0.
  pose proof (bare_fields c) as Hb. rewrite <-Hc0 in Hb. simpl in Hb.
  destruct Hb as (?&?&?&?&?&?&?&?&?).
  exists s, w', c. by split_and!.
Qed.

(** X14.  The workload that newStatefulSet returns is named after the
    function, in its namespace, owned by it; it carries the same
    annotations on the workload and on the pod template, which hold
    the marshalled spec under com.openfaas.function.spec whenever the
    spec marshals; its rolling update allows no unavailable pod, its
    revision history is kept to 5, and its node selector is that of
    makeNodeSelector. *)
Theorem newStatefulSet_metadata (function : Function)
    (existingStatefulSet : option StatefulSet)
    (existingSecrets : gmap string Secret) (w : World) :
  ∃ s w',
    newStatefulSet function existingStatefulSet existingSecrets w = (Next s, w')
    ∧ Name s = fs_Name (Spec function)
    ∧ Namespace s = f_Namespace function
    ∧ OwnerReferences s = [f_Name function]
    ∧ Annotations s = t_Annotations (Template s)
    ∧ match json_Marshal (Spec function) with
      | inr specJSON => Annotations s !! annotationFunctionSpec = Some specJSON
      | inl _ => True
      end
    ∧ MaxUnavailable s = Some 0
    ∧ RevisionHistoryLimit s = Some 5
    ∧ NodeSelector (t_Spec (Template s))
      = makeNodeSelector (Constraints (Spec function)).
Proof.
  destruct (newStatefulSet_skeleton function existingStatefulSet existingSecrets w)
    as (s & w' & Heq & _ & Hsk).
  pose proof (skeleton_fields s) as Hf. rewrite Hsk in Hf.
  destruct Hf as (Hn&Hns&_&Han&Hown&_&Hmu&_&Hrh&_&Hta&Hnsel&_).
  simpl in *. exists s, w'.
  split_and!; try done; try congruence.
  rewrite <-Han. unfold annotationsOf.
  destruct (json_Marshal (Spec function)); [done|]. by simplify_map_eq.
Qed.

(** X15.  The selector that newStatefulSet sets, app and controller,
    matches the labels of the pod template exactly when the labels of
    the spec do not give app another value than the spec's name or
    controller another value than the name of the Function. *)
Theorem newStatefulSet_selector (function : Function)
    (existingStatefulSet : option StatefulSet)
    (existingSecrets : gmap string Secret) (w : World) :
  ∃ s w',
    newStatefulSet function existingStatefulSet existingSecrets w = (Next s, w')
    ∧ (Selector s ⊆ t_Labels (Template s)
       ↔ (∀ v, fs_Labels (Spec function) ≫= (.!! "app") = Some v →
               v = fs_Name (Spec function))
         ∧ (∀ v, fs_Labels (Spec function) ≫= (.!! "controller") = Some v →
                 v = f_Name function)).
Proof.
  destruct (newStatefulSet_skeleton function existingStatefulSet existingSecrets w)
    as (s & w' & Heq & _ & Hsk).
  pose proof (skeleton_fields s) as Hf. rewrite Hsk in Hf.
  destruct Hf as (_&_&_&_&_&_&_&Hsel&_&Hlab&_).
  simpl in *. exists s, w'. split; [done|].
  rewrite <-Hsel, <-Hlab, map_subseteq_spec.
  pose proof (makeLabels_at function "app") as Happ.
  pose proof (makeLabels_at function "controller") as Hctl.
  rewrite bool_decide_eq_true_2 in Happ by by right.
  rewrite bool_decide_eq_false_2 in Hctl by (intros [?|?]; done).
  rewrite bool_decide_eq_true_2 in Hctl by done.
  split.
  - intros Hsub. split; intros v Hv.
    + rewrite Hv in Happ.
      specialize (Hsub "app" (fs_Name (Spec function))).
      rewrite lookup_insert_ne, lookup_insert_eq in Hsub by done.
      specialize (Hsub eq_refl). congruence.
    + rewrite Hv in Hctl.
      specialize (Hsub "controller" (f_Name function)).
      rewrite lookup_insert_eq in Hsub. specialize (Hsub eq_refl). congruence.
  - intros [Happ' Hctl'] k v Hk.
    destruct (decide (k = "controller")) as [->|Hnc].
    + rewrite lookup_insert_eq in Hk. injection Hk as <-.
      rewrite Hctl.
      destruct (fs_Labels (Spec function) ≫= lookup "controller") as [v|]; [|done].
      f_equal. by apply Hctl'.
    + rewrite lookup_insert_ne in Hk by done.
      destruct (decide (k = "app")) as [->|Hna].
      * rewrite lookup_insert_eq in Hk. injection Hk as <-.
        rewrite Happ.
        destruct (fs_Labels (Spec function) ≫= lookup "app") as [v|]; [|done].
        f_equal. by apply Happ'.
      * by rewrite lookup_insert_ne in Hk.
Qed.

(** X16.  Synthesis and change detection round-trip: when the spec
    marshals to a non-empty string that decodes to the same spec, the
    workload that newStatefulSet returns for a Function needs no update
    for that Function, and needs one for every Function whose spec
    differs. *)
Theorem newStatefulSet_then_needsUpdate (function : Function)
    (existingStatefulSet : option StatefulSet)
    (existingSecrets : gmap string Secret) (w : World) (specJSON : string) :
  json_Marshal (Spec function) = inr specJSON →
  specJSON ≠ "" →
  json_Unmarshal specJSON = inr (Spec function) →
  ∃ s w',
    newStatefulSet function existingStatefulSet existingSecrets w = (Next s, w')
    ∧ (∀ w2, ∃ w3,
         statefulsetNeedsUpdate (R:=unit) function s w2 = (Next false, w3))
    ∧ (∀ other w2, Spec other ≠ Spec function →
         ∃ w3, statefulsetNeedsUpdate (R:=unit) other s w2 = (Next true, w3)).
Proof.
  intros Hm Hne Hu.
  destruct (newStatefulSet_skeleton function existingStatefulSet existingSecrets w)
    as (s & w' & Heq & _ & Hsk).
  pose proof (skeleton_fields s) as Hf. rewrite Hsk in Hf.
  destruct Hf as (_&_&_&Han&_). simpl in Han.
  assert (Annotations s !! annotationFunctionSpec = Some specJSON) as Hsig.
  { rewrite <-Han. unfold annotationsOf. rewrite Hm. by simplify_map_eq. }
  exists s, w'. split; [done|]. split.
  - intros w2. unfold statefulsetNeedsUpdate. rewrite Hsig. simpl.
    rewrite bool_decide_eq_false_2 by done. rewrite Hu.
    rewrite bool_decide_eq_false_2 by (intros Hn; by apply Hn).
    by eexists.
  - intros other w2 Hother. unfold statefulsetNeedsUpdate. rewrite Hsig. simpl.
    rewrite bool_decide_eq_false_2 by done. rewrite Hu.
    rewrite bool_decide_eq_true_2 by done.
    by eexists.
Qed.

(** ** pkg/handlers/update.go: updateStatefulSetSpec *)

Lemma skeleton_assign (f : Container → Container) (s : StatefulSet) c0 cs :
  (∀ c, bare (f c) = f (bare c)) →
  containers s = c0 :: cs →
  skeleton (set_Container0 (f c0) s) = assign0 f (skeleton s).
Proof.
  intros Hf Hcs.
  destruct s as [n ns rv an ow rp mu sel rh [tl ta [nsel cs' vols pl]]].
  unfold containers in Hcs. simpl in Hcs. subst cs'.
  unfold assign0, skeleton, set_Container0, set_Containers, set_PodSpec, containers.
  simpl. by rewrite Hf.
Qed.

Lemma wp_assign_skeleton {R} (f : Container → Container) (s : StatefulSet) w
    (Qn : StatefulSet → World → Prop) (Qr : R → World → Prop) :
  (∀ c, bare (f c) = f (bare c)) →
  containers s ≠ [] →
  (∀ s', skeleton s' = assign0 f (skeleton s) → containers s' ≠ [] → Qn s' w) →
  wp (assign_Container0 f s) w Qn Qr.
Proof.
  intros Hf Hne HQ. unfold assign_Container0.
  destruct (containers s) as [|c0 cs] eqn:Hcs; [done|].
  apply wp_bind. eapply wp_Containers0; [exact Hcs|].
  apply wp_ret, HQ; [by eapply skeleton_assign|].
  unfold set_Container0, containers in *. simpl. by rewrite Hcs.
Qed.

Lemma wp_ConfigureReadOnlyRootFilesystem_skeleton {R} request (s : StatefulSet) w
    (Qn : StatefulSet → World → Prop) (Qr : R → World → Prop) :
  containers s ≠ [] →
  (∀ s', skeleton s'
         = assign0 (readOnlyContext (r_ReadOnlyRootFilesystem request)) (skeleton s) →
         containers s' ≠ [] → Qn s' w) →
  wp (ConfigureReadOnlyRootFilesystem request s) w Qn Qr.
Proof.
  intros Hne HQ.
  destruct s as [n ns rv an ow rp mu sel rh [tl ta [nsel cs vols pl]]].
  unfold containers in Hne. simpl in Hne. destruct cs as [|c0 cs]; [done|].
  unfold wp, ConfigureReadOnlyRootFilesystem, Containers0, bind, ret, containers,
    volumes. simpl.
  destruct (r_ReadOnlyRootFilesystem request); simpl; apply HQ; try done;
    unfold assign0, readOnlyContext, skeleton, containers; simpl;
    by destruct (c_SecurityContext c0).
Qed.

Lemma wp_ConfigureContainerUserID_skeleton {R} (s : StatefulSet) w
    (Qn : StatefulSet → World → Prop) (Qr : R → World → Prop) :
  containers s ≠ [] →
  (∀ s', skeleton s' = assign0 userContext (skeleton s) →
         containers s' ≠ [] → Qn s' w) →
  wp (ConfigureContainerUserID s) w Qn Qr.
Proof.
  intros Hne HQ.
  destruct s as [n ns rv an ow rp mu sel rh [tl ta [nsel cs vols pl]]].
  unfold containers in Hne. simpl in Hne. destruct cs as [|c0 cs]; [done|].
  unfold wp, ConfigureContainerUserID, Containers0, bind, ret, containers. simpl.
  apply HQ; [|done].
  unfold assign0, userContext, skeleton, containers. simpl.
  by destruct (c_SecurityContext c0).
Qed.

Lemma skeleton_nonempty (s s' : StatefulSet) :
  skeleton s' = skeleton s → containers s ≠ [] → containers s' ≠ [].
Proof.
  intros Hsk Hne Hnil.
  assert (bare <$> containers s' = bare <$> containers s) as Hcs
    by (by rewrite <-!(proj2 (proj2 (proj2 (proj2 (proj2 (proj2 (proj2 (proj2
          (proj2 (proj2 (proj2 (proj2 (skeleton_fields _))))))))))))), Hsk).
  rewrite Hnil in Hcs. by destruct (containers s).
Qed.

(** The workload that updateStatefulSetSpec writes, up to what
    profiles and the secret projection add to it. *)
Lemma updateStatefulSetSpec_skeleton (nanosecond : Z) (ns : string)
    (request : FunctionDeployment) (annotations : gmap string string)
    (w : World) (s : StatefulSet) :
  Get ns (Service request) (cluster w) = inr s →
  containers s ≠ [] →
  ∃ r w',
    updateStatefulSetSpec nanosecond ns request annotations w = (Return r, w')
    ∧ ((∃ e status, r = (Some e, status) ∧ extends w w')
       ∨ ∃ s' resources,
           createResources request = inr resources
           ∧ written ns s' w w' r
           ∧ skeleton s'
             = updated nanosecond request annotations resources
                 (MakeProbes request).1 s).
Proof.
  intros HGet Hne. apply wp_returns.
  unfold updateStatefulSetSpec, updated.
  apply wp_bind. unfold client_Get, wp at 1. rewrite HGet. simpl.
  apply wp_bind. rewrite bool_decide_eq_true_2
    by (destruct (containers s); simpl; [done|lia]).
  apply wp_bind, wp_assign_skeleton; [done|done|]. intros s1 Hs1 Hne1.
  apply wp_bind, wp_assign_skeleton; [done|done|]. intros s2 Hs2 Hne2.
  rewrite Hs1 in Hs2.
  apply wp_bind, wp_assign_skeleton; [done|done|]. intros s3 Hs3 Hne3.
  rewrite Hs2 in Hs3.
  apply wp_bind, wp_ConfigureReadOnlyRootFilesystem_skeleton; [done|].
  intros s4 Hs4 Hne4. rewrite Hs3 in Hs4.
  apply wp_bind, wp_ConfigureContainerUserID_skeleton; [done|].
  intros s5 Hs5 Hne5. rewrite Hs4 in Hs5.
  cbv zeta.
  set (s7 := match r_Labels request with
             | Some requestLabels =>
                 match getMinReplicaCount requestLabels with
                 | Some min => set_Replicas (Some min) (set_NodeSelector _ s5)
                 | None => set_NodeSelector _ s5
                 end
             | None => set_NodeSelector _ s5
             end).
  set (s10 := set_TemplateAnnotations annotations
                (set_Annotations annotations (set_TemplateLabels _ s7))).
  assert (containers s10 = containers s5) as Hcs10.
  { subst s10 s7. destruct (r_Labels request) as [l|]; simpl;
      [destruct (getMinReplicaCount l)|]; done. }
  assert (skeleton s10
          = set_TemplateAnnotations annotations
              (set_Annotations annotations
                 (set_TemplateLabels
                    (copy_into (r_Labels request)
                       (<["uid" := fmt_d nanosecond]>
                          (<["faas_function" := Service request]> ∅)))
                    match r_Labels request ≫= getMinReplicaCount with
                    | Some min =>
                        set_Replicas (Some min)
                          (set_NodeSelector (createSelector (r_Constraints request))
                             (skeleton s5))
                    | None =>
                        set_NodeSelector (createSelector (r_Constraints request))
                          (skeleton s5)
                    end))) as Hs10.
  { subst s10 s7. destruct (r_Labels request) as [l|]; simpl;
      [destruct (getMinReplicaCount l)|]; done. }
  rewrite Hs5 in Hs10.
  destruct (createResources request) as [e|resources].
  { apply wp_return. left. eauto using extends_refl. }
  apply wp_bind, wp_assign_skeleton; [done|congruence|]. intros s11 Hs11 Hne11.
  rewrite Hs10 in Hs11.
  destruct (GetSecrets ns (r_Secrets request)) as [e|existingSecrets].
  { apply wp_return. left. eauto using extends_refl. }
  pose proof (skeleton_projectSecrets (Service request) (r_Secrets request) s11
                existingSecrets) as Hs12.
  fold (ConfigureSecrets request s11 existingSecrets) in Hs12.
  destruct (ConfigureSecrets request s11 existingSecrets) as [[e|] s12];
    simpl in Hs12.
  { apply wp_bind, wp_log, wp_return. left. eauto using extends_log. }
  assert (containers s12 ≠ []) as Hne12 by by eapply skeleton_nonempty.
  rewrite Hs11 in Hs12.
  destruct (MakeProbes request) as [probes [e|]]; simpl.
  { apply wp_return. left. eauto using extends_refl. }
  apply wp_bind, wp_assign_skeleton; [done|done|]. intros s13 Hs13 Hne13.
  rewrite Hs12 in Hs13.
  destruct (GetProfilesToRemove _ _ _) as [toRemove [e|]]; simpl.
  { apply wp_return. left. eauto using extends_refl. }
  destruct (GetProfiles _ _) as [profiles [e|]]; simpl.
  { apply wp_return. left. eauto using extends_refl. }
  apply wp_ret, wp_written. intros r w' Hwritten.
  right. eexists _, resources. split; [done|]. split; [exact Hwritten|].
  by rewrite !skeleton_fragments.
Qed.

Lemma assign0_cons (f : Container → Container) (s : StatefulSet) c cs :
  containers s = c :: cs → assign0 f s = set_Containers (f c :: cs) s.
Proof. intros Hcs. unfold assign0, set_Container0. by rewrite Hcs. Qed.

Lemma containers_set_Containers l (s : StatefulSet) :
  containers (set_Containers l s) = l.
Proof. done. Qed.

Lemma set_Containers_twice l l' (s : StatefulSet) :
  set_Containers l (set_Containers l' s) = set_Containers l s.
Proof. done. Qed.

(** The fields of the workload that [updated] describes, for a fetched
    workload with a container. *)
Lemma updated_fields (nanosecond : Z) (request : FunctionDeployment)
    (annotations : gmap string string) (resources : ResourceRequirements)
    (probes : FunctionProbes) (s : StatefulSet) c0 cs :
  containers s = c0 :: cs →
  let c5 := userContext
              (readOnlyContext (r_ReadOnlyRootFilesystem request)
                 (set_Env (buildEnvVars request)
                    (set_ImagePullPolicy PullAlways
                       (set_Image (r_Image request) (bare c0))))) in
  let u := updated nanosecond request annotations resources probes s in
  Name u = Name s ∧ Namespace u = Namespace s
  ∧ ResourceVersion u = ResourceVersion s
  ∧ Selector u = Selector s
  ∧ Annotations u = annotations
  ∧ t_Annotations (Template u) = annotations
  ∧ t_Labels (Template u)
    = copy_into (r_Labels request)
        (<["uid" := fmt_d nanosecond]> (<["faas_function" := Service request]> ∅))
  ∧ NodeSelector (t_Spec (Template u)) = createSelector (r_Constraints request)
  ∧ containers u
    = set_Probes probes (set_Resources resources c5) :: (bare <$> cs).
Proof.
  intros Hcs c5 u. subst u c5. unfold updated.
  assert (containers (skeleton s) = bare c0 :: (bare <$> cs)) as Hsk0.
  { unfold skeleton, containers in *. simpl. by rewrite Hcs. }
  rewrite (assign0_cons _ _ _ _ Hsk0).
  rewrite (assign0_cons _ _ _ _ (containers_set_Containers _ _)), set_Containers_twice.
  rewrite (assign0_cons _ _ _ _ (containers_set_Containers _ _)), set_Containers_twice.
  rewrite (assign0_cons _ _ _ _ (containers_set_Containers _ _)), set_Containers_twice.
  rewrite (assign0_cons _ _ _ _ (containers_set_Containers _ _)), set_Containers_twice.
  set (c5 := userContext _).
  set (s5 := set_Containers (c5 :: _) (skeleton s)).
  set (s6 := match r_Labels request ≫= getMinReplicaCount with
             | Some min => _ | None => _ end).
  assert (containers s6 = c5 :: (bare <$> cs)) as H6.
  { subst s6. by destruct (r_Labels request ≫= getMinReplicaCount). }
  assert (Name s6 = Name s ∧ Namespace s6 = Namespace s
          ∧ ResourceVersion s6 = ResourceVersion s ∧ Selector s6 = Selector s
          ∧ NodeSelector (t_Spec (Template s6))
            = createSelector (r_Constraints request)) as H6'.
  { subst s6. by destruct (r_Labels request ≫= getMinReplicaCount). }
  clearbody s6. clear s5.
  set (s9 := set_TemplateAnnotations _ _).
  assert (containers s9 = c5 :: (bare <$> cs)) as H9 by exact H6.
  rewrite (assign0_cons _ _ _ _ H9).
  rewrite (assign0_cons _ _ _ _ (containers_set_Containers _ _)), set_Containers_twice.
  destruct H6' as (?&?&?&?&?).
  by split_and!.
Qed.

(** The fields of a written workload whose skeleton is [updated]. *)
Lemma written_fields (nanosecond : Z) (request : FunctionDeployment)
    (annotations : gmap string string) (resources : ResourceRequirements)
    (probes : FunctionProbes) (s s' : StatefulSet) c0 cs :
  containers s = c0 :: cs →
  skeleton s' = updated nanosecond request annotations resources probes s →
  Name s' = Name s ∧ Namespace s' = Namespace s
  ∧ ResourceVersion s' = ResourceVersion s
  ∧ Selector s' = Selector s
  ∧ Annotations s' = annotations
  ∧ t_Annotations (Template s') = annotations
  ∧ t_Labels (Template s')
    = copy_into (r_Labels request)
        (<["uid" := fmt_d nanosecond]> (<["faas_function" := Service request]> ∅))
  ∧ NodeSelector (t_Spec (Template s')) = createSelector (r_Constraints request)
  ∧ ∃ c0' cs',
      containers s' = c0' :: cs'
      ∧ bare <$> cs' = bare <$> cs
      ∧ c_Name c0' = c_Name c0
      ∧ Image c0' = r_Image request
      ∧ ImagePullPolicy c0' = PullAlways
      ∧ Env c0' = buildEnvVars request
      ∧ Resources c0' = resources
      ∧ LivenessProbe c0' = Liveness probes
      ∧ ReadinessProbe c0' = Readiness probes
      ∧ c_SecurityContext c0'
        = Some (mkSecurityContext
                  (c_SecurityContext c0 ≫= AllowPrivilegeEscalation)
                  (Some (r_ReadOnlyRootFilesystem request))
                  (if SetNonRootUser then Some SecurityContextUserID else None)).
Proof.
  intros Hcs Hsk.
  pose proof (updated_fields nanosecond request annotations resources probes
                s c0 cs Hcs) as Hu.
  cbv zeta in Hu. rewrite <-Hsk in Hu. clear Hsk.
  destruct (skeleton_fields s') as (Hn&Hns&Hrv&Han&_&_&_&Hsel&_&Htl&Hta&Hnsel&Hc).
  rewrite Hn, Hns, Hrv, Han, Hsel, Htl, Hta, Hnsel, Hc in Hu.
  destruct Hu as (?&?&?&?&?&?&?&?&Hcs').
  split_and!; try done.
  destruct (containers s') as [|c0' cs']; [done|].
  pose proof (f_equal head Hcs') as Hc0. pose proof (f_equal tail Hcs') as Htail.
  cbn [head tail fmap list_fmap] in Hc0, Htail. apply (inj Some) in Hc0.
  exists c0', cs'. split; [done|]. split; [exact Htail|].
  pose proof (bare_fields c0') as (Hname&Himage&_&Hpull&Henv&Hres&Hlive&Hready&Hsc).
  rewrite Hc0 in Hname, Himage, Hpull, Henv, Hres, Hlive, Hready, Hsc.
  split_and!; try (by symmetry).
  rewrite <-Hsc. simpl. by destruct (c_SecurityContext c0).
Qed.

(** X17.  The two edges of updateStatefulSetSpec.  When the workload
    cannot be fetched the error is returned with status 404 and
    nothing is written.  When the fetched workload has no container
    the whole request is passed over: the workload is written back as
    it was fetched, and the call answers 202, or 500 with the error of
    the write. *)
Theorem updateStatefulSetSpec_edges (nanosecond : Z) (ns : string)
    (request : FunctionDeployment) (annotations : gmap string string) (w : World) :
  (∀ e, Get ns (Service request) (cluster w) = inl e →
        updateStatefulSetSpec nanosecond ns request annotations w
        = (Return (Some e, StatusNotFound), w))
  ∧ (∀ s : StatefulSet,
       Get ns (Service request) (cluster w) = inr s →
       containers s = [] →
       ∃ r w',
         updateStatefulSetSpec nanosecond ns request annotations w = (Return r, w')
         ∧ updates w' = (updates w ++ [(ns, s)])%list
         ∧ logs w' = logs w
         ∧ r = match (Update ns s (cluster w)).1 with
               | Some e => (Some e, StatusInternalServerError)
               | None => (None, StatusAccepted)
               end).
Proof.
  split.
  - intros e HGet.
    destruct (updateStatefulSetSpec_returns nanosecond ns request annotations w)
      as (r & w' & Heq & Hpost).
    unfold update_post in Hpost. rewrite HGet in Hpost.
    destruct Hpost as [[-> _] ->]. done.
  - intros s HGet Hcs.
    destruct (updateStatefulSetSpec_returns nanosecond ns request annotations w)
      as (r & w' & Heq & Hpost).
    unfold update_post in Hpost. rewrite HGet, Hcs in Hpost.
    destruct Hpost as (Hup & _ & Hlog & Hr). by exists r, w'.
Qed.

(** X18.  What updateStatefulSetSpec writes for a fetched workload
    with a container, when it gets to its write: the name, namespace,
    resource version and selector are those of the fetched workload;
    the annotations of the workload and of the pod template are the
    ones handed in; the node selector is rebuilt from the request; the
    first container keeps its name, takes the request's image, is
    pulled always, carries the request's environment, the read-only
    flag of the request and the user id of the policy, and keeps its
    AllowPrivilegeEscalation; the other containers change in their
    mounts at most. *)
Theorem updateStatefulSetSpec_written (nanosecond : Z) (ns : string)
    (request : FunctionDeployment) (annotations : gmap string string)
    (w : World) (s : StatefulSet) (c0 : Container) (cs : list Container) :
  Get ns (Service request) (cluster w) = inr s →
  containers s = c0 :: cs →
  ∃ r w',
    updateStatefulSetSpec nanosecond ns request annotations w = (Return r, w')
    ∧ ((∃ e status, r = (Some e, status) ∧ extends w w')
       ∨ ∃ s' c0' cs',
           updates w' = (updates w ++ [(ns, s')])%list
           ∧ Name s' = Name s
           ∧ Namespace s' = Namespace s
           ∧ ResourceVersion s' = ResourceVersion s
           ∧ Selector s' = Selector s
           ∧ Annotations s' = annotations
           ∧ t_Annotations (Template s') = annotations
           ∧ NodeSelector (t_Spec (Template s')) = createSelector (r_Constraints request)
           ∧ containers s' = c0' :: cs'
           ∧ set_VolumeMounts [] <$> cs' = set_VolumeMounts [] <$> cs
           ∧ c_Name c0' = c_Name c0
           ∧ Image c0' = r_Image request
           ∧ ImagePullPolicy c0' = PullAlways
           ∧ Env c0' = buildEnvVars request
           ∧ c_SecurityContext c0'
             = Some (mkSecurityContext
                       (c_SecurityContext c0 ≫= AllowPrivilegeEscalation)
                       (Some (r_ReadOnlyRootFilesystem request))
                       (if SetNonRootUser then Some SecurityContextUserID else None))).
Proof.
  intros HGet Hcs.
  assert (containers s ≠ []) as Hne by by rewrite Hcs.
  destruct (updateStatefulSetSpec_skeleton nanosecond ns request annotations w s
              HGet Hne) as (r & w' & Heq & [Hab|(s' & resources & _ & Hw & Hsk)]).
  { exists r, w'. split; [done|by left]. }
  exists r, w'. split; [done|]. right.
  destruct (written_fields _ _ _ _ _ _ _ _ _ Hcs Hsk)
    as (?&?&?&?&?&?&_&?&c0'&cs'&?&?&?&?&?&?&_&_&_&?).
  exists s', c0', cs'.
  split; [by eapply written_not_aborted|]. by split_and!.
Qed.

(** X19.  updateStatefulSetSpec keeps the selector of the fetched
    workload but rebuilds the labels of the pod template from
    faas_function, uid and the labels of the request alone.  A key
    that the selector requires, other than those two, and that the
    request labels do not carry is therefore missing from the labels
    it writes: the selector no longer matches the pod template. *)
Theorem updateStatefulSetSpec_selector (nanosecond : Z) (ns : string)
    (request : FunctionDeployment) (annotations : gmap string string)
    (w : World) (s : StatefulSet) (k v : string) :
  Get ns (Service request) (cluster w) = inr s →
  containers s ≠ [] →
  Selector s !! k = Some v →
  k ≠ "uid" → k ≠ "faas_function" →
  r_Labels request ≫= (.!! k) = None →
  ∃ r w',
    updateStatefulSetSpec nanosecond ns request annotations w = (Return r, w')
    ∧ ((∃ e status, r = (Some e, status) ∧ extends w w')
       ∨ ∃ s', updates w' = (updates w ++ [(ns, s')])%list
             ∧ Selector s' = Selector s
             ∧ t_Labels (Template s') !! k = None
             ∧ ¬ Selector s' ⊆ t_Labels (Template s')).
Proof.
  intros HGet Hne Hk Huid Hff Hreq.
  destruct (updateStatefulSetSpec_skeleton nanosecond ns request annotations w s
              HGet Hne) as (r & w' & Heq & [Hab|(s' & resources & _ & Hw & Hsk)]).
  { exists r, w'. split; [done|by left]. }
  exists r, w'. split; [done|]. right. exists s'.
  destruct (containers s) as [|c0 cs] eqn:Hcs; [done|].
  destruct (written_fields _ _ _ _ _ _ _ _ _ Hcs Hsk)
    as (_&_&_&Hsel&_&_&Hlab&_).
  assert (updates w' = (updates w ++ [(ns, s')])%list) as Hup
    by by eapply written_not_aborted.
  clear Hsk Hw Heq HGet.
  assert (t_Labels (Template s') !! k = None) as Hnone.
  { rewrite Hlab. unfold copy_into.
    destruct (r_Labels request) as [l|]; simpl in *.
    - rewrite lookup_union, Hreq. simpl.
      by rewrite lookup_insert_ne, lookup_insert_ne, lookup_empty.
    - by rewrite lookup_insert_ne, lookup_insert_ne, lookup_empty. }
  split_and!; [done|done|done|].
  intros Hsub. rewrite map_subseteq_spec in Hsub.
  specialize (Hsub k v). rewrite Hsel, Hnone in Hsub. by specialize (Hsub Hk).
Qed.

End Coverage.

(** * The update handler *)

Section Front.
Context `{Collaborators} `{Frontend}.

(** updateStatefulSetSpec either gives up with an error, the cluster
    and the trace of writes as they were, or issues exactly one write,
    whose answer is its result. *)
Lemma updateStatefulSetSpec_outcome (nanosecond : Z) (ns : string)
    (request : FunctionDeployment) (annotations : gmap string string) (w : World) :
  ∃ r w',
    updateStatefulSetSpec nanosecond ns request annotations w = (Return r, w')
    ∧ ((∃ e status, r = (Some e, status) ∧ extends w w')
       ∨ ∃ s', written ns s' w w' r).
Proof.
  destruct (updateStatefulSetSpec_returns nanosecond ns request annotations w)
    as (r & w' & Heq & Hpost).
  exists r, w'. split; [done|].
  unfold update_post, aborted in Hpost.
  destruct (Get _ _ _) as [e|s]; [left; destruct Hpost as [[-> ?] _]; eauto|].
  destruct (containers s); [right; eauto|].
  destruct (createResources _); [left; destruct Hpost as [[-> ?] _]; eauto|].
  destruct (GetSecrets _ _); [left; destruct Hpost as [-> ?]; eauto|].
  destruct (secretProjections _ _); [left; destruct Hpost as [-> ?]; eauto|].
  destruct (MakeProbes _).2; [left; destruct Hpost as [-> ?]; eauto|].
  destruct (GetProfilesToRemove _ _ _).2; [left; destruct Hpost as [-> ?]; eauto|].
  destruct (GetProfiles _ _).2; [left; destruct Hpost as [-> ?]; eauto|].
  right. destruct Hpost as (s' & ? & _). eauto.
Qed.

(** The handler on a request that gets past its checks, once the
    StatefulSet update has returned. *)
Lemma MakeUpdateHandler_proceeds (defaultNamespace : string) (nanosecond : Z)
    (body : string) (request : FunctionDeployment)
    (annotations : gmap string string) (x : Exchange)
    (oe : option error) (status : Z) (w' : World) :
  accepts defaultNamespace body request annotations →
  updateStatefulSetSpec nanosecond defaultNamespace request annotations (x_World x)
  = (Return (oe, status), w') →
  MakeUpdateHandler defaultNamespace nanosecond (Some body) x
  = match oe with
    | Some err =>
        if negb (IsNotFound err) then
          Some (log_Printf ("error updating StatefulSet: " ++ Service request ++ "."
                            ++ defaultNamespace ++ ", error: " ++ Error_ err
                            ++ newline) err (with_World w' x))
        else
          Some (reply (http_Error ("unable update StatefulSet: " ++ Service request
                                   ++ "." ++ defaultNamespace ++ ", error: "
                                   ++ Error_ err) status) (with_World w' x))
    | None =>
        match updateService defaultNamespace request annotations (with_World w' x) with
        | ((Some err, status), x) =>
            Some (reply (http_Error ("unable update Service: " ++ Service request
                                     ++ "." ++ r_Namespace request ++ ", error: "
                                     ++ Error_ err) status)
                    (if negb (IsNotFound err) then
                       log_Printf ("error updating service: " ++ Service request ++ "."
                                   ++ defaultNamespace ++ ", error: " ++ Error_ err
                                   ++ newline) err x
                     else x))
        | ((None, _), x) => Some (reply (WriteHeader StatusAccepted) x)
        end
    end.
Proof.
  intros (Hdec & Hval & Hns & Hkube & Hann) Hupd.
  unfold MakeUpdateHandler. simpl. rewrite Hdec, Hval.
  assert ((if bool_decide (0 < String.length (r_Namespace request))%nat
           then r_Namespace request else defaultNamespace) = defaultNamespace) as ->.
  { destruct Hns as [->| ->]; [done|]. by case_bool_decide. }
  rewrite bool_decide_eq_false_2 by (intros Hne; by apply Hne).
  rewrite bool_decide_eq_false_2 by done.
  rewrite Hann. unfold call. rewrite Hupd.
  destruct oe as [err|]; [done|].
  by destruct (updateService _ _ _ _) as [[[err|] status'] x'].
Qed.

(** The requests that the checks of the handler turn away. *)
Lemma MakeUpdateHandler_checks (defaultNamespace : string) (nanosecond : Z)
    (body : string) (x : Exchange) :
  (∃ request annotations, accepts defaultNamespace body request annotations)
  ∨ ∃ text code,
      MakeUpdateHandler defaultNamespace nanosecond (Some body) x
      = Some (reply (http_Error text code) x)
      ∧ (code = StatusBadRequest
         ∨ code = StatusUnauthorized ∧ defaultNamespace = "kube-system").
Proof.
  unfold MakeUpdateHandler, accepts. simpl.
  destruct (json_Unmarshal_request body) as [err|request]; [right; eauto 6|].
  destruct (ValidateDeployRequest request) as [err|] eqn:Hval; [right; eauto 6|].
  set (lookupNamespace := if bool_decide (0 < String.length (r_Namespace request))%nat
                          then r_Namespace request else defaultNamespace).
  assert (lookupNamespace = defaultNamespace →
          r_Namespace request = "" ∨ r_Namespace request = defaultNamespace) as Hlookup.
  { subst lookupNamespace. destruct (r_Namespace request); [by left|].
    rewrite bool_decide_eq_true_2 by (simpl; lia). by right. }
  clearbody lookupNamespace.
  destruct (decide (lookupNamespace = defaultNamespace)) as [->|Hother].
  2: { rewrite bool_decide_eq_true_2 by done. right; eauto 6. }
  rewrite bool_decide_eq_false_2 by (intros Hne; by apply Hne).
  destruct (decide (defaultNamespace = "kube-system")) as [Hkube|Hkube].
  { rewrite bool_decide_eq_true_2 by done. right; eauto 6. }
  rewrite bool_decide_eq_false_2 by done.
  destruct (buildAnnotations request) as [err|annotations] eqn:Hann;
    [right; eauto 6|].
  left. exists request, annotations. split_and!; [done|done|by apply Hlookup|done|done].
Qed.

(** C5.  A resource-quantity parse failure [e].  newStatefulSet logs
    it as a warning and synthesis goes on: it returns the workload it
    synthesizes for the function in every case (name, namespace,
    owner, replicas, labels, annotations, selector, node selector and
    the one container with its image, port, environment, probes and
    security context), the container's resources at their default.
    updateStatefulSetSpec, on an existing workload with a container,
    returns [e] with status 400 to its caller and leaves the world as
    it was, no write issued.  What its caller MakeUpdateHandler then
    does with it: nothing is written to either API, and the status
    400 reaches the client only if [e] is a NotFound error; for any
    other [e] the handler logs it and writes no reply. *)
Theorem resource_parse_failure (e : error) :
  (∀ function existingStatefulSet existingSecrets w,
     parseResources (Limits (Spec function)) (Requests (Spec function)) = inl e →
     ∃ s w',
       newStatefulSet function existingStatefulSet existingSecrets w = (Next s, w')
       ∧ extends w w'
       ∧ Resources <$> containers s = [defaultResources]
       ∧ mkLog LWarning "resources parsing failed" (Some e) ∈ logs w'
       ∧ skeleton s = synthesized function existingStatefulSet
       ∧ (makeResources function).1 = defaultResources)
  ∧ (∀ nanosecond ns request annotations w (s : StatefulSet),
       Get ns (Service request) (cluster w) = inr s →
       containers s ≠ [] →
       parseResources (r_Limits request) (r_Requests request) = inl e →
       updateStatefulSetSpec nanosecond ns request annotations w
       = (Return (Some e, StatusBadRequest), w))
  ∧ (∀ defaultNamespace nanosecond body request annotations x (s : StatefulSet),
       accepts defaultNamespace body request annotations →
       Get defaultNamespace (Service request) (cluster (x_World x)) = inr s →
       containers s ≠ [] →
       parseResources (r_Limits request) (r_Requests request) = inl e →
       ∃ x',
         MakeUpdateHandler defaultNamespace nanosecond (Some body) x = Some x'
         ∧ x_Services x' = x_Services x
         ∧ x_ServiceUpdates x' = x_ServiceUpdates x
         ∧ cluster (x_World x') = cluster (x_World x)
         ∧ updates (x_World x') = updates (x_World x)
         ∧ x_Response x'
           = if IsNotFound e
             then (x_Response x
                   ++ [http_Error ("unable update StatefulSet: " ++ Service request
                                   ++ "." ++ defaultNamespace ++ ", error: "
                                   ++ Error_ e) StatusBadRequest])%list
             else x_Response x).
Proof.
  assert (∀ nanosecond ns request annotations w (s : StatefulSet),
            Get ns (Service request) (cluster w) = inr s →
            containers s ≠ [] →
            parseResources (r_Limits request) (r_Requests request) = inl e →
            updateStatefulSetSpec nanosecond ns request annotations w
            = (Return (Some e, StatusBadRequest), w)) as Hupdate.
  { intros nanosecond ns request annotations w s HGet Hne Hparse.
    destruct (updateStatefulSetSpec_returns nanosecond ns request annotations w)
      as (r & w' & Heq & Hpost).
    unfold update_post, createResources in Hpost. rewrite HGet, Hparse in Hpost.
    destruct (containers s); [done|].
    destruct Hpost as [[-> _] ->]. done. }
  split_and!.
  - intros function existingStatefulSet existingSecrets w Hparse.
    destruct (wp_falls_through _ _ _
                (newStatefulSet_spec function existingStatefulSet existingSecrets w))
      as (s & w' & Heq & Hext & _ & _ & Hres & Hlog & _).
    destruct (newStatefulSet_skeleton function existingStatefulSet
                existingSecrets w) as (s1 & w1 & Heq1 & _ & Hsk).
    rewrite Heq in Heq1. injection Heq1 as <- <-.
    unfold makeResources in Hres, Hlog |- *. rewrite Hparse in Hres, Hlog |- *.
    exists s, w'. split_and!; [done|done|done|by apply Hlog|done|done].
  - exact Hupdate.
  - intros defaultNamespace nanosecond body request annotations x s
      Hacc HGet Hne Hparse.
    pose proof (Hupdate nanosecond defaultNamespace request annotations
                  (x_World x) s HGet Hne Hparse) as Hupd.
    rewrite (MakeUpdateHandler_proceeds _ _ _ _ _ _ _ _ _ Hacc Hupd).
    destruct (IsNotFound e); simpl; eexists; (split; [done|]); simpl;
      split_and!; done.
Qed.

(** X20.  What the handler turns away before it reaches the cluster.
    A body that does not decode to a valid request for the handler's
    own namespace, with well-formed annotations, or any body when that
    namespace is kube-system, gets exactly one error reply and nothing
    else happens: no read or write of the cluster, no log line.  The
    reply is 400; it is 401 only if the handler's namespace is
    kube-system. *)
Theorem MakeUpdateHandler_refuses (defaultNamespace : string) (nanosecond : Z)
    (body : string) (x : Exchange) :
  (∀ request annotations, ¬ accepts defaultNamespace body request annotations) →
  ∃ text code,
    MakeUpdateHandler defaultNamespace nanosecond (Some body) x
    = Some (reply (http_Error text code) x)
    ∧ (code = StatusBadRequest
       ∨ code = StatusUnauthorized ∧ defaultNamespace = "kube-system").
Proof.
  intros Hno.
  destruct (MakeUpdateHandler_checks defaultNamespace nanosecond body x)
    as [(request & annotations & Hacc)|Hrefused]; [|done].
  by destruct (Hno request annotations).
Qed.

(** X21.  The namespace guard.  A valid request that names a namespace
    other than the handler's is answered 400 "namespace must be: ...",
    also when the namespace it names is kube-system; a handler whose
    own namespace is kube-system answers every other valid request
    with 401. *)
Theorem MakeUpdateHandler_namespace_guard (defaultNamespace : string)
    (nanosecond : Z) (body : string) (request : FunctionDeployment) (x : Exchange) :
  json_Unmarshal_request body = inr request →
  ValidateDeployRequest request = None →
  (r_Namespace request ≠ "" → r_Namespace request ≠ defaultNamespace →
   MakeUpdateHandler defaultNamespace nanosecond (Some body) x
   = Some (reply (http_Error ("namespace must be: " ++ defaultNamespace)
                    StatusBadRequest) x))
  ∧ ((r_Namespace request = "" ∨ r_Namespace request = defaultNamespace) →
     defaultNamespace = "kube-system" →
     MakeUpdateHandler defaultNamespace nanosecond (Some body) x
     = Some (reply (http_Error "unable to list within the kube-system namespace"
                      StatusUnauthorized) x)).
Proof.
  intros Hdec Hval. unfold MakeUpdateHandler. simpl. rewrite Hdec, Hval. split.
  - intros Hne Hother.
    rewrite (bool_decide_eq_true_2 (0 < _)%nat).
    + by rewrite bool_decide_eq_true_2.
    + destruct (r_Namespace request); [done|]. simpl. lia.
  - intros Hns ->.
    assert ((if bool_decide (0 < String.length (r_Namespace request))%nat
             then r_Namespace request else "kube-system") = "kube-system") as ->.
    { destruct Hns as [->| ->]; [done|]. by case_bool_decide. }
    rewrite bool_decide_eq_false_2 by (intros Hne; by apply Hne).
    by rewrite bool_decide_eq_true_2.
Qed.

(** X22.  A failure of the StatefulSet update that is not a NotFound
    error is not reported to the client: the handler writes one log
    line and returns without writing anything to the response, and
    without touching the Service. *)
Theorem MakeUpdateHandler_silent_failure (defaultNamespace : string)
    (nanosecond : Z) (body : string) (request : FunctionDeployment)
    (annotations : gmap string string) (x : Exchange)
    (err : error) (status : Z) (w' : World) :
  accepts defaultNamespace body request annotations →
  updateStatefulSetSpec nanosecond defaultNamespace request annotations (x_World x)
  = (Return (Some err, status), w') →
  IsNotFound err = false →
  ∃ x', MakeUpdateHandler defaultNamespace nanosecond (Some body) x = Some x'
      ∧ x_Response x' = x_Response x
      ∧ x_Services x' = x_Services x
      ∧ x_ServiceUpdates x' = x_ServiceUpdates x
      ∧ cluster (x_World x') = cluster w'
      ∧ updates (x_World x') = updates w'
      ∧ ∃ line, logs (x_World x') = (logs w' ++ [line])%list
                ∧ cause line = Some err.
Proof.
  intros Hacc Hupd Hnf.
  rewrite (MakeUpdateHandler_proceeds _ _ _ _ _ _ _ _ _ Hacc Hupd), Hnf. simpl.
  eexists. split; [done|]. split_and!; try done. by eexists.
Qed.

(** X23.  The handler does not panic on a request with a body, and it
    writes at most one reply; it issues at most one write of the
    StatefulSet and at most one write of the Service. *)
Theorem MakeUpdateHandler_replies_once (defaultNamespace : string) (nanosecond : Z)
    (body : string) (x : Exchange) :
  ∃ x', MakeUpdateHandler defaultNamespace nanosecond (Some body) x = Some x'
      ∧ (x_Response x' = x_Response x ∨ ∃ r, x_Response x' = (x_Response x ++ [r])%list)
      ∧ (updates (x_World x') = updates (x_World x)
         ∨ ∃ u, updates (x_World x') = (updates (x_World x) ++ [u])%list)
      ∧ (x_ServiceUpdates x' = x_ServiceUpdates x
         ∨ ∃ u, x_ServiceUpdates x' = (x_ServiceUpdates x ++ [u])%list).
Proof.
  destruct (MakeUpdateHandler_checks defaultNamespace nanosecond body x)
    as [(request & annotations & Hacc)|(text & code & -> & _)].
  2: { eexists. split; [done|]. simpl. split_and!; [right; eauto|by left..]. }
  destruct (updateStatefulSetSpec_outcome nanosecond defaultNamespace request
              annotations (x_World x)) as ([oe status] & w' & Hupd & Hcases).
  rewrite (MakeUpdateHandler_proceeds _ _ _ _ _ _ _ _ _ Hacc Hupd).
  assert (updates w' = updates (x_World x)
          ∨ ∃ u, updates w' = (updates (x_World x) ++ [u])%list) as Hups.
  { destruct Hcases as [(e & st & _ & _ & Hu & _)|(s' & Hu & _)]; [by left|].
    right. by eexists. }
  destruct oe as [err|].
  - destruct (IsNotFound err); simpl; eexists; (split; [done|]); simpl;
      split_and!; try done; try (by left); right; by eexists.
  - unfold updateService. simpl.
    destruct (GetService _ _ _) as [e|service]; simpl.
    { destruct (IsNotFound e); simpl; eexists; (split; [done|]); simpl;
        split_and!; try done; try (by left); right; by eexists. }
    destruct (UpdateService _ _ _) as [[e|] services]; simpl.
    + destruct (IsNotFound e); simpl; eexists; (split; [done|]); simpl;
        split_and!; try done; right; by eexists.
    + eexists. split; [done|]. simpl. split_and!; try done; right; by eexists.
Qed.

(** X24.  A 202 is only sent after both writes went through: when the
    handler answers with WriteHeader, the code is 202, the request got
    past the checks, and the StatefulSet and then the Service were
    each written once in the handler's namespace, without an error,
    the Service with the annotations built from the request. *)
Theorem MakeUpdateHandler_accepted (defaultNamespace : string) (nanosecond : Z)
    (body : string) (x x' : Exchange) (code : Z) :
  MakeUpdateHandler defaultNamespace nanosecond (Some body) x = Some x' →
  x_Response x' = (x_Response x ++ [WriteHeader code])%list →
  code = StatusAccepted
  ∧ ∃ request annotations s' service,
      accepts defaultNamespace body request annotations
      ∧ updates (x_World x') = (updates (x_World x) ++ [(defaultNamespace, s')])%list
      ∧ (Update defaultNamespace s' (cluster (x_World x))).1 = None
      ∧ GetService defaultNamespace (Service request) (x_Services x) = inr service
      ∧ x_ServiceUpdates x'
        = (x_ServiceUpdates x
           ++ [(defaultNamespace, mkServiceObject annotations (svc_Rest service))])%list
      ∧ (UpdateService defaultNamespace
           (mkServiceObject annotations (svc_Rest service)) (x_Services x)).1 = None.
Proof.
  intros Hrun Hresp.
  destruct (MakeUpdateHandler_checks defaultNamespace nanosecond body x)
    as [(request & annotations & Hacc)|(text & code' & Heq & _)].
  2: { rewrite Heq in Hrun. injection Hrun as <-. simpl in Hresp.
       by apply app_inv_head in Hresp. }
  destruct (updateStatefulSetSpec_outcome nanosecond defaultNamespace request
              annotations (x_World x)) as ([oe status] & w' & Hupd & Hcases).
  rewrite (MakeUpdateHandler_proceeds _ _ _ _ _ _ _ _ _ Hacc Hupd) in Hrun.
  destruct oe as [err|].
  { destruct (IsNotFound err); simpl in Hrun; injection Hrun as <-; simpl in Hresp.
    - by apply app_inv_head in Hresp.
    - apply (f_equal length) in Hresp. rewrite length_app in Hresp.
      simpl in Hresp. lia. }
  destruct Hcases as [(e & st & [=] & _)|(s' & Hu & _ & _ & Hr)].
  assert ((Update defaultNamespace s' (cluster (x_World x))).1 = None) as Hnone.
  { by destruct (Update defaultNamespace s' (cluster (x_World x))).1. }
  unfold updateService in Hrun. simpl in Hrun.
  destruct (GetService _ _ _) as [e|service] eqn:HGet; simpl in Hrun.
  { injection Hrun as <-. destruct (IsNotFound e); simpl in Hresp;
      by apply app_inv_head in Hresp. }
  destruct (UpdateService _ _ _) as [[e|] services] eqn:HUpdate; simpl in Hrun.
  { injection Hrun as <-. destruct (IsNotFound e); simpl in Hresp;
      by apply app_inv_head in Hresp. }
  injection Hrun as <-. simpl in Hresp. apply app_inv_head in Hresp.
  injection Hresp as <-. split; [done|].
  exists request, annotations, s', service. simpl.
  split_and!; try done. by rewrite HUpdate.
Qed.

(** X25.  A missing workload.  When the StatefulSet of the request
    cannot be fetched and the error is NotFound, the handler answers
    404 with the text of the error and nothing is written or logged;
    when the fetch fails with any other error the client gets no
    reply. *)
Theorem MakeUpdateHandler_missing (defaultNamespace : string) (nanosecond : Z)
    (body : string) (request : FunctionDeployment)
    (annotations : gmap string string) (x : Exchange) (e : error) :
  accepts defaultNamespace body request annotations →
  Get defaultNamespace (Service request) (cluster (x_World x)) = inl e →
  ∃ x', MakeUpdateHandler defaultNamespace nanosecond (Some body) x = Some x'
      ∧ x_Services x' = x_Services x
      ∧ x_ServiceUpdates x' = x_ServiceUpdates x
      ∧ cluster (x_World x') = cluster (x_World x)
      ∧ updates (x_World x') = updates (x_World x)
      ∧ if IsNotFound e
        then x_World x' = x_World x
             ∧ x_Response x'
               = (x_Response x
                  ++ [http_Error ("unable update StatefulSet: " ++ Service request
                                  ++ "." ++ defaultNamespace ++ ", error: "
                                  ++ Error_ e) StatusNotFound])%list
        else x_Response x' = x_Response x.
Proof.
  intros Hacc HGet.
  destruct (updateStatefulSetSpec_returns nanosecond defaultNamespace request
              annotations (x_World x)) as (r & w' & Hupd & Hpost).
  unfold update_post in Hpost. rewrite HGet in Hpost.
  destruct Hpost as [[-> _] ->].
  rewrite (MakeUpdateHandler_proceeds _ _ _ _ _ _ _ _ _ Hacc Hupd).
  destruct (IsNotFound e); simpl; eexists; (split; [done|]); simpl;
    split_and!; done.
Qed.

(** X26.  No rollback.  When the StatefulSet has been written and the
    Service update then fails, the handler answers with the status of
    the Service update (404 when the Service cannot be fetched, 500
    when its write is refused) and the write of the StatefulSet
    stays. *)
Theorem MakeUpdateHandler_partial_update (defaultNamespace : string)
    (nanosecond : Z) (body : string) (request : FunctionDeployment)
    (annotations : gmap string string) (x : Exchange) (status : Z) (w' : World)
    (e : error) (code : Z) (x1 : Exchange) :
  accepts defaultNamespace body request annotations →
  updateStatefulSetSpec nanosecond defaultNamespace request annotations (x_World x)
  = (Return (None, status), w') →
  updateService defaultNamespace request annotations (with_World w' x)
  = ((Some e, code), x1) →
  ∃ x' s',
    MakeUpdateHandler defaultNamespace nanosecond (Some body) x = Some x'
    ∧ updates (x_World x') = (updates (x_World x) ++ [(defaultNamespace, s')])%list
    ∧ cluster (x_World x')
      = (Update defaultNamespace s' (cluster (x_World x))).2
    ∧ x_Response x'
      = (x_Response x
         ++ [http_Error ("unable update Service: " ++ Service request ++ "."
                         ++ r_Namespace request ++ ", error: " ++ Error_ e)
               code])%list
    ∧ (code = StatusNotFound
       ∧ GetService defaultNamespace (Service request) (x_Services x) = inl e
       ∧ x_ServiceUpdates x' = x_ServiceUpdates x
       ∨ code = StatusInternalServerError
         ∧ ∃ u, x_ServiceUpdates x' = (x_ServiceUpdates x ++ [u])%list).
Proof.
  intros Hacc Hupd Hsvc.
  destruct (updateStatefulSetSpec_outcome nanosecond defaultNamespace request
              annotations (x_World x)) as (r & w1 & Hupd' & Hcases).
  rewrite Hupd in Hupd'. injection Hupd' as <- <-.
  destruct Hcases as [(e' & st & [=] & _)|(s' & Hu & Hc & _ & _)].
  rewrite (MakeUpdateHandler_proceeds _ _ _ _ _ _ _ _ _ Hacc Hupd), Hsvc.
  unfold updateService in Hsvc. simpl in Hsvc.
  destruct (GetService _ _ _) as [e1|service] eqn:HGet; simpl in Hsvc.
  - injection Hsvc as <- <- <-.
    eexists _, s'. split; [done|].
    destruct (IsNotFound e1); simpl; split_and!; try done; by left.
  - destruct (UpdateService _ _ _) as [[e1|] services] eqn:HUpdate; simpl in Hsvc;
      [|done].
    injection Hsvc as <- <- <-.
    eexists _, s'. split; [done|].
    destruct (IsNotFound e1); simpl; split_and!; try done; right;
      (split; [done|]); by eexists.
Qed.

End Front.

(** * The properties at the reference instance *)

Import Reference.

(** The replica policy of the specification against the update path:
    minimum 2 declared, 3 replicas existing, 2 written. *)
Lemma update_path_overrides_existing :
  let s := workload (Some 3) markerLabels [basicContainer] [] in
  let request := testRequest (Some minTwo) None None false in
  let result :=
    updateStatefulSetSpec 0 "openfaas-fn" request ∅ (world (clusterWith s)) in
  result.1 = Return (None, StatusAccepted)
  ∧ (λ u, Replicas u.2) <$> updates result.2 = [Some 2]
  ∧ Resolve (r_Labels request ≫= getMinReplicaCount) (Replicas s) = Some 3.
Proof. intros s request result. split_and!; vm_compute; reflexivity. Qed.

(** The last row of Test_Replicas: minimum 2 declared, 0 replicas
    existing, 0 expected.  The rule of the specification gives 2. *)
Remark Test_Replicas_zero_row :
  Resolve (Some 2) (Some 0) = Some 2 ∧ Resolve (Some 2) (Some 0) ≠ int32p 0.
Proof. split; [reflexivity|discriminate]. Qed.

Lemma replica_policy_by_path_witness :
  let s := workload (Some 3) markerLabels [basicContainer] [] in
  let request := testRequest (Some minTwo) None None false in
  let w := world (clusterWith s) in
  Get "openfaas-fn" (Service request) (cluster w) = inr s
  ∧ containers s ≠ []
  ∧ ∃ r w',
      updateStatefulSetSpec 0 "openfaas-fn" request ∅ w = (Return r, w')
      ∧ ((∃ e status, r = (Some e, status) ∧ extends w w')
         ∨ ∃ s', updates w' = (updates w ++ [("openfaas-fn", s')])%list
               ∧ Replicas s'
                 = match r_Labels request ≫= getMinReplicaCount with
                   | Some min => Some min
                   | None => Replicas s
                   end).
Proof.
  intros s request w.
  assert (Get "openfaas-fn" (Service request) (cluster w) = inr s) as HGet
    by (vm_compute; reflexivity).
  assert (containers s ≠ []) as Hne by discriminate.
  split; [exact HGet|]. split; [exact Hne|].
  exact (proj1 replica_policy_by_path 0 "openfaas-fn" request ∅ w s HGet Hne).
Defined.

Lemma projectSecrets_exactly_one_witness :
  let secrets := Some ["pullsecret"; "testsecret"] in
  (∀ n, n ∈ elems secrets → is_Some (existingSecrets !! n))
  ∧ ∃ s1 s2,
      projectSecrets "testfunc" secrets corruptedStatefulset existingSecrets = (None, s1)
      ∧ secrets_invariant "testfunc" secrets s1
      ∧ projectSecrets "testfunc" secrets s1 existingSecrets = (None, s2)
      ∧ secrets_invariant "testfunc" secrets s2.
Proof.
  intros secrets.
  assert (∀ n, n ∈ elems secrets → is_Some (existingSecrets !! n)) as Hcov.
  { intros n Hn. simpl in Hn.
    apply elem_of_cons in Hn as [->|Hn]; [vm_compute; eauto|].
    apply elem_of_cons in Hn as [->|Hn]; [vm_compute; eauto|].
    by apply elem_of_nil in Hn. }
  split; [exact Hcov|].
  exact (projectSecrets_exactly_one "testfunc" secrets corruptedStatefulset
           existingSecrets Hcov).
Defined.

Lemma applyValidation_law_witness :
  let w := world ∅ in
  let zero := workload (Some 0) markerLabels [basicContainer] [] in
  let high := workload (Some 9) markerLabels [basicContainer] [] in
  let fine := workload (Some 3) markerLabels [basicContainer] [] in
  let plain := workload (Some 0) ∅ [basicContainer] [] in
  let unset := workload None markerLabels [] [] in
  0 ≤ MaxReplicas < 2 ^ 31
  ∧ (∃ r w', applyValidation zero w = (Return r, w')
       ∧ updates w' = (updates w
                       ++ [(Namespace zero, set_Replicas (Some 1) zero)])%list)
  ∧ (∃ r w', applyValidation high w = (Return r, w')
       ∧ updates w' = (updates w
                       ++ [(Namespace high, set_Replicas (Some MaxReplicas) high)])%list)
  ∧ applyValidation fine w = (Return None, w)
  ∧ applyValidation plain w = (Return None, w)
  ∧ RegisterEventHandlers (inr [plain; unset]) w = (Next tt, w)
  ∧ (∃ w', RegisterEventHandlers (inr [plain; zero; unset; fine; high]) w
           = (Next tt, w')
         ∧ updates w' = [(Namespace zero, set_Replicas (Some 1) zero);
                         (Namespace high, set_Replicas (Some MaxReplicas) high)]).
Proof.
  intros w zero high fine plain unset.
  assert (0 ≤ MaxReplicas < 2 ^ 31) as Hmax by (vm_compute; split; congruence).
  assert (∀ n, marked (workload n markerLabels [basicContainer] [])) as Hmarked
    by (intros n; vm_compute; eauto).
  assert (¬ marked plain) as Hplain by (vm_compute; intros [x Hx]; discriminate).
  split; [exact Hmax|]. split_and!.
  - exact (proj1 (proj1 (applyValidation_law zero w Hmax) 0 eq_refl (Hmarked _))
             eq_refl).
  - refine (proj1 (proj2 (proj1 (applyValidation_law high w Hmax) 9 eq_refl
                            (Hmarked _))) _).
    vm_compute. reflexivity.
  - refine (proj2 (proj2 (proj1 (applyValidation_law fine w Hmax) 3 eq_refl
                            (Hmarked _))) _).
    vm_compute. split; congruence.
  - exact (proj1 (proj2 (applyValidation_law plain w Hmax)) (or_intror Hplain)).
  - refine (proj1 (proj2 (proj2 (applyValidation_law plain w Hmax))) _ _).
    intros s Hs.
    apply elem_of_cons in Hs as [->|Hs]; [by right|].
    apply elem_of_cons in Hs as [->|Hs]; [by left|].
    by apply elem_of_nil in Hs.
  - destruct (proj2 (proj2 (proj2 (applyValidation_law plain w Hmax)))
                [plain; zero; unset; fine; high]) as (w' & Heq & Hup & _).
    exists w'. split; [exact Heq|]. rewrite Hup. vm_compute. reflexivity.
Defined.

Lemma ConfigureReadOnlyRootFilesystem_temp_witness :
  let on := testRequest None None None true in
  let off := testRequest None None None false in
  let w := world ∅ in
  containers corruptedStatefulset ≠ []
  ∧ (∃ s', ConfigureReadOnlyRootFilesystem (R:=unit) on corruptedStatefulset w
           = (Next s', w)
         ∧ temp_invariant true s')
  ∧ (∃ s1 s2 s3,
       ConfigureReadOnlyRootFilesystem (R:=unit) on corruptedStatefulset w = (Next s1, w)
       ∧ temp_invariant true s1
       ∧ ConfigureReadOnlyRootFilesystem (R:=unit) off s1 w = (Next s2, w)
       ∧ temp_invariant false s2
       ∧ ConfigureReadOnlyRootFilesystem (R:=unit) on s2 w = (Next s3, w)
       ∧ temp_invariant true s3).
Proof.
  intros on off w.
  assert (containers corruptedStatefulset ≠ []) as Hne by discriminate.
  split; [exact Hne|]. split.
  - exact (proj1 (ConfigureReadOnlyRootFilesystem_temp (R:=unit) on
                    corruptedStatefulset w Hne)).
  - exact (proj2 (ConfigureReadOnlyRootFilesystem_temp (R:=unit) on
                    corruptedStatefulset w Hne) on off on eq_refl eq_refl eq_refl).
Defined.

Lemma resource_parse_failure_witness :
  let function := testFunction None None badLimits in
  let request := mkFunctionDeployment "testfunc" "alpine:latest" "openfaas-fn" ""
                   None None None None None badLimits None false in
  let w := world (clusterWith basicStatefulset) in
  let x := exchange (clusterWith basicStatefulset) (servicesWith "testfunc") in
  let body := "testfunc@openfaas-fn@1Zi" in
  parseResources (Limits (Spec function)) (Requests (Spec function)) = inl parseError
  ∧ parseResources (r_Limits request) (r_Requests request) = inl parseError
  ∧ Get "openfaas-fn" (Service request) (cluster w) = inr basicStatefulset
  ∧ containers basicStatefulset ≠ []
  ∧ accepts "openfaas-fn" body request ∅
  ∧ (∃ s w',
       newStatefulSet function None ∅ w = (Next s, w')
       ∧ extends w w'
       ∧ Resources <$> containers s = [defaultResources]
       ∧ mkLog LWarning "resources parsing failed" (Some parseError) ∈ logs w'
       ∧ skeleton s = synthesized function None
       ∧ (makeResources function).1 = defaultResources)
  ∧ updateStatefulSetSpec 0 "openfaas-fn" request ∅ w
    = (Return (Some parseError, StatusBadRequest), w)
  ∧ (∃ x', MakeUpdateHandler "openfaas-fn" 0 (Some body) x = Some x'
         ∧ updates (x_World x') = updates (x_World x)
         ∧ x_Response x' = x_Response x).
Proof.
  intros function request w x body.
  assert (parseResources (Limits (Spec function)) (Requests (Spec function))
          = inl parseError) as Hparse by (vm_compute; reflexivity).
  assert (parseResources (r_Limits request) (r_Requests request) = inl parseError)
    as Hparse' by (vm_compute; reflexivity).
  assert (Get "openfaas-fn" (Service request) (cluster w) = inr basicStatefulset)
    as HGet by (vm_compute; reflexivity).
  assert (containers basicStatefulset ≠ []) as Hne by discriminate.
  assert (accepts "openfaas-fn" body request ∅) as Hacc.
  { split_and!; [vm_compute; reflexivity|reflexivity|by right|discriminate
                |reflexivity]. }
  split_and!; [exact Hparse|exact Hparse'|exact HGet|exact Hne|exact Hacc| | |].
  - exact (proj1 (resource_parse_failure parseError) function None ∅ w Hparse).
  - exact (proj1 (proj2 (resource_parse_failure parseError)) 0 "openfaas-fn"
             request ∅ w basicStatefulset HGet Hne Hparse').
  - destruct (proj2 (proj2 (resource_parse_failure parseError)) "openfaas-fn" 0
                body request ∅ x basicStatefulset Hacc HGet Hne Hparse')
      as (x' & Hrun & _ & _ & _ & Hups & Hresp).
    exists x'. split_and!; [exact Hrun|exact Hups|exact Hresp].
Defined.

(** Synthesis with a requested secret that does not resolve: the
    workload is returned, the error is only a log line. *)
Lemma newStatefulSet_swallows_secret_miss :
  let function := testFunction None (Some ["missing"]) None in
  let result := newStatefulSet function None existingSecrets (world ∅) in
  (UpdateSecrets function basicStatefulset existingSecrets).1
  = Some (NotFoundError "missing")
  ∧ (∃ s, result.1 = Next s)
  ∧ logs result.2
    = [mkLog LInfo "no profiles specified" None;
       mkLog LInfo "Applying profiles" None;
       mkLog LWarning "secrets update failed" (Some (NotFoundError "missing"))].
Proof.
  intros function result. split_and!.
  - vm_compute. reflexivity.
  - eexists. vm_compute. reflexivity.
  - vm_compute. reflexivity.
Qed.

Lemma secret_miss_witness :
  let secrets := Some ["testsecret"; "missing"] in
  let request := testRequest None secrets None false in
  let function := testFunction None secrets None in
  let w := world (clusterWith basicStatefulset) in
  "missing" ∈ elems secrets
  ∧ existingSecrets !! "missing" = None
  ∧ ∃ n', n' ∈ elems secrets ∧ existingSecrets !! n' = None
      ∧ (projectSecrets "testfunc" secrets corruptedStatefulset existingSecrets
         = (Some (NotFoundError n'), corruptedStatefulset))
      ∧ (∃ w',
           updateStatefulSetSpec 0 "openfaas-fn" request ∅ w
           = (Return (Some (NotFoundError n'), StatusBadRequest), w')
           ∧ extends w w')
      ∧ (∃ s w',
           newStatefulSet function None existingSecrets w = (Next s, w')
           ∧ extends w w'
           ∧ mkLog LWarning "secrets update failed" (Some (NotFoundError n'))
             ∈ logs w'
           ∧ skeleton s = synthesized function None
           ∧ VolumeMounts <$> containers s = [[]]
           ∧ volumes s = []).
Proof.
  intros secrets request function w.
  assert ("missing" ∈ elems secrets) as Hin.
  { simpl. apply elem_of_cons. right. apply elem_of_cons. by left. }
  assert (existingSecrets !! "missing" = None) as Hnone by (vm_compute; reflexivity).
  split; [exact Hin|]. split; [exact Hnone|].
  destruct (secret_miss "missing" secrets existingSecrets Hin Hnone)
    as (n' & Hin' & Hnone' & Hproj & Hupd & Hnew).
  exists n'. split_and!; [exact Hin'|exact Hnone'| | |].
  - exact (Hproj "testfunc" corruptedStatefulset).
  - refine (Hupd 0 "openfaas-fn" request ∅ w basicStatefulset (None, None)
              eq_refl _ _ _ _).
    + vm_compute. reflexivity.
    + discriminate.
    + vm_compute. reflexivity.
    + reflexivity.
  - destruct (Hnew function None w eq_refl)
      as (s & w' & Hrun & Hext & Hlog & Hsk & Hms & _ & _ & Hplain).
    exists s, w'.
    split_and!; [exact Hrun|exact Hext|exact Hlog|exact Hsk|exact Hms|].
    exact (proj1 (Hplain eq_refl eq_refl)).
Defined.

Lemma statefulsetNeedsUpdate_law_witness :
  let function := mkFunction "testfunc" "openfaas-fn" emptySpec in
  let w := world ∅ in
  Annotations (signed "{}") !! annotationFunctionSpec = Some "{}"
  ∧ Annotations (signed "{ }") !! annotationFunctionSpec = Some "{ }"
  ∧ "{}" ≠ "" ∧ "{ }" ≠ "" ∧ "{}" ≠ "{ }"
  ∧ json_Unmarshal "{}" = inr (Spec function)
  ∧ json_Unmarshal "{ }" = inr (Spec function)
  ∧ ∃ w1 w2,
      statefulsetNeedsUpdate (R:=unit) function (signed "{}") w = (Next false, w1)
      ∧ statefulsetNeedsUpdate (R:=unit) function (signed "{ }") w = (Next false, w2).
Proof.
  intros function w.
  assert (Annotations (signed "{}") !! annotationFunctionSpec = Some "{}") as H1
    by (vm_compute; reflexivity).
  assert (Annotations (signed "{ }") !! annotationFunctionSpec = Some "{ }") as H2
    by (vm_compute; reflexivity).
  assert ("{}" ≠ "") as Hj1 by discriminate.
  assert ("{ }" ≠ "") as Hj2 by discriminate.
  assert ("{}" ≠ "{ }") as Hne by discriminate.
  assert (json_Unmarshal "{}" = inr (Spec function)) as Hd1
    by (vm_compute; reflexivity).
  assert (json_Unmarshal "{ }" = inr (Spec function)) as Hd2
    by (vm_compute; reflexivity).
  split_and!; [done|done|done|done|done|done|done|].
  exact (proj2 (statefulsetNeedsUpdate_law (R:=unit) function)
           (signed "{}") (signed "{ }") "{}" "{ }" w H1 H2 Hj1 Hj2 Hne Hd1 Hd2).
Defined.

Lemma applyValidation_conflict_witness :
  let observed := workload (Some 0) markerLabels [basicContainer] [] in
  let clone := set_Replicas (Some 1) observed in
  let moved := world (clusterWith (bump observed)) in
  let gone := world ∅ in
  let conflict := StatusError ReasonConflict "testfunc" in
  let missing := StatusError ReasonNotFound "testfunc" in
  (Update (Namespace observed) clone (cluster moved)).1 = Some conflict
  ∧ (Update (Namespace observed) clone (cluster gone)).1 = Some missing
  ∧ (∃ w', updates w' = [(Namespace observed, clone)]
         ∧ applyValidation observed moved = (Return None, w'))
  ∧ (∃ w', updates w' = [(Namespace observed, clone)]
         ∧ applyValidation observed gone
           = (Return (Some (Errorf "error scaling testfunc to 1 replicas: " missing)),
              w')).
Proof.
  intros observed clone moved gone conflict missing.
  assert (marked observed) as Hmarked by (vm_compute; eauto).
  assert ((Update (Namespace observed) clone (cluster moved)).1 = Some conflict)
    as Hc by (vm_compute; reflexivity).
  assert ((Update (Namespace observed) clone (cluster gone)).1 = Some missing)
    as Hm by (vm_compute; reflexivity).
  split; [exact Hc|]. split; [exact Hm|]. split.
  - destruct (applyValidation_conflict observed moved 0 conflict eq_refl Hmarked
                (or_introl eq_refl) Hc) as (w' & Hup & _ & Hyes & _).
    exists w'. split; [exact Hup|]. exact (Hyes eq_refl).
  - destruct (applyValidation_conflict observed gone 0 missing eq_refl Hmarked
                (or_introl eq_refl) Hm) as (w' & Hup & _ & _ & Hno).
    exists w'. split; [exact Hup|]. exact (Hno eq_refl).
Defined.

(** Synthesis of a function without labels of its own: no uid label. *)
Lemma newStatefulSet_has_no_uid_label :
  let function := testFunction None None None in
  let result := newStatefulSet function None ∅ (world ∅) in
  makeLabels function !! "uid" = None
  ∧ ∃ s, result.1 = Next s ∧ t_Labels (Template s) !! "uid" = None.
Proof.
  intros function result. split.
  - vm_compute. reflexivity.
  - eexists. split; vm_compute; reflexivity.
Qed.

Lemma labels_by_path_witness :
  let request := testRequest None None None false in
  let w := world (clusterWith basicStatefulset) in
  Get "openfaas-fn" (Service request) (cluster w) = inr basicStatefulset
  ∧ containers basicStatefulset ≠ []
  ∧ ∃ r w',
      updateStatefulSetSpec 42 "openfaas-fn" request ∅ w = (Return r, w')
      ∧ ((∃ e status, r = (Some e, status) ∧ extends w w')
         ∨ ∃ s', updates w' = (updates w ++ [("openfaas-fn", s')])%list
               ∧ t_Labels (Template s') = updateLabels 42 request).
Proof.
  intros request w.
  assert (Get "openfaas-fn" (Service request) (cluster w) = inr basicStatefulset)
    as HGet by (vm_compute; reflexivity).
  assert (containers basicStatefulset ≠ []) as Hne by discriminate.
  split; [exact HGet|]. split; [exact Hne|].
  exact (proj2 (proj2 labels_by_path) 42 "openfaas-fn" request ∅ w
           basicStatefulset HGet Hne).
Defined.

Lemma Containers0_precondition_witness :
  let request := testRequest None None None true in
  let none := workload None ∅ [] [] in
  let w := world ∅ in
  containers none = []
  ∧ containers basicStatefulset ≠ []
  ∧ (ConfigureReadOnlyRootFilesystem (R:=unit) request none w = (Crash, w)
     ∧ ConfigureContainerUserID (R:=unit) none w = (Crash, w))
  ∧ (∃ s1 s2,
       ConfigureReadOnlyRootFilesystem (R:=unit) request basicStatefulset w
       = (Next s1, w)
       ∧ ConfigureContainerUserID (R:=unit) basicStatefulset w = (Next s2, w)).
Proof.
  intros request none w.
  assert (containers none = []) as Hnone by reflexivity.
  assert (containers basicStatefulset ≠ []) as Hne by discriminate.
  split; [exact Hnone|]. split; [exact Hne|]. split.
  - exact (proj1 Containers0_precondition unit request none w Hnone).
  - exact (proj1 (proj2 Containers0_precondition) unit request basicStatefulset w Hne).
Defined.

(** ** Instances of the further properties *)

Lemma ConfigureReadOnlyRootFilesystem_idempotent_witness :
  let request := testRequest None None None true in
  let w := world ∅ in
  let s1 := match (ConfigureReadOnlyRootFilesystem (R:=unit) request
                     corruptedStatefulset w).1 with
            | Next s => s
            | _ => corruptedStatefulset
            end in
  ConfigureReadOnlyRootFilesystem (R:=unit) request corruptedStatefulset w
  = (Next s1, w)
  ∧ ConfigureReadOnlyRootFilesystem (R:=unit) request s1 w = (Next s1, w).
Proof.
  intros request w s1.
  assert (ConfigureReadOnlyRootFilesystem (R:=unit) request corruptedStatefulset w
          = (Next s1, w)) as Hrun by (vm_compute; reflexivity).
  split; [exact Hrun|].
  exact (ConfigureReadOnlyRootFilesystem_idempotent (R:=unit) request
           corruptedStatefulset s1 w Hrun).
Defined.

Lemma ConfigureContainerUserID_policy_witness :
  let w := world ∅ in
  containers basicStatefulset = [basicContainer]
  ∧ ∃ c0',
      ConfigureContainerUserID (R:=unit) basicStatefulset w
      = (Next (set_Containers [c0'] basicStatefulset), w)
      ∧ is_Some (c_SecurityContext c0')
      ∧ c_SecurityContext c0' ≫= RunAsUser
        = (if SetNonRootUser then Some SecurityContextUserID else None)
      ∧ c_SecurityContext c0' ≫= AllowPrivilegeEscalation
        = c_SecurityContext basicContainer ≫= AllowPrivilegeEscalation
      ∧ c_SecurityContext c0' ≫= ReadOnlyRootFilesystem
        = c_SecurityContext basicContainer ≫= ReadOnlyRootFilesystem
      ∧ set_SecurityContext None c0' = set_SecurityContext None basicContainer.
Proof.
  intros w. split; [reflexivity|].
  exact (ConfigureContainerUserID_policy (R:=unit) basicStatefulset w
           basicContainer [] eq_refl).
Defined.

Lemma security_operations_commute_witness :
  let request := testRequest None None None true in
  let w := world ∅ in
  containers corruptedStatefulset ≠ []
  ∧ ∃ s1 s2 s',
      ConfigureReadOnlyRootFilesystem (R:=unit) request corruptedStatefulset w
      = (Next s1, w)
      ∧ ConfigureContainerUserID (R:=unit) s1 w = (Next s', w)
      ∧ ConfigureContainerUserID (R:=unit) corruptedStatefulset w = (Next s2, w)
      ∧ ConfigureReadOnlyRootFilesystem (R:=unit) request s2 w = (Next s', w)
      ∧ ConfigureContainerUserID (R:=unit) s' w = (Next s', w)
      ∧ ConfigureReadOnlyRootFilesystem (R:=unit) request s' w = (Next s', w).
Proof.
  intros request w.
  assert (containers corruptedStatefulset ≠ []) as Hne by discriminate.
  split; [exact Hne|].
  exact (security_operations_commute (R:=unit) request corruptedStatefulset w Hne).
Defined.

Lemma ConfigureReadOnlyRootFilesystem_frame_witness :
  let request := testRequest None None None true in
  let w := world ∅ in
  let s := corruptedStatefulset in
  let s' := match (ConfigureReadOnlyRootFilesystem (R:=unit) request s w).1 with
            | Next s' => s'
            | _ => s
            end in
  ConfigureReadOnlyRootFilesystem (R:=unit) request s w = (Next s', w)
  ∧ removeVolume "temp" (volumes s') = removeVolume "temp" (volumes s)
  ∧ set_PodSpec (t_Spec (Template s)) s' = s
  ∧ NodeSelector (t_Spec (Template s')) = NodeSelector (t_Spec (Template s))
  ∧ placement (t_Spec (Template s')) = placement (t_Spec (Template s)).
Proof.
  intros request w s s'.
  assert (ConfigureReadOnlyRootFilesystem (R:=unit) request s w = (Next s', w))
    as Hrun by (vm_compute; reflexivity).
  split; [exact Hrun|].
  destruct (ConfigureReadOnlyRootFilesystem_frame (R:=unit) request s s' w _ []
              eq_refl Hrun) as (Hv & Hs & Hn & Hp & _).
  split_and!; [exact Hv|exact Hs|exact Hn|exact Hp].
Defined.

Lemma readOnlyRoot_validators_accept_witness :
  let request := testRequest None None None true in
  let w := world ∅ in
  let c0 := set_VolumeMounts [tempMount; tempMount] basicContainer in
  let s := workload None ∅ [c0] [tempVolume; tempVolume] in
  containers s = [c0]
  ∧ (∀ v, v ∈ volumes s → v_Name v = "temp")
  ∧ (∀ m, m ∈ VolumeMounts c0 → m_Name m = "temp")
  ∧ ∃ s', ConfigureReadOnlyRootFilesystem (R:=unit) request s w = (Next s', w)
        ∧ readOnlyRootEnabled s' = Some [].
Proof.
  intros request w c0 s.
  assert (∀ v, v ∈ volumes s → v_Name v = "temp") as Hvs.
  { intros v Hv.
    apply elem_of_cons in Hv as [->|Hv]; [reflexivity|].
    apply elem_of_cons in Hv as [->|Hv]; [reflexivity|].
    by apply elem_of_nil in Hv. }
  assert (∀ m, m ∈ VolumeMounts c0 → m_Name m = "temp") as Hms.
  { intros m Hm.
    apply elem_of_cons in Hm as [->|Hm]; [reflexivity|].
    apply elem_of_cons in Hm as [->|Hm]; [reflexivity|].
    by apply elem_of_nil in Hm. }
  split; [reflexivity|]. split; [exact Hvs|]. split; [exact Hms|].
  exact (readOnlyRoot_validators_accept (R:=unit) request s w c0 [] eq_refl Hvs Hms).
Defined.

Lemma correction_in_bounds_witness :
  let s := workload (Some 0) markerLabels [basicContainer] [] in
  let clone := set_Replicas (Some 1) s in
  1 ≤ MaxReplicas < 2 ^ 31
  ∧ correction s = Some ("openfaas-fn", clone)
  ∧ (Replicas clone = Some 1 ∨ Replicas clone = Some MaxReplicas)
  ∧ set_Replicas (Replicas s) clone = s
  ∧ correction clone = None
  ∧ ∀ w, applyValidation clone w = (Return None, w).
Proof.
  intros s clone.
  assert (1 ≤ MaxReplicas < 2 ^ 31) as Hmax by (vm_compute; split; congruence).
  assert (correction s = Some ("openfaas-fn", clone)) as Hc
    by (vm_compute; reflexivity).
  split; [exact Hmax|]. split; [exact Hc|].
  exact (correction_in_bounds s clone "openfaas-fn" Hmax Hc).
Defined.

Lemma makeNodeSelector_constraints_witness :
  makeNodeSelector (Some (["zone=a"] ++ ["disk=ssd"])%list)
  = <["disk" := "ssd"]> (makeNodeSelector (Some ["zone=a"]))
  ∧ makeNodeSelector (Some (["zone=a"] ++ ["disk=ssd=fast"])%list)
    = makeNodeSelector (Some ["zone=a"]).
Proof.
  split.
  - exact (proj1 makeNodeSelector_constraints ["zone=a"] "disk" "ssd"
             eq_refl eq_refl).
  - refine (proj1 (proj2 makeNodeSelector_constraints) ["zone=a"] "disk=ssd=fast" _).
    vm_compute. discriminate.
Defined.

Lemma newStatefulSet_then_needsUpdate_witness :
  let function := mkFunction "testfunc" "openfaas-fn" emptySpec in
  let w := world ∅ in
  json_Marshal (Spec function) = inr "{}"
  ∧ "{}" ≠ ""
  ∧ json_Unmarshal "{}" = inr (Spec function)
  ∧ ∃ s w',
      newStatefulSet function None ∅ w = (Next s, w')
      ∧ (∀ w2, ∃ w3,
           statefulsetNeedsUpdate (R:=unit) function s w2 = (Next false, w3))
      ∧ (∀ other w2, Spec other ≠ Spec function →
           ∃ w3, statefulsetNeedsUpdate (R:=unit) other s w2 = (Next true, w3)).
Proof.
  intros function w.
  assert (json_Marshal (Spec function) = inr "{}") as Hm by reflexivity.
  assert ("{}" ≠ "") as Hne by discriminate.
  assert (json_Unmarshal "{}" = inr (Spec function)) as Hu
    by (vm_compute; reflexivity).
  split; [exact Hm|]. split; [exact Hne|]. split; [exact Hu|].
  exact (newStatefulSet_then_needsUpdate function None ∅ w "{}" Hm Hne Hu).
Defined.

Lemma updateStatefulSetSpec_edges_witness :
  let request := testRequest None None None false in
  let missing := StatusError ReasonNotFound "testfunc" in
  let none := workload None ∅ [] [] in
  let w := world (clusterWith none) in
  Get "openfaas-fn" (Service request) (cluster (world ∅)) = inl missing
  ∧ Get "openfaas-fn" (Service request) (cluster w) = inr none
  ∧ containers none = []
  ∧ updateStatefulSetSpec 0 "openfaas-fn" request ∅ (world ∅)
    = (Return (Some missing, StatusNotFound), world ∅)
  ∧ ∃ r w',
      updateStatefulSetSpec 0 "openfaas-fn" request ∅ w = (Return r, w')
      ∧ updates w' = (updates w ++ [("openfaas-fn", none)])%list
      ∧ logs w' = logs w
      ∧ r = match (Update "openfaas-fn" none (cluster w)).1 with
            | Some e => (Some e, StatusInternalServerError)
            | None => (None, StatusAccepted)
            end.
Proof.
  intros request missing none w.
  assert (Get "openfaas-fn" (Service request) (cluster (world ∅)) = inl missing)
    as Hmiss by (vm_compute; reflexivity).
  assert (Get "openfaas-fn" (Service request) (cluster w) = inr none) as HGet
    by (vm_compute; reflexivity).
  split; [exact Hmiss|]. split; [exact HGet|]. split; [reflexivity|]. split.
  - exact (proj1 (updateStatefulSetSpec_edges 0 "openfaas-fn" request ∅ (world ∅))
             missing Hmiss).
  - exact (proj2 (updateStatefulSetSpec_edges 0 "openfaas-fn" request ∅ w)
             none HGet eq_refl).
Defined.

Lemma updateStatefulSetSpec_written_witness :
  let request := testRequest None None None true in
  let w := world (clusterWith basicStatefulset) in
  Get "openfaas-fn" (Service request) (cluster w) = inr basicStatefulset
  ∧ containers basicStatefulset = [basicContainer]
  ∧ ∃ r w',
      updateStatefulSetSpec 0 "openfaas-fn" request ∅ w = (Return r, w')
      ∧ ((∃ e status, r = (Some e, status) ∧ extends w w')
         ∨ ∃ s' c0' cs',
             updates w' = (updates w ++ [("openfaas-fn", s')])%list
             ∧ Name s' = Name basicStatefulset
             ∧ Selector s' = Selector basicStatefulset
             ∧ containers s' = c0' :: cs'
             ∧ Image c0' = r_Image request
             ∧ c_SecurityContext c0'
               = Some (mkSecurityContext None (Some true)
                         (Some SecurityContextUserID))).
Proof.
  intros request w.
  assert (Get "openfaas-fn" (Service request) (cluster w) = inr basicStatefulset)
    as HGet by (vm_compute; reflexivity).
  split; [exact HGet|]. split; [reflexivity|].
  destruct (updateStatefulSetSpec_written 0 "openfaas-fn" request ∅ w
              basicStatefulset basicContainer [] HGet eq_refl)
    as (r & w' & Hrun & Hcases).
  exists r, w'. split; [exact Hrun|].
  destruct Hcases as [Hgave|(s' & c0' & cs' & Hu & Hn & _ & _ & Hsel & _ & _ & _
                             & Hcs & _ & _ & Himage & _ & _ & Hsc)].
  - left. exact Hgave.
  - right. exists s', c0', cs'.
    split_and!; [exact Hu|exact Hn|exact Hsel|exact Hcs|exact Himage|exact Hsc].
Defined.

Lemma updateStatefulSetSpec_selector_witness :
  let request := testRequest None None None false in
  let s := mkStatefulSet "testfunc" "openfaas-fn" 1 ∅ [] None None
             {["app" := "testfunc"]} None
             (mkPodTemplateSpec {["app" := "testfunc"]} ∅
                (mkPodSpec ∅ [basicContainer] [] [])) in
  let w := world (clusterWith s) in
  Get "openfaas-fn" (Service request) (cluster w) = inr s
  ∧ containers s ≠ []
  ∧ Selector s !! "app" = Some "testfunc"
  ∧ r_Labels request ≫= (.!! "app") = None
  ∧ ∃ r w',
      updateStatefulSetSpec 0 "openfaas-fn" request ∅ w = (Return r, w')
      ∧ ((∃ e status, r = (Some e, status) ∧ extends w w')
         ∨ ∃ s', updates w' = (updates w ++ [("openfaas-fn", s')])%list
               ∧ Selector s' = Selector s
               ∧ t_Labels (Template s') !! "app" = None
               ∧ ¬ Selector s' ⊆ t_Labels (Template s')).
Proof.
  intros request s w.
  assert (Get "openfaas-fn" (Service request) (cluster w) = inr s) as HGet
    by (vm_compute; reflexivity).
  assert (containers s ≠ []) as Hne by discriminate.
  assert (Selector s !! "app" = Some "testfunc") as Hk by (vm_compute; reflexivity).
  assert ("app" ≠ "uid") as H1 by discriminate.
  assert ("app" ≠ "faas_function") as H2 by discriminate.
  split; [exact HGet|]. split; [exact Hne|]. split; [exact Hk|].
  split; [reflexivity|].
  exact (updateStatefulSetSpec_selector 0 "openfaas-fn" request ∅ w s
           "app" "testfunc" HGet Hne Hk H1 H2 eq_refl).
Defined.

Lemma MakeUpdateHandler_refuses_witness :
  let x := exchange (clusterWith basicStatefulset) (servicesWith "testfunc") in
  (∀ request annotations, ¬ accepts "openfaas-fn" "" request annotations)
  ∧ ∃ text code,
      MakeUpdateHandler "openfaas-fn" 0 (Some "") x
      = Some (reply (http_Error text code) x)
      ∧ (code = StatusBadRequest
         ∨ code = StatusUnauthorized ∧ "openfaas-fn" = "kube-system").
Proof.
  intros x.
  assert (∀ request annotations, ¬ accepts "openfaas-fn" "" request annotations)
    as Hno.
  { intros request annotations (Hdec & _). vm_compute in Hdec. discriminate. }
  split; [exact Hno|].
  exact (MakeUpdateHandler_refuses "openfaas-fn" 0 "" x Hno).
Defined.

Lemma MakeUpdateHandler_namespace_guard_witness :
  let x := exchange (clusterWith basicStatefulset) (servicesWith "testfunc") in
  let elsewhere := mkFunctionDeployment "testfunc" "alpine:latest" "kube-system" ""
                     None None None None None None None false in
  let here := mkFunctionDeployment "testfunc" "alpine:latest" "" ""
                None None None None None None None false in
  json_Unmarshal_request "testfunc@kube-system" = inr elsewhere
  ∧ json_Unmarshal_request "testfunc" = inr here
  ∧ MakeUpdateHandler "openfaas-fn" 0 (Some "testfunc@kube-system") x
    = Some (reply (http_Error "namespace must be: openfaas-fn" StatusBadRequest) x)
  ∧ MakeUpdateHandler "kube-system" 0 (Some "testfunc") x
    = Some (reply (http_Error "unable to list within the kube-system namespace"
                     StatusUnauthorized) x).
Proof.
  intros x elsewhere here.
  assert (json_Unmarshal_request "testfunc@kube-system" = inr elsewhere) as H1
    by (vm_compute; reflexivity).
  assert (json_Unmarshal_request "testfunc" = inr here) as H2
    by (vm_compute; reflexivity).
  split; [exact H1|]. split; [exact H2|]. split.
  - refine (proj1 (MakeUpdateHandler_namespace_guard "openfaas-fn" 0
                     "testfunc@kube-system" elsewhere x H1 eq_refl) _ _);
      discriminate.
  - exact (proj2 (MakeUpdateHandler_namespace_guard "kube-system" 0
                    "testfunc" here x H2 eq_refl) (or_introl eq_refl) eq_refl).
Defined.

Lemma MakeUpdateHandler_silent_failure_witness :
  let x := exchange (clusterWith basicStatefulset) (servicesWith "testfunc") in
  let body := "testfunc@openfaas-fn@1Zi" in
  let request := mkFunctionDeployment "testfunc" "alpine:latest" "openfaas-fn" ""
                   None None None None None badLimits None false in
  accepts "openfaas-fn" body request ∅
  ∧ updateStatefulSetSpec 0 "openfaas-fn" request ∅ (x_World x)
    = (Return (Some parseError, StatusBadRequest), x_World x)
  ∧ IsNotFound parseError = false
  ∧ ∃ x', MakeUpdateHandler "openfaas-fn" 0 (Some body) x = Some x'
        ∧ x_Response x' = x_Response x
        ∧ x_Services x' = x_Services x
        ∧ x_ServiceUpdates x' = x_ServiceUpdates x.
Proof.
  intros x body request.
  assert (accepts "openfaas-fn" body request ∅) as Hacc.
  { split_and!; [vm_compute; reflexivity|reflexivity|by right|discriminate
                |reflexivity]. }
  assert (updateStatefulSetSpec 0 "openfaas-fn" request ∅ (x_World x)
          = (Return (Some parseError, StatusBadRequest), x_World x)) as Hupd
    by (vm_compute; reflexivity).
  split; [exact Hacc|]. split; [exact Hupd|]. split; [reflexivity|].
  destruct (MakeUpdateHandler_silent_failure "openfaas-fn" 0 body request ∅ x
              parseError StatusBadRequest (x_World x) Hacc Hupd eq_refl)
    as (x' & Hrun & Hresp & Hsvc & Hups & _).
  exists x'. split_and!; [exact Hrun|exact Hresp|exact Hsvc|exact Hups].
Defined.

Lemma MakeUpdateHandler_accepted_witness :
  let x := exchange (clusterWith basicStatefulset) (servicesWith "testfunc") in
  let body := "testfunc@openfaas-fn" in
  let x' := default x (MakeUpdateHandler "openfaas-fn" 0 (Some body) x) in
  MakeUpdateHandler "openfaas-fn" 0 (Some body) x = Some x'
  ∧ x_Response x' = (x_Response x ++ [WriteHeader 202])%list
  ∧ ∃ request annotations s' service,
      accepts "openfaas-fn" body request annotations
      ∧ updates (x_World x') = (updates (x_World x) ++ [("openfaas-fn", s')])%list
      ∧ (Update "openfaas-fn" s' (cluster (x_World x))).1 = None
      ∧ GetService "openfaas-fn" (Service request) (x_Services x) = inr service
      ∧ x_ServiceUpdates x'
        = (x_ServiceUpdates x
           ++ [("openfaas-fn", mkServiceObject annotations (svc_Rest service))])%list
      ∧ (UpdateService "openfaas-fn"
           (mkServiceObject annotations (svc_Rest service)) (x_Services x)).1 = None.
Proof.
  intros x body x'.
  assert (MakeUpdateHandler "openfaas-fn" 0 (Some body) x = Some x') as Hrun
    by (vm_compute; reflexivity).
  assert (x_Response x' = (x_Response x ++ [WriteHeader 202])%list) as Hresp
    by (vm_compute; reflexivity).
  split; [exact Hrun|]. split; [exact Hresp|].
  exact (proj2 (MakeUpdateHandler_accepted "openfaas-fn" 0 body x x' 202 Hrun Hresp)).
Defined.

Lemma MakeUpdateHandler_missing_witness :
  let x := exchange ∅ (servicesWith "testfunc") in
  let body := "testfunc@openfaas-fn" in
  let request := mkFunctionDeployment "testfunc" "alpine:latest" "openfaas-fn" ""
                   None None None None None None None false in
  let missing := StatusError ReasonNotFound "testfunc" in
  accepts "openfaas-fn" body request ∅
  ∧ Get "openfaas-fn" (Service request) (cluster (x_World x)) = inl missing
  ∧ ∃ x', MakeUpdateHandler "openfaas-fn" 0 (Some body) x = Some x'
        ∧ x_World x' = x_World x
        ∧ x_Response x'
          = [http_Error "unable update StatefulSet: testfunc.openfaas-fn, error: testfunc"
               StatusNotFound].
Proof.
  intros x body request missing.
  assert (accepts "openfaas-fn" body request ∅) as Hacc.
  { split_and!; [vm_compute; reflexivity|reflexivity|by right|discriminate
                |reflexivity]. }
  assert (Get "openfaas-fn" (Service request) (cluster (x_World x)) = inl missing)
    as HGet by (vm_compute; reflexivity).
  split; [exact Hacc|]. split; [exact HGet|].
  destruct (MakeUpdateHandler_missing "openfaas-fn" 0 body request ∅ x missing
              Hacc HGet) as (x' & Hrun & _ & _ & _ & _ & Hw & Hresp).
  exists x'. split_and!; [exact Hrun|exact Hw|exact Hresp].
Defined.

Lemma MakeUpdateHandler_partial_update_witness :
  let x := exchange (clusterWith basicStatefulset) ∅ in
  let body := "testfunc@openfaas-fn" in
  let request := mkFunctionDeployment "testfunc" "alpine:latest" "openfaas-fn" ""
                   None None None None None None None false in
  let missing := StatusError ReasonNotFound "testfunc" in
  let w' := (updateStatefulSetSpec 0 "openfaas-fn" request ∅ (x_World x)).2 in
  accepts "openfaas-fn" body request ∅
  ∧ updateStatefulSetSpec 0 "openfaas-fn" request ∅ (x_World x)
    = (Return (None, StatusAccepted), w')
  ∧ updateService "openfaas-fn" request ∅ (with_World w' x)
    = ((Some missing, StatusNotFound), with_World w' x)
  ∧ ∃ x' s',
      MakeUpdateHandler "openfaas-fn" 0 (Some body) x = Some x'
      ∧ updates (x_World x') = (updates (x_World x) ++ [("openfaas-fn", s')])%list
      ∧ x_Response x'
        = [http_Error "unable update Service: testfunc.openfaas-fn, error: testfunc"
             StatusNotFound].
Proof.
  intros x body request missing w'.
  assert (accepts "openfaas-fn" body request ∅) as Hacc.
  { split_and!; [vm_compute; reflexivity|reflexivity|by right|discriminate
                |reflexivity]. }
  assert (updateStatefulSetSpec 0 "openfaas-fn" request ∅ (x_World x)
          = (Return (None, StatusAccepted), w')) as Hupd
    by (vm_compute; reflexivity).
  assert (updateService "openfaas-fn" request ∅ (with_World w' x)
          = ((Some missing, StatusNotFound), with_World w' x)) as Hsvc
    by (vm_compute; reflexivity).
  split; [exact Hacc|]. split; [exact Hupd|]. split; [exact Hsvc|].
  destruct (MakeUpdateHandler_partial_update "openfaas-fn" 0 body request ∅ x
              StatusAccepted w' missing StatusNotFound (with_World w' x)
              Hacc Hupd Hsvc) as (x' & s' & Hrun & Hups & _ & Hresp & _).
  exists x', s'. split_and!; [exact Hrun|exact Hups|exact Hresp].
Defined.
